(** * The capture/upload coordinator of the EMR Assistant extension

    A shallow embedding of [BackgroundManager]
    (src/extension/background/background.js) and the properties of its
    capture toggle, screenshot ring, upload pipeline, retry sweep and
    connectivity probe.

    Modelling conventions.
    - [this.state] is the record [State]; the screenshot objects live in an
      object store ([heap]) and the queue and the ring hold references, so
      that an object pushed twice is one object (the sweep mutates
      [retryCount] and [lastRetry] in place).
    - JavaScript numbers are IEEE doubles.  The values kept in [settings]
      are doubles ([spec_float], binary64).  Counters and millisecond
      timestamps are integers in the range of [Date], hence exact doubles;
      they are kept in [nat] and [Z].
    - An [async] method is a computation of the monad [M]: state passing
      with JavaScript exceptions.  [await] is sequencing; each activation
      (timer tick, message) runs to completion.  A call of an async method
      that is not awaited ([this.scheduleRetry()] in the [catch] of
      [uploadScreenshot], [this.processUploadQueue()] in the probe) is
      executed at the call site, where its synchronous prefix runs in
      JavaScript as well; synchronous code takes no time, the clock
      advances while a [fetch] is awaited.
    - The platform (network, storage) answers through the oracle [Env];
      every external effect is appended to [trace].
    - [setInterval] and [setTimeout] register timers in the state.  The
      event loop ([activate]) fires a timeout only if one is pending and
      due, and a capture tick only while an interval timer exists. *)

From Stdlib Require Import ZArith Ascii String List Bool Lia.
From Stdlib Require Import SpecFloat.
From stdpp Require Import base option list gmap strings pretty.

(** ** JavaScript numbers and values *)

Module Num.

Definition prec : Z := 53.
Definition emax : Z := 1024.

(** The double nearest to an integer (exact below 2^53). *)
Definition of_Z (n : Z) : spec_float := binary_normalize prec emax n 0 false.

Definition mul : spec_float -> spec_float -> spec_float := SFmul prec emax.
Definition div : spec_float -> spec_float -> spec_float := SFdiv prec emax.

Definition nan : spec_float := S754_nan.

(** [Math.floor]: the largest integer below or equal to the argument. *)
Definition floor (x : spec_float) : spec_float :=
  match x with
  | S754_finite s m e =>
      if (0 <=? e)%Z then x
      else
        let n := (cond_Zopp s (Zpos m) / 2 ^ (- e))%Z in
        if (n =? 0)%Z then S754_zero s else of_Z n
  | _ => x
  end.

(** [Math.round]: the nearest integer, ties towards plus infinity. *)
Definition round (x : spec_float) : spec_float :=
  match x with
  | S754_finite s m e =>
      if (0 <=? e)%Z then x
      else
        let n := ((2 * cond_Zopp s (Zpos m) + 2 ^ (- e)) / 2 ^ (1 - e))%Z in
        if (n =? 0)%Z then S754_zero s else of_Z n
  | _ => x
  end.

(** [x >= y] on numbers: false as soon as one side is NaN. *)
Definition geb (x y : spec_float) : bool :=
  match SFcompare x y with
  | Some Gt | Some Eq => true
  | _ => false
  end.

Definition is_zero_or_nan (x : spec_float) : bool :=
  match x with
  | S754_zero _ | S754_nan => true
  | _ => false
  end.

End Num.

(** The values found in the settings object: numbers, booleans, strings.
    A missing key reads as [undefined], which is [None] below. *)
Inductive JsVal :=
| JNum (x : spec_float)
| JBool (b : bool)
| JStr (s : string).

(** Truthiness of a possibly undefined value. *)
Definition truthy (v : option JsVal) : bool :=
  match v with
  | None => false
  | Some (JNum x) => negb (Num.is_zero_or_nan x)
  | Some (JBool b) => b
  | Some (JStr s) => negb (String.eqb s "")
  end.

(** [String.prototype.replace] with a string pattern: first occurrence. *)
Definition js_replace (s pat rep : string) : string :=
  match String.index 0 pat s with
  | Some i =>
      String.substring 0 i s +:+ rep +:+
      String.substring (i + String.length pat)
        (String.length s - (i + String.length pat)) s
  | None => s
  end.

(** ** Data *)

(** References into the object store. *)
Abbreviation ref := nat (only parsing).

(** [screenshotData]; [retryCount] and [lastRetry] exist only on the
    objects the retry machinery has created or touched. *)
Record Item := {
  id : string;
  timestamp : Z;
  url : string;
  title : option string;
  dataUrl : string;
  size : nat;
  quality : option JsVal;
  retryCount : option nat;
  lastRetry : option Z
}.

Definition with_retry (rc : option nat) (lr : option Z) (it : Item) : Item :=
  {| id := id it; timestamp := timestamp it; url := url it; title := title it;
     dataUrl := dataUrl it; size := size it; quality := quality it;
     retryCount := rc; lastRetry := lr |}.

Inductive Error :=
| NetworkFailure
| ServerResponded (status : nat)
| InvalidJson
| CaptureReturnedNull
| CaptureRejected
| TabsQueryRejected
| StorageRejected
| TypeErrorUndefined.

Inductive Notification :=
| StatusCapturing (capturing : bool)
| StatusServer (connected : bool)
| CaptureComplete (at_ : Z) (count : Z) (tabUrl : string) (tabTitle : option string)
| ErrorMessage (e : Error).

Inductive Task := TaskSweep | TaskProbe.

(** The two console lines of the sweep; other console output is not
    recorded. *)
Inductive ConsoleMsg :=
| LogRetrying (sid : string) (attempt : nat)
| LogMaxRetries (sid : string).

(** External effects, in the order they happen. *)
Inductive Event :=
| EvGet (target : string)
| EvPost (target : string) (sid : string)
| EvNotify (n : Notification)
| EvStorageSet (capturing : bool) (ok : bool)
| EvCaptureVisibleTab (q : spec_float)
| EvSetInterval (timer : nat) (period : JsVal)
| EvClearInterval (timer : nat)
| EvSetTimeout (t : Task) (ms : Z)
| EvConsole (m : ConsoleMsg).

Record State := {
  (* this.state *)
  isCapturing : bool;
  captureInterval : JsVal;
  screenshotCount : Z;
  serverUrl : string;
  serverConnected : bool;
  lastCaptureTime : option Z;
  captureTimer : option nat;
  uploadQueue : list ref;
  settings : gmap string JsVal;
  screenshots : option (list ref);
  (* the object store *)
  heap : list Item;
  (* the platform: clock, interval timers, counters of the oracle,
     effects so far, pending timeouts *)
  now : Z;
  intervals : list nat;
  nextTimer : nat;
  fetches : nat;
  saves : nat;
  trace : list Event;
  timeouts : list (Z * Task)
}.

Definition set_isCapturing (v : bool) (s : State) : State :=
  {| isCapturing := v; captureInterval := captureInterval s;
     screenshotCount := screenshotCount s; serverUrl := serverUrl s;
     serverConnected := serverConnected s; lastCaptureTime := lastCaptureTime s;
     captureTimer := captureTimer s; uploadQueue := uploadQueue s;
     settings := settings s; screenshots := screenshots s; heap := heap s;
     now := now s; intervals := intervals s; nextTimer := nextTimer s;
     fetches := fetches s; saves := saves s; trace := trace s;
     timeouts := timeouts s |}.

Definition set_captureInterval (v : JsVal) (s : State) : State :=
  {| isCapturing := isCapturing s; captureInterval := v;
     screenshotCount := screenshotCount s; serverUrl := serverUrl s;
     serverConnected := serverConnected s; lastCaptureTime := lastCaptureTime s;
     captureTimer := captureTimer s; uploadQueue := uploadQueue s;
     settings := settings s; screenshots := screenshots s; heap := heap s;
     now := now s; intervals := intervals s; nextTimer := nextTimer s;
     fetches := fetches s; saves := saves s; trace := trace s;
     timeouts := timeouts s |}.

Definition set_screenshotCount (v : Z) (s : State) : State :=
  {| isCapturing := isCapturing s; captureInterval := captureInterval s;
     screenshotCount := v; serverUrl := serverUrl s;
     serverConnected := serverConnected s; lastCaptureTime := lastCaptureTime s;
     captureTimer := captureTimer s; uploadQueue := uploadQueue s;
     settings := settings s; screenshots := screenshots s; heap := heap s;
     now := now s; intervals := intervals s; nextTimer := nextTimer s;
     fetches := fetches s; saves := saves s; trace := trace s;
     timeouts := timeouts s |}.

Definition set_serverUrl (v : string) (s : State) : State :=
  {| isCapturing := isCapturing s; captureInterval := captureInterval s;
     screenshotCount := screenshotCount s; serverUrl := v;
     serverConnected := serverConnected s; lastCaptureTime := lastCaptureTime s;
     captureTimer := captureTimer s; uploadQueue := uploadQueue s;
     settings := settings s; screenshots := screenshots s; heap := heap s;
     now := now s; intervals := intervals s; nextTimer := nextTimer s;
     fetches := fetches s; saves := saves s; trace := trace s;
     timeouts := timeouts s |}.

Definition set_serverConnected (v : bool) (s : State) : State :=
  {| isCapturing := isCapturing s; captureInterval := captureInterval s;
     screenshotCount := screenshotCount s; serverUrl := serverUrl s;
     serverConnected := v; lastCaptureTime := lastCaptureTime s;
     captureTimer := captureTimer s; uploadQueue := uploadQueue s;
     settings := settings s; screenshots := screenshots s; heap := heap s;
     now := now s; intervals := intervals s; nextTimer := nextTimer s;
     fetches := fetches s; saves := saves s; trace := trace s;
     timeouts := timeouts s |}.

Definition set_lastCaptureTime (v : option Z) (s : State) : State :=
  {| isCapturing := isCapturing s; captureInterval := captureInterval s;
     screenshotCount := screenshotCount s; serverUrl := serverUrl s;
     serverConnected := serverConnected s; lastCaptureTime := v;
     captureTimer := captureTimer s; uploadQueue := uploadQueue s;
     settings := settings s; screenshots := screenshots s; heap := heap s;
     now := now s; intervals := intervals s; nextTimer := nextTimer s;
     fetches := fetches s; saves := saves s; trace := trace s;
     timeouts := timeouts s |}.

Definition set_captureTimer (v : option nat) (s : State) : State :=
  {| isCapturing := isCapturing s; captureInterval := captureInterval s;
     screenshotCount := screenshotCount s; serverUrl := serverUrl s;
     serverConnected := serverConnected s; lastCaptureTime := lastCaptureTime s;
     captureTimer := v; uploadQueue := uploadQueue s;
     settings := settings s; screenshots := screenshots s; heap := heap s;
     now := now s; intervals := intervals s; nextTimer := nextTimer s;
     fetches := fetches s; saves := saves s; trace := trace s;
     timeouts := timeouts s |}.

Definition set_uploadQueue (v : list ref) (s : State) : State :=
  {| isCapturing := isCapturing s; captureInterval := captureInterval s;
     screenshotCount := screenshotCount s; serverUrl := serverUrl s;
     serverConnected := serverConnected s; lastCaptureTime := lastCaptureTime s;
     captureTimer := captureTimer s; uploadQueue := v;
     settings := settings s; screenshots := screenshots s; heap := heap s;
     now := now s; intervals := intervals s; nextTimer := nextTimer s;
     fetches := fetches s; saves := saves s; trace := trace s;
     timeouts := timeouts s |}.

Definition set_settings (v : gmap string JsVal) (s : State) : State :=
  {| isCapturing := isCapturing s; captureInterval := captureInterval s;
     screenshotCount := screenshotCount s; serverUrl := serverUrl s;
     serverConnected := serverConnected s; lastCaptureTime := lastCaptureTime s;
     captureTimer := captureTimer s; uploadQueue := uploadQueue s;
     settings := v; screenshots := screenshots s; heap := heap s;
     now := now s; intervals := intervals s; nextTimer := nextTimer s;
     fetches := fetches s; saves := saves s; trace := trace s;
     timeouts := timeouts s |}.

Definition set_screenshots (v : option (list ref)) (s : State) : State :=
  {| isCapturing := isCapturing s; captureInterval := captureInterval s;
     screenshotCount := screenshotCount s; serverUrl := serverUrl s;
     serverConnected := serverConnected s; lastCaptureTime := lastCaptureTime s;
     captureTimer := captureTimer s; uploadQueue := uploadQueue s;
     settings := settings s; screenshots := v; heap := heap s;
     now := now s; intervals := intervals s; nextTimer := nextTimer s;
     fetches := fetches s; saves := saves s; trace := trace s;
     timeouts := timeouts s |}.

Definition set_heap (v : list Item) (s : State) : State :=
  {| isCapturing := isCapturing s; captureInterval := captureInterval s;
     screenshotCount := screenshotCount s; serverUrl := serverUrl s;
     serverConnected := serverConnected s; lastCaptureTime := lastCaptureTime s;
     captureTimer := captureTimer s; uploadQueue := uploadQueue s;
     settings := settings s; screenshots := screenshots s; heap := v;
     now := now s; intervals := intervals s; nextTimer := nextTimer s;
     fetches := fetches s; saves := saves s; trace := trace s;
     timeouts := timeouts s |}.

(** The platform side changes together: time, timers, counters, trace. *)
Definition set_platform (t : Z) (iv : list nat) (nt nf ns : nat)
    (tr : list Event) (s : State) : State :=
  {| isCapturing := isCapturing s; captureInterval := captureInterval s;
     screenshotCount := screenshotCount s; serverUrl := serverUrl s;
     serverConnected := serverConnected s; lastCaptureTime := lastCaptureTime s;
     captureTimer := captureTimer s; uploadQueue := uploadQueue s;
     settings := settings s; screenshots := screenshots s; heap := heap s;
     now := t; intervals := iv; nextTimer := nt;
     fetches := nf; saves := ns; trace := tr; timeouts := timeouts s |}.

Definition emit (e : Event) (s : State) : State :=
  set_platform (now s) (intervals s) (nextTimer s) (fetches s) (saves s)
    (trace s ++ [e]) s.

Definition set_timeouts (v : list (Z * Task)) (s : State) : State :=
  {| isCapturing := isCapturing s; captureInterval := captureInterval s;
     screenshotCount := screenshotCount s; serverUrl := serverUrl s;
     serverConnected := serverConnected s; lastCaptureTime := lastCaptureTime s;
     captureTimer := captureTimer s; uploadQueue := uploadQueue s;
     settings := settings s; screenshots := screenshots s; heap := heap s;
     now := now s; intervals := intervals s; nextTimer := nextTimer s;
     fetches := fetches s; saves := saves s; trace := trace s;
     timeouts := v |}.

(** [setTimeout(task, ms)]: the timer is pending until the event loop
    fires it, at its due time or later. *)
Definition addTimeout (t : Task) (ms : Z) (s : State) : State :=
  emit (EvSetTimeout t ms) (set_timeouts (timeouts s ++ [((now s + ms)%Z, t)]) s).

(** ** The platform oracle *)

Inductive FetchOutcome :=
| NetworkError
| HttpResponse (ok : bool) (status : nat) (jsonOk : bool).

Record Reply := { outcome : FetchOutcome; elapsed : nat }.

Record Env := {
  (** the answer to the k-th [fetch] and the time it takes *)
  fetchReply : nat -> Reply;
  (** whether the k-th [chrome.storage.local.set] succeeds *)
  storageOk : nat -> bool;
  (** ECMAScript StringToNumber, left abstract *)
  stringToNumber : string -> spec_float
}.

(** ** Computations *)

Inductive Res (A : Type) :=
| Ok (a : A)
| Throw (e : Error)
| OutOfFuel.
Arguments Ok {A} a.
Arguments Throw {A} e.
Arguments OutOfFuel {A}.

Definition M (A : Type) : Type := State -> State * Res A.

Definition ret {A} (a : A) : M A := fun s => (s, Ok a).

Definition bind {A B} (m : M A) (f : A -> M B) : M B :=
  fun s =>
    match m s with
    | (s', Ok a) => f a s'
    | (s', Throw e) => (s', Throw e)
    | (s', OutOfFuel) => (s', OutOfFuel)
    end.

Declare Scope M_scope.
Delimit Scope M_scope with M.
Bind Scope M_scope with M.
Notation "x ← y ; z" := (bind y (fun x => z))
  (at level 20, y at level 100, z at level 200, only parsing) : M_scope.
Notation "x ;; z" := (bind x (fun _ => z))
  (at level 100, z at level 200, only parsing, right associativity) : M_scope.
Local Open Scope M_scope.

Definition gets {A} (f : State -> A) : M A := fun s => (s, Ok (f s)).
Definition modify (f : State -> State) : M unit := fun s => (f s, Ok tt).
Definition throw {A} (e : Error) : M A := fun s => (s, Throw e).
Definition out_of_fuel {A} : M A := fun s => (s, OutOfFuel).

(** [try { body } catch (error) { handler }]: the state changes made by
    [body] before it throws are kept. *)
Definition try_catch {A} (body : M A) (handler : Error -> M A) : M A :=
  fun s =>
    match body s with
    | (s', Throw e) => handler e s'
    | r => r
    end.

(** A call that is not awaited: a rejection of its promise reaches nobody. *)
Definition unawaited (m : M unit) : M unit :=
  fun s =>
    match m s with
    | (s', Throw _) => (s', Ok tt)
    | r => r
    end.

(** [for (const x of xs) body(x)] *)
Fixpoint for_of {A} (xs : list A) (body : A -> M unit) : M unit :=
  match xs with
  | [] => ret tt
  | x :: xs' => body x ;; for_of xs' body
  end.

(** ** The coordinator *)

Section Coordinator.

Variable env : Env.

(** ECMAScript ToNumber on a possibly undefined value. *)
Definition ToNumber (v : option JsVal) : spec_float :=
  match v with
  | None => Num.nan
  | Some (JNum x) => x
  | Some (JBool b) => Num.of_Z (if b then 1 else 0)
  | Some (JStr s) => stringToNumber env s
  end.

(** [item.retryCount >= this.state.settings.maxRetries] *)
Definition reachedMax (rc : option nat) (mx : option JsVal) : bool :=
  match rc with
  | None => false
  | Some r => Num.geb (Num.of_Z (Z.of_nat r)) (ToNumber mx)
  end.

(** *** Platform calls *)

Definition dateNow : M Z := gets now.

Definition notifyPopup (n : Notification) : M unit := modify (emit (EvNotify n)).

Definition console (m : ConsoleMsg) : M unit := modify (emit (EvConsole m)).

Definition setTimeout (t : Task) (ms : Z) : M unit := modify (addTimeout t ms).

Definition fetch (request : Event) : M FetchOutcome :=
  fun s =>
    let rp := fetchReply env (fetches s) in
    (set_platform (now s + Z.of_nat (elapsed rp)) (intervals s) (nextTimer s)
       (S (fetches s)) (saves s) (trace s ++ [request]) s,
     Ok (outcome rp)).

Definition storageSet : M unit :=
  fun s =>
    let ok := storageOk env (saves s) in
    let s' := set_platform (now s) (intervals s) (nextTimer s) (fetches s)
                (S (saves s)) (trace s ++ [EvStorageSet (isCapturing s) ok]) s in
    if ok then (s', Ok tt) else (s', Throw StorageRejected).

Definition setInterval (period : JsVal) : M nat :=
  fun s =>
    let t := nextTimer s in
    (set_platform (now s) (intervals s ++ [t]) (S t) (fetches s) (saves s)
       (trace s ++ [EvSetInterval t period]) s,
     Ok t).

Definition clearInterval (t : nat) : M unit :=
  modify (fun s =>
    set_platform (now s) (List.filter (fun u => negb (Nat.eqb u t)) (intervals s))
      (nextTimer s) (fetches s) (saves s) (trace s ++ [EvClearInterval t]) s).

(** *** Objects *)

Definition alloc (it : Item) : M ref :=
  fun s => (set_heap (heap s ++ [it]) s, Ok (length (heap s))).

Definition read (r : ref) : M Item :=
  fun s =>
    match heap s !! r with
    | Some it => (s, Ok it)
    | None => (s, Throw TypeErrorUndefined)
    end.

Definition write (r : ref) (it : Item) : M unit :=
  modify (fun s => set_heap (<[r := it]> (heap s)) s).

Definition pushQueue (r : ref) : M unit :=
  modify (fun s => set_uploadQueue (uploadQueue s ++ [r]) s).

(** *** saveState *)

Definition saveState : M unit :=
  try_catch storageSet (fun _ => ret tt).

(** *** startCapture, stopCapture *)

Definition startCapture : M unit :=
  capturing ← gets isCapturing;
  if capturing then ret tt
  else
    try_catch
      (modify (set_isCapturing true) ;;
       saveState ;;
       period ← gets captureInterval;
       t ← setInterval period;
       modify (set_captureTimer (Some t)) ;;
       notifyPopup (StatusCapturing true))
      (fun e => modify (set_isCapturing false) ;; throw e).

Definition stopCapture : M unit :=
  capturing ← gets isCapturing;
  if negb capturing then ret tt
  else
    try_catch
      (modify (set_isCapturing false) ;;
       saveState ;;
       timer ← gets captureTimer;
       match timer with
       | Some t =>
           if negb (Nat.eqb t 0)
           then clearInterval t ;; modify (set_captureTimer None)
           else ret tt
       | None => ret tt
       end ;;
       notifyPopup (StatusCapturing false))
      (fun e => modify (set_isCapturing true) ;; throw e).

(** *** The upload pipeline *)

Definition uploadTarget (s : State) : string :=
  js_replace (serverUrl s) "/api" "" +:+ "/api/upload-screenshot".

Definition healthTarget (s : State) : string :=
  js_replace (serverUrl s) "/api" "" +:+ "/api/health".

(** [uploadScreenshot], open in the sweep it starts from its [catch]. *)
Definition uploadWith (retry : M unit) (r : ref) : M unit :=
  try_catch
    (connected ← gets serverConnected;
     if negb connected then pushQueue r
     else
       it ← read r;
       target ← gets uploadTarget;
       resp ← fetch (EvPost target (id it));
       match resp with
       | NetworkError => throw NetworkFailure
       | HttpResponse ok status jsonOk =>
           if negb ok then throw (ServerResponded status)
           else if negb jsonOk then throw InvalidJson
           else
             modify (set_serverConnected true) ;;
             notifyPopup (StatusServer true)
       end)
    (fun _ =>
       it ← read r;
       t ← dateNow;
       r' ← alloc (with_retry (Some 0) (Some t) it);
       pushQueue r' ;;
       modify (set_serverConnected false) ;;
       notifyPopup (StatusServer false) ;;
       unawaited retry).

(** *** The retry sweep *)

Definition backoffDelay (it : Item) : Z :=
  (2 ^ Z.of_nat (default 0%nat (retryCount it)) * 1000)%Z.

Definition eligible (t : Z) (it : Item) : bool :=
  (backoffDelay it <=? t - default 0%Z (lastRetry it))%Z.

Definition retryableItems (t : Z) (s : State) : list ref :=
  List.filter
    (fun r => match heap s !! r with Some it => eligible t it | None => false end)
    (uploadQueue s).

(** [uploadQueue.filter(q => q.id !== item.id)] *)
Definition dropById (sid : string) (s : State) : State :=
  set_uploadQueue
    (List.filter
       (fun q => match heap s !! q with
                 | Some it => negb (String.eqb (id it) sid)
                 | None => true
                 end)
       (uploadQueue s))
    s.

(** The body of the sweep's loop. *)
Definition retryItem (retry : M unit) (t : Z) (r : ref) : M unit :=
  it ← read r;
  mx ← gets (fun s => settings s !! "maxRetries");
  if reachedMax (retryCount it) mx then
    console (LogMaxRetries (id it)) ;;
    modify (dropById (id it))
  else
    let n := S (default 0 (retryCount it)) in
    write r (with_retry (Some n) (Some t) it) ;;
    console (LogRetrying (id it) n) ;;
    uploadWith retry r.

(** The body of [scheduleRetry], open in the sweep that an upload made by
    the loop starts from its [catch]. *)
Definition sweepWith (retry : M unit) : M unit :=
  (q ← gets uploadQueue;
   if 0 <? length q then
     t ← dateNow;
     items ← gets (retryableItems t);
     for_of items (retryItem retry t)
   else ret tt) ;;
  setTimeout TaskSweep 5000.

(** [scheduleRetry]; [fuel] bounds the nesting of sweeps. *)
Fixpoint scheduleRetryN (fuel : nat) : M unit :=
  match fuel with
  | O => out_of_fuel
  | S k => sweepWith (scheduleRetryN k)
  end.

Definition uploadScreenshot : ref -> M unit := uploadWith (scheduleRetryN 1).

Definition scheduleRetry : M unit := scheduleRetryN 2.

(** *** The connectivity probe *)

Definition processUploadQueue : M unit :=
  q ← gets uploadQueue;
  if length q =? 0 then ret tt
  else
    modify (set_uploadQueue []) ;;
    for_of q (fun r => try_catch (uploadScreenshot r) (fun _ => pushQueue r)).

Definition checkServerConnection : M unit :=
  try_catch
    (target ← gets healthTarget;
     resp ← fetch (EvGet target);
     match resp with
     | NetworkError => throw NetworkFailure
     | HttpResponse ok _ _ =>
         modify (set_serverConnected ok) ;;
         q ← gets uploadQueue;
         if ok && (0 <? length q) then unawaited processUploadQueue else ret tt
     end)
    (fun _ => modify (set_serverConnected false)) ;;
  connected ← gets serverConnected;
  notifyPopup (StatusServer connected) ;;
  setTimeout TaskProbe 30000.

(** *** The capture tick *)

Inductive TabResult :=
| TabsRejected
| NoTab
| ActiveTab (tabUrl : option string) (tabTitle : option string).

Inductive ShotResult :=
| ShotRejected
| ShotValue (d : option string).

(** What the platform answers during one tick: [chrome.tabs.query],
    [chrome.tabs.captureVisibleTab], and the characters drawn by
    [Math.random().toString(36).substr(2, 9)]. *)
Record TickInput := {
  activeTab : TabResult;
  visibleTab : ShotResult;
  random : string
}.

Definition generateScreenshotId (rnd : string) : M string :=
  t ← dateNow;
  ret ("screenshot_" +:+ pretty t +:+ "_" +:+ rnd).

Definition captureQuality (s : State) : spec_float :=
  Num.floor (Num.mul (ToNumber (settings s !! "quality")) (Num.of_Z 100)).

Definition processScreenshot (d : string) (u : string) (ti : option string)
    (rnd : string) : M unit :=
  sid ← generateScreenshotId rnd;
  t ← dateNow;
  q ← gets (fun s => settings s !! "quality");
  r ← alloc {| id := sid; timestamp := t; url := u; title := ti; dataUrl := d;
               size := String.length d; quality := q;
               retryCount := None; lastRetry := None |};
  uploadScreenshot r ;;
  shots ← gets screenshots;
  match shots with
  | None => modify (set_screenshots (Some []))
  | Some _ => ret tt
  end ;;
  shots ← gets (fun s => default [] (screenshots s));
  (if 10 <=? length shots
   then modify (set_screenshots (Some (tail shots)))
   else ret tt) ;;
  modify (fun s => set_screenshots (Some (default [] (screenshots s) ++ [r])) s).

Definition disallowedUrl (u : string) : bool :=
  String.prefix "chrome://" u || String.prefix "chrome-extension://" u.

Definition captureScreenshot (inp : TickInput) : M unit :=
  try_catch
    (match activeTab inp with
     | TabsRejected => throw TabsQueryRejected
     | NoTab => ret tt
     | ActiveTab None _ => ret tt
     | ActiveTab (Some u) ti =>
         if String.eqb u "" || disallowedUrl u then ret tt
         else
           q ← gets captureQuality;
           modify (emit (EvCaptureVisibleTab q)) ;;
           match visibleTab inp with
           | ShotRejected => throw CaptureRejected
           | ShotValue None => throw CaptureReturnedNull
           | ShotValue (Some d) =>
               if String.eqb d "" then throw CaptureReturnedNull
               else
                 processScreenshot d u ti (random inp) ;;
                 t ← dateNow;
                 modify (set_lastCaptureTime (Some t)) ;;
                 modify (fun s => set_screenshotCount (screenshotCount s + 1) s) ;;
                 saveState ;;
                 n ← gets screenshotCount;
                 notifyPopup (CaptureComplete t n u ti)
           end
     end)
    (fun e => notifyPopup (ErrorMessage e)).

(** *** updateSettings *)

(** [newSettings] is [message.settings]: an object, or [None] when the
    message carries none. *)
Definition updateSettings (newSettings : option (gmap string JsVal)) : M unit :=
  modify (fun s => set_settings (default ∅ newSettings ∪ settings s) s) ;;
  saveState ;;
  match newSettings with
  | None => throw TypeErrorUndefined
  | Some ns =>
      capturing ← gets isCapturing;
      if truthy (ns !! "captureInterval") && capturing then
        stopCapture ;;
        match ns !! "captureInterval" with
        | Some v => modify (set_captureInterval v)
        | None => ret tt
        end ;;
        startCapture
      else ret tt
  end.

(** *** The control surface *)

Inductive Message :=
| GetState
| StartCapture
| StopCapture
| UpdateSettings (newSettings : option (gmap string JsVal))
| GetSettings
| GetScreenshotStats
| OtherAction (action : string).

Inductive ResponseData :=
| StateData (capturing : bool) (count : Z) (serverStatus : bool) (lastUpdate : option Z)
| SettingsData (current : gmap string JsVal)
| StatsData (total : Z) (inMemory : nat) (queueSize : nat) (lastCapture : option Z)
    (capturing : bool) (connected : bool).

Inductive ResponseError :=
| UnknownAction
| MessageOf (e : Error).

Record Response := {
  success : bool;
  data : option ResponseData;
  error : option ResponseError
}.

Definition succeed (d : option ResponseData) : Response :=
  {| success := true; data := d; error := None |}.

Definition handleMessage (message : Message) : M Response :=
  try_catch
    (match message with
     | GetState =>
         s ← gets (fun s => s);
         ret (succeed (Some (StateData (isCapturing s) (screenshotCount s)
                               (serverConnected s) (lastCaptureTime s))))
     | StartCapture => startCapture ;; ret (succeed None)
     | StopCapture => stopCapture ;; ret (succeed None)
     | UpdateSettings ns => updateSettings ns ;; ret (succeed None)
     | GetSettings =>
         cur ← gets settings;
         ret (succeed (Some (SettingsData cur)))
     | GetScreenshotStats =>
         s ← gets (fun s => s);
         ret (succeed (Some (StatsData (screenshotCount s)
                               (length (default [] (screenshots s)))
                               (length (uploadQueue s)) (lastCaptureTime s)
                               (isCapturing s) (serverConnected s))))
     | OtherAction _ =>
         ret {| success := false; data := None; error := Some UnknownAction |}
     end)
    (fun e => ret {| success := false; data := None; error := Some (MessageOf e) |}).

(** *** loadState, init *)

(** What [chrome.storage.local.get] finds under the five keys. *)
Record Stored := {
  st_isCapturing : option bool;
  st_captureInterval : option JsVal;
  st_screenshotCount : option Z;
  st_serverUrl : option string;
  st_settings : option (gmap string JsVal)
}.

(** [{ ...this.state, ...result }] *)
Definition restore (r : Stored) (s : State) : State :=
  set_isCapturing (default (isCapturing s) (st_isCapturing r))
    (set_captureInterval (default (captureInterval s) (st_captureInterval r))
       (set_screenshotCount (default (screenshotCount s) (st_screenshotCount r))
          (set_serverUrl (default (serverUrl s) (st_serverUrl r))
             (set_settings (default (settings s) (st_settings r)) s)))).

(** [result] is [None] when the storage rejects the read. *)
Definition loadState (result : option Stored) : M unit :=
  try_catch
    (match result with
     | None => throw StorageRejected
     | Some r => modify (restore r)
     end)
    (fun _ => ret tt).

Definition init (result : option Stored) : M unit :=
  loadState result ;;
  unawaited checkServerConnection.

End Coordinator.

(** The state built by the constructor. *)
Definition defaultSettings : gmap string JsVal :=
  <["quality" := JNum (Num.div (Num.of_Z 8) (Num.of_Z 10))]>
    (<["maxRetries" := JNum (Num.of_Z 3)]>
       (<["enableNotifications" := JBool true]> ∅)).

Definition initialState : State :=
  {| isCapturing := false;
     captureInterval := JNum (Num.of_Z 1500);
     screenshotCount := 0;
     serverUrl := "https://emr-assistant-functions.azurewebsites.net/api";
     serverConnected := false;
     lastCaptureTime := None;
     captureTimer := None;
     uploadQueue := [];
     settings := defaultSettings;
     screenshots := None;
     heap := [];
     now := 0;
     intervals := [];
     nextTimer := 1;
     fetches := 0;
     saves := 0;
     trace := [];
     timeouts := [] |}.

(** * Runs, observations and invariants *)

(** ** Runs *)

(** The event loop starts an activation at time [t]. *)
Definition advanceTo (t : Z) (s : State) : State :=
  set_platform (Z.max (now s) t) (intervals s) (nextTimer s) (fetches s)
    (saves s) (trace s) s.

Definition task_eqb (a b : Task) : bool :=
  match a, b with
  | TaskSweep, TaskSweep | TaskProbe, TaskProbe => true
  | _, _ => false
  end.

(** The pending timeouts once the first one for [task] that is due at [t]
    has fired; [None] if there is none. *)
Fixpoint fire (task : Task) (t : Z) (l : list (Z * Task)) : option (list (Z * Task)) :=
  match l with
  | [] => None
  | p :: rest =>
      if task_eqb (snd p) task && (fst p <=? t)%Z then Some rest
      else cons p <$> fire task t rest
  end.

Definition runTask (env : Env) (task : Task) : M unit :=
  match task with
  | TaskSweep => scheduleRetry env
  | TaskProbe => checkServerConnection env
  end.

(** What the event loop dispatches: a message of the popup or the options
    page, a tick of the capture timer, a timeout. *)
Inductive Activation :=
| OnMessage (m : Message)
| OnCaptureTick (inp : TickInput)
| OnTimeout (task : Task).

(** A tick needs an interval timer and a timeout needs a pending timer
    that is due; without one the activation does not happen. *)
Definition activate (env : Env) (s : State) (a : Z * Activation) : State :=
  match snd a with
  | OnMessage m => fst (handleMessage env m (advanceTo (fst a) s))
  | OnCaptureTick inp =>
      match intervals s with
      | [] => s
      | _ :: _ => fst (captureScreenshot env inp (advanceTo (fst a) s))
      end
  | OnTimeout task =>
      match fire task (fst a) (timeouts s) with
      | None => s
      | Some rest =>
          fst (runTask env task (advanceTo (fst a) (set_timeouts rest s)))
      end
  end.

Definition run (env : Env) (schedule : list (Z * Activation)) (s : State) : State :=
  fold_left (activate env) schedule s.

(** The extension starts: the constructor, then [init]. *)
Definition boot (env : Env) (stored : option Stored) : State :=
  fst (init env stored initialState).

(** Nothing is stored yet. *)
Definition noStored : Stored :=
  {| st_isCapturing := None; st_captureInterval := None;
     st_screenshotCount := None; st_serverUrl := None; st_settings := None |}.

Inductive Toggle := Start | Stop.

Definition toggleMessage (tg : Toggle) : Message :=
  match tg with
  | Start => StartCapture
  | Stop => StopCapture
  end.

Definition toggle (env : Env) (tg : Toggle) (s : State) : State :=
  fst (handleMessage env (toggleMessage tg) s).

Definition runToggles (env : Env) (calls : list Toggle) (s : State) : State :=
  fold_left (fun s tg => toggle env tg s) calls s.

(** The toggle passes the guard of its handler. *)
Definition takesEffect (tg : Toggle) (s : State) : bool :=
  match tg with
  | Start => negb (isCapturing s)
  | Stop => isCapturing s
  end.

(** A run of toggles that remembers the last one that took effect. *)
Definition toggleTracking (env : Env) (p : State * option Toggle) (tg : Toggle)
    : State * option Toggle :=
  (toggle env tg (fst p), if takesEffect tg (fst p) then Some tg else snd p).

Definition lastEffective (env : Env) (calls : list Toggle) (s : State) : option Toggle :=
  snd (fold_left (toggleTracking env) calls (s, None)).

Definition tick (env : Env) (s : State) (inp : TickInput) : State :=
  fst (captureScreenshot env inp s).

Definition runTicks (env : Env) (inps : list TickInput) (s : State) : State :=
  fold_left (tick env) inps s.


(** ** The capture timer *)

(** The capture timer is armed: the handle kept in [captureTimer] is an
    active interval timer of the platform. *)
Definition timerArmed (s : State) : Prop :=
  exists t, captureTimer s = Some t /\ In t (intervals s).

(** No capture timer yet, as when the extension starts; timer handles are
    positive. *)
Definition unarmed (s : State) : Prop :=
  captureTimer s = None /\ intervals s = [] /\ 0 < nextTimer s.

(** The timer handle and the platform's timers agree, and a timer runs
    only while the capturing flag is set. *)
Definition tracked (s : State) : Prop :=
  0 < nextTimer s /\
  ((captureTimer s = None /\ intervals s = []) \/
   (isCapturing s = true /\
    exists t, 0 < t /\ captureTimer s = Some t /\ intervals s = [t])).

(** ** Capture ticks and the ring *)

(** The tick reaches the screenshot primitive: there is an active tab with
    a URL outside the two browser-internal schemes. *)
Definition capturable (inp : TickInput) : Prop :=
  exists u ti, activeTab inp = ActiveTab (Some u) ti /\
               String.eqb u "" = false /\ disallowedUrl u = false.

(** A tick that produces a Capture. *)
Definition successfulTick (inp : TickInput) : Prop :=
  capturable inp /\
  exists d, visibleTab inp = ShotValue (Some d) /\ String.eqb d "" = false.

Definition isCaptureCall (e : Event) : bool :=
  match e with
  | EvCaptureVisibleTab _ => true
  | _ => false
  end.

(** The ring of recent screenshots. *)
Definition ring (s : State) : list ref := default [] (screenshots s).

Definition evict (l : list ref) : list ref :=
  if 10 <=? length l then tail l else l.


Definition idAt (s : State) (r : ref) : option string := id <$> heap s !! r.

(** ** Uploads, sweeps and drains *)

(** The reply makes the upload succeed: status 2xx with a JSON body. *)
Definition replySucceeds (rp : Reply) : bool :=
  match outcome rp with
  | HttpResponse true _ true => true
  | _ => false
  end.

(** The state in which the POST of an object has been answered. *)
Definition posted (env : Env) (sid : string) (s : State) : State :=
  fst (fetch env (EvPost (uploadTarget s) sid) s).

(** What the [catch] of [uploadScreenshot] does before it starts a sweep. *)
Definition requeued (it : Item) (s : State) : State :=
  emit (EvNotify (StatusServer false))
    (set_serverConnected false
       (set_uploadQueue (uploadQueue s ++ [length (heap s)])
          (set_heap (heap s ++ [with_retry (Some 0) (Some (now s)) it]) s))).

(** The retry step of the sweep on an object within its budget. *)
Definition retried (t : Z) (it : Item) : Item :=
  with_retry (Some (S (default 0 (retryCount it)))) (Some t) it.

(** The state in which the health probe has been answered. *)
Definition probed (env : Env) (s : State) : State :=
  fst (fetch env (EvGet (healthTarget s)) s).

(** The loop of [processUploadQueue]. *)
Definition drainLoop (env : Env) (q : list ref) : M unit :=
  for_of q (fun r => try_catch (uploadScreenshot env r) (fun _ => pushQueue r)).

(** The number of consecutive upload replies that succeed, starting with
    the [k]-th fetch, among at most [m]. *)
Fixpoint leadingOk (env : Env) (k m : nat) : nat :=
  match m with
  | O => 0
  | S m' =>
      if replySucceeds (fetchReply env k) then S (leadingOk env (S k) m') else 0
  end.

(** The ids of the screenshots POSTed, in order. *)
Definition posts (tr : list Event) : list string :=
  flat_map (fun e => match e with EvPost _ sid => [sid] | _ => [] end) tr.

(** The retries the sweep has announced for a screenshot id. *)
Definition retriesOf (sid : string) (tr : list Event) : nat :=
  length
    (List.filter
       (fun e => match e with
                 | EvConsole (LogRetrying x _) => String.eqb x sid
                 | _ => false
                 end)
       tr).

(** Events that stay inside the extension. *)
Definition isLocal (e : Event) : bool :=
  match e with
  | EvConsole _ | EvSetTimeout _ _ => true
  | _ => false
  end.

(** ** Relations between the state before and after a computation *)

(** Whatever its result, [m] takes a state to an [R]-related one. *)
Definition preserves {A} (R : State -> State -> Prop) (m : M A) : Prop :=
  forall s, R s (fst (m s)).

(** The computation leaves field [f] as it is. *)
Definition same {A} (f : State -> A) (s s' : State) : Prop := f s' = f s.

(** What the platform and the coordinator know of the capture timer. *)
Definition captureTimers (s : State) : option nat * list nat * nat :=
  (captureTimer s, intervals s, nextTimer s).

(** The part of the state the upload machinery works on. *)
Definition core (s : State) : list ref * list Item * bool :=
  (uploadQueue s, heap s, serverConnected s).

(** The trace is extended, never rewritten; the events added are not calls
    of the screenshot primitive; no fetch is forgotten. *)
Definition grows (s s' : State) : Prop :=
  (exists l, trace s' = trace s ++ l /\
             Forall (fun e => isCaptureCall e = false) l) /\
  fetches s <= fetches s'.

(** Objects are never freed. *)
Definition heapGrows (s s' : State) : Prop := length (heap s) <= length (heap s').


(** What a step made while the server is not connected may do: no fetch,
    no new object, only console lines and timers. *)
Definition quiet (s s' : State) : Prop :=
  serverConnected s' = false /\
  fetches s' = fetches s /\
  now s' = now s /\
  length (heap s') = length (heap s) /\
  settings s' = settings s /\
  exists l, trace s' = trace s ++ l /\ Forall (fun e => isLocal e = true) l.

(** The queue holds existing objects, and holds some only while the server
    is not connected. *)
Definition queueWaitsOffline (s : State) : Prop :=
  Forall (fun r => r < length (heap s)) (uploadQueue s) /\
  (uploadQueue s <> [] -> serverConnected s = false).

(** ** Platforms, inputs and states of the examples *)

(** A platform whose storage rejects every write. *)
Definition envStorageDown : Env :=
  {| fetchReply := fun _ => {| outcome := NetworkError; elapsed := 0 |};
     storageOk := fun _ => false;
     stringToNumber := fun _ => Num.nan |}.

(** A platform without network, storage working. *)
Definition envOffline : Env :=
  {| fetchReply := fun _ => {| outcome := NetworkError; elapsed := 0 |};
     storageOk := fun _ => true;
     stringToNumber := fun _ => Num.nan |}.

(** A platform whose server answers the first request and fails after. *)
Definition envOneAnswer : Env :=
  {| fetchReply := fun k =>
       {| outcome := match k with
                     | O => HttpResponse true 200 true
                     | S _ => NetworkError
                     end;
          elapsed := 0 |};
     storageOk := fun _ => true;
     stringToNumber := fun _ => Num.nan |}.

(** A platform whose server answers the requests numbered 0 and 2 and no
    other. *)
Definition envFlaky : Env :=
  {| fetchReply := fun k =>
       {| outcome := match k with
                     | 0 | 2 => HttpResponse true 200 true
                     | _ => NetworkError
                     end;
          elapsed := 0 |};
     storageOk := fun _ => true;
     stringToNumber := fun _ => Num.nan |}.

(** A tick that finds a page and gets a screenshot of it. *)
Definition goodTick (rnd : string) : TickInput :=
  {| activeTab := ActiveTab (Some "https://emr.example.org/chart") (Some "Chart");
     visibleTab := ShotValue (Some "data:image/png;base64,iVBORw0KGgo=");
     random := rnd |}.


(** 0.6875, a quality the options page accepts, exact in binary. *)
Definition quality_11_16 : spec_float := Num.div (Num.of_Z 11) (Num.of_Z 16).

Definition stateWithQuality (q : spec_float) : State :=
  set_settings (<["quality" := JNum q]> defaultSettings) initialState.

(** A screenshot object with the given id and retry fields. *)
Definition itemNamed (sid : string) (rc : option nat) (lr : option Z) : Item :=
  {| id := sid; timestamp := 0; url := "https://emr.example.org/chart";
     title := Some "Chart"; dataUrl := "data:image/png;base64,iVBORw0KGgo=";
     size := 34; quality := Some (JNum (Num.div (Num.of_Z 8) (Num.of_Z 10)));
     retryCount := rc; lastRetry := lr |}.

Definition itemA : option nat -> option Z -> Item := itemNamed "a".

(** The coordinator at time [t] with the given objects, queue, connectivity
    flag and settings.maxRetries, everything else as after construction. *)
Definition queuedState (connected : bool) (t : Z) (objs : list Item)
    (q : list ref) (maxRetries : Z) : State :=
  set_platform t [] 1 0 0 []
    (set_heap objs
       (set_uploadQueue q
          (set_serverConnected connected
             (set_settings
                (<["maxRetries" := JNum (Num.of_Z maxRetries)]> defaultSettings)
                initialState)))).

(** After a start that found the server: maxRetries is set to 1; capture
    is switched on, one tick captures a page and its upload fails, capture
    is switched off; the sweep armed by the failure retries the object; the
    probe armed at the start finds the server and drains the queue, the
    upload fails again; the sweep armed by the first sweep runs. *)
Definition budgetSchedule : list (Z * Activation) :=
  [ (10%Z, OnMessage (UpdateSettings (Some {["maxRetries" := JNum (Num.of_Z 1)]})));
    (20500%Z, OnMessage StartCapture);
    (22000%Z, OnCaptureTick (goodTick "k3j9x0q2a"));
    (22100%Z, OnMessage StopCapture);
    (27000%Z, OnTimeout TaskSweep);
    (30000%Z, OnTimeout TaskProbe);
    (32000%Z, OnTimeout TaskSweep) ].

(** * The rest of the coordinator, and its callers *)

(** ** The control surface *)

(** The requests [handleMessage] answers with [success: false]: an action
    it does not know, and updateSettings without a settings object. *)
Definition rejected (m : Message) : bool :=
  match m with
  | OtherAction _ | UpdateSettings None => true
  | _ => false
  end.

(** What no request touches: the upload queue, the objects, the ring, the
    counters of the capture tick, the server flag and endpoint, the
    network and the timeouts. *)
Definition beyondControl (s : State)
    : list ref * list Item * option (list ref) * Z * option Z * bool * string
      * nat * list (Z * Task) * Z :=
  (uploadQueue s, heap s, screenshots s, screenshotCount s, lastCaptureTime s,
   serverConnected s, serverUrl s, fetches s, timeouts s, now s).

(** ** The capture tick *)

(** The tick finds nothing it may capture: no active tab, a tab without
    URL, or a browser-internal page. *)
Definition skipsTab (tab : TabResult) : bool :=
  match tab with
  | TabsRejected => false
  | NoTab => true
  | ActiveTab None _ => true
  | ActiveTab (Some u) _ => String.eqb u "" || disallowedUrl u
  end.

(** The tick gets a screenshot from the platform. *)
Definition takesShot (inp : TickInput) : bool :=
  match activeTab inp, visibleTab inp with
  | ActiveTab (Some u) _, ShotValue (Some d) =>
      negb (String.eqb u "" || disallowedUrl u) && negb (String.eqb d "")
  | _, _ => false
  end.

(** What the upload machinery (pipeline, sweep, drain, probe) never
    touches, the ring apart. *)
Definition beyondUpload (s : State)
    : bool * JsVal * Z * string * option Z * option nat * gmap string JsVal
      * list nat * nat * nat :=
  (isCapturing s, captureInterval s, screenshotCount s, serverUrl s,
   lastCaptureTime s, captureTimer s, settings s, intervals s, nextTimer s,
   saves s).

(** ** Persistence *)

(** The object [saveState] hands to [chrome.storage.local.set]. *)
Definition savedState (s : State) : Stored :=
  {| st_isCapturing := Some (isCapturing s);
     st_captureInterval := Some (captureInterval s);
     st_screenshotCount := Some (screenshotCount s);
     st_serverUrl := Some (serverUrl s);
     st_settings := Some (settings s) |}.

(** What [this.state] holds besides the persisted keys. *)
Definition inMemory (s : State)
    : option Z * option nat * list ref * option (list ref) * list Item * list nat :=
  (lastCaptureTime s, captureTimer s, uploadQueue s, screenshots s, heap s,
   intervals s).

(** ** Timers *)

(** The number of pending timeouts for [task]. *)
Definition pending (task : Task) (s : State) : nat :=
  length (List.filter (fun p => task_eqb (snd p) task) (timeouts s)).

(** No timeout is ever cancelled. *)
Definition keepsTimeouts (task : Task) (s s' : State) : Prop :=
  pending task s <= pending task s'.

(** ** The options page (src/extension/options/options.js) *)

(** The settings object [saveSettings] collects from the form: the numbers
    as [parseFloat] and [parseInt] return them, the URL trimmed. *)
Record FormSettings := {
  f_captureInterval : spec_float;
  f_quality : spec_float;
  f_serverUrl : string;
  f_maxRetries : spec_float;
  f_enableNotifications : bool;
  f_enableSound : bool;
  f_enableAnalytics : bool;
  f_enableDebug : bool
}.

(** [x < y] on numbers: false as soon as one side is NaN. *)
Definition jsLt (x y : spec_float) : bool := SFltb x y.

(** The four messages of [validateSettings]. *)
Inductive FormError :=
| IntervalOutOfRange
| QualityOutOfRange
| InvalidServerUrl
| RetriesOutOfRange.

(** [validateSettings]: [None] when it returns true, the message it shows
    when it returns false.  [isValidUrl] is the platform's [new URL]. *)
Definition validateSettings (isValidUrl : string -> bool) (st : FormSettings)
    : option FormError :=
  if jsLt (f_captureInterval st) (Num.of_Z 1)
     || jsLt (Num.of_Z 60) (f_captureInterval st)
  then Some IntervalOutOfRange
  else if jsLt (f_quality st) (Num.div (Num.of_Z 1) (Num.of_Z 10))
          || jsLt (Num.of_Z 1) (f_quality st)
  then Some QualityOutOfRange
  else if negb (isValidUrl (f_serverUrl st))
  then Some InvalidServerUrl
  else if jsLt (f_maxRetries st) (Num.of_Z 1)
          || jsLt (Num.of_Z 10) (f_maxRetries st)
  then Some RetriesOutOfRange
  else None.

Definition settingsObject (st : FormSettings) : gmap string JsVal :=
  <["captureInterval" := JNum (f_captureInterval st)]>
    (<["quality" := JNum (f_quality st)]>
       (<["serverUrl" := JStr (f_serverUrl st)]>
          (<["maxRetries" := JNum (f_maxRetries st)]>
             (<["enableNotifications" := JBool (f_enableNotifications st)]>
                (<["enableSound" := JBool (f_enableSound st)]>
                   (<["enableAnalytics" := JBool (f_enableAnalytics st)]>
                      (<["enableDebug" := JBool (f_enableDebug st)]> ∅))))))).

(** [saveSettings]: the request sent to the coordinator, if the form is
    accepted.  A message is serialised as JSON on its way, which keeps a
    number that is not NaN or infinite. *)
Definition saveSettings (isValidUrl : string -> bool) (st : FormSettings)
    : option Message :=
  match validateSettings isValidUrl st with
  | None => Some (UpdateSettings (Some (settingsObject st)))
  | Some _ => None
  end.

(** The number is in the closed range, or is NaN. *)
Definition withinOrNaN (lo hi x : spec_float) : Prop :=
  x = S754_nan \/ (Num.geb x lo = true /\ Num.geb hi x = true).

(** What [loadSettings] puts into the form. *)
Record FormView := {
  v_captureInterval : JsVal;
  v_quality : JsVal;
  v_serverUrl : JsVal;
  v_maxRetries : JsVal;
  v_enableNotifications : bool;
  v_enableSound : bool;
  v_enableAnalytics : bool;
  v_enableDebug : bool
}.

(** [defaultSettings] of the options page. *)
Definition optionDefaults : FormView :=
  {| v_captureInterval := JNum (Num.div (Num.of_Z 15) (Num.of_Z 10));
     v_quality := JNum (Num.div (Num.of_Z 8) (Num.of_Z 10));
     v_serverUrl := JStr "https://your-server.com/api";
     v_maxRetries := JNum (Num.of_Z 3);
     v_enableNotifications := true;
     v_enableSound := false;
     v_enableAnalytics := true;
     v_enableDebug := false |}.

(** [v || d] *)
Definition orElse (v : option JsVal) (d : JsVal) : JsVal :=
  match v with
  | Some x => if truthy v then x else d
  | None => d
  end.

(** [v !== false] *)
Definition notFalse (v : option JsVal) : bool :=
  match v with
  | Some (JBool false) => false
  | _ => true
  end.

(** [loadSettings], given the answer to getSettings ([None]: the request
    was rejected). *)
Definition loadSettings (response : option Response) : FormView :=
  match response with
  | Some r =>
      if success r then
        match data r with
        | Some (SettingsData cur) =>
            {| v_captureInterval :=
                 orElse (cur !! "captureInterval") (v_captureInterval optionDefaults);
               v_quality := orElse (cur !! "quality") (v_quality optionDefaults);
               v_serverUrl := orElse (cur !! "serverUrl") (v_serverUrl optionDefaults);
               v_maxRetries := orElse (cur !! "maxRetries") (v_maxRetries optionDefaults);
               v_enableNotifications := notFalse (cur !! "enableNotifications");
               v_enableSound := truthy (cur !! "enableSound");
               v_enableAnalytics := notFalse (cur !! "enableAnalytics");
               v_enableDebug := truthy (cur !! "enableDebug") |}
        | _ => optionDefaults
        end
      else optionDefaults
  | None => optionDefaults
  end.

(** The form as it shows the settings [st]. *)
Definition viewOf (st : FormSettings) : FormView :=
  {| v_captureInterval := JNum (f_captureInterval st);
     v_quality := JNum (f_quality st);
     v_serverUrl := JStr (f_serverUrl st);
     v_maxRetries := JNum (f_maxRetries st);
     v_enableNotifications := f_enableNotifications st;
     v_enableSound := f_enableSound st;
     v_enableAnalytics := f_enableAnalytics st;
     v_enableDebug := f_enableDebug st |}.

(** A form the options page accepts. *)
Definition formExample : FormSettings :=
  {| f_captureInterval := Num.of_Z 2;
     f_quality := Num.of_Z 1;
     f_serverUrl := "https://emr.example.org/api";
     f_maxRetries := Num.of_Z 3;
     f_enableNotifications := true;
     f_enableSound := false;
     f_enableAnalytics := true;
     f_enableDebug := false |}.

(** ** The popup (src/extension/popup/popup.js) *)

Record LastCapture := {
  lc_timestamp : Z;
  lc_url : string;
  lc_title : option string
}.

(** [this.state] of the popup; 'connected' is [true].  The keys after
    [p_lastUpdate] are absent until an answer or a notification brings
    them. *)
Record PopupState := {
  p_isCapturing : bool;
  p_screenshotCount : Z;
  p_serverStatus : bool;
  p_lastUpdate : option Z;
  p_totalScreenshots : option Z;
  p_screenshotsInMemory : option nat;
  p_uploadQueueSize : option nat;
  p_lastCaptureTime : option Z;
  p_serverConnected : option bool;
  p_lastCapture : option LastCapture
}.

(** The state built by the popup's constructor. *)
Definition popupInitial : PopupState :=
  {| p_isCapturing := false; p_screenshotCount := 0; p_serverStatus := true;
     p_lastUpdate := None; p_totalScreenshots := None;
     p_screenshotsInMemory := None; p_uploadQueueSize := None;
     p_lastCaptureTime := None; p_serverConnected := None;
     p_lastCapture := None |}.

(** [if (response.success) this.state = { ...this.state, ...response.data }] *)
Definition mergeResponse (r : Response) (p : PopupState) : PopupState :=
  if success r then
    match data r with
    | Some (StateData capturing count status lastUpdate) =>
        {| p_isCapturing := capturing; p_screenshotCount := count;
           p_serverStatus := status; p_lastUpdate := lastUpdate;
           p_totalScreenshots := p_totalScreenshots p;
           p_screenshotsInMemory := p_screenshotsInMemory p;
           p_uploadQueueSize := p_uploadQueueSize p;
           p_lastCaptureTime := p_lastCaptureTime p;
           p_serverConnected := p_serverConnected p;
           p_lastCapture := p_lastCapture p |}
    | Some (StatsData total inMemory queueSize lastCapture capturing connected) =>
        {| p_isCapturing := capturing; p_screenshotCount := p_screenshotCount p;
           p_serverStatus := p_serverStatus p; p_lastUpdate := p_lastUpdate p;
           p_totalScreenshots := Some total;
           p_screenshotsInMemory := Some inMemory;
           p_uploadQueueSize := Some queueSize;
           p_lastCaptureTime := lastCapture;
           p_serverConnected := Some connected;
           p_lastCapture := p_lastCapture p |}
    | Some (SettingsData _) => p
    | None => p
    end
  else p.

(** The popup's [loadState], the two requests answered by the coordinator
    in state [s]. *)
Definition popupLoad (env : Env) (s : State) (p : PopupState) : PopupState :=
  match snd (handleMessage env GetState s) with
  | Ok r1 =>
      match snd (handleMessage env GetScreenshotStats s) with
      | Ok r2 => mergeResponse r2 (mergeResponse r1 p)
      | _ => mergeResponse r1 p
      end
  | _ => p
  end.

(** The request [toggleCapture] sends. *)
Definition toggleAction (p : PopupState) : Message :=
  if p_isCapturing p then StopCapture else StartCapture.

(** The popup's [handleMessage]. *)
Definition popupHandle (n : Notification) (p : PopupState) : PopupState :=
  match n with
  | StatusCapturing capturing =>
      {| p_isCapturing := capturing; p_screenshotCount := p_screenshotCount p;
         p_serverStatus := p_serverStatus p; p_lastUpdate := p_lastUpdate p;
         p_totalScreenshots := p_totalScreenshots p;
         p_screenshotsInMemory := p_screenshotsInMemory p;
         p_uploadQueueSize := p_uploadQueueSize p;
         p_lastCaptureTime := p_lastCaptureTime p;
         p_serverConnected := p_serverConnected p;
         p_lastCapture := p_lastCapture p |}
  | StatusServer connected =>
      {| p_isCapturing := p_isCapturing p; p_screenshotCount := p_screenshotCount p;
         p_serverStatus := connected; p_lastUpdate := p_lastUpdate p;
         p_totalScreenshots := p_totalScreenshots p;
         p_screenshotsInMemory := p_screenshotsInMemory p;
         p_uploadQueueSize := p_uploadQueueSize p;
         p_lastCaptureTime := p_lastCaptureTime p;
         p_serverConnected := p_serverConnected p;
         p_lastCapture := p_lastCapture p |}
  | CaptureComplete t count u ti =>
      {| p_isCapturing := p_isCapturing p;
         p_screenshotCount :=
           (if (count =? 0)%Z
            then (if (p_screenshotCount p =? 0)%Z then 0 else p_screenshotCount p) + 1
            else count)%Z;
         p_serverStatus := p_serverStatus p; p_lastUpdate := p_lastUpdate p;
         p_totalScreenshots := p_totalScreenshots p;
         p_screenshotsInMemory := p_screenshotsInMemory p;
         p_uploadQueueSize := p_uploadQueueSize p;
         p_lastCaptureTime := p_lastCaptureTime p;
         p_serverConnected := p_serverConnected p;
         p_lastCapture :=
           Some {| lc_timestamp := t; lc_url := u; lc_title := ti |} |}
  | ErrorMessage _ => p
  end.

(** The popup after the notifications among the events [l]. *)
Definition popupFeed (l : list Event) (p : PopupState) : PopupState :=
  fold_left
    (fun p e => match e with EvNotify n => popupHandle n p | _ => p end) l p.

(** The popup shows the coordinator's capturing flag, screenshot count and
    server status. *)
Definition mirror (p : PopupState) (s : State) : Prop :=
  p_isCapturing p = isCapturing s /\
  p_screenshotCount p = screenshotCount s /\
  p_serverStatus p = serverConnected s.

(** What the computation tells the popup keeps the popup right. *)
Definition synced (s s' : State) : Prop :=
  exists l, trace s' = trace s ++ l /\
            forall p, mirror p s -> mirror (popupFeed l p) s'.

(** What [getScreenshotStats] brought, which no notification updates. *)
Definition statsShown (p : PopupState)
    : option Z * option nat * option nat * option Z * option bool :=
  (p_totalScreenshots p, p_screenshotsInMemory p, p_uploadQueueSize p,
   p_lastCaptureTime p, p_serverConnected p).

(** ** The probe, the ids, the endpoints *)

(** [response.ok] of the answer to the health request, false when the
    request itself fails. *)
Definition healthy (rp : FetchOutcome) : bool :=
  match rp with
  | HttpResponse ok _ _ => ok
  | NetworkError => false
  end.

(** The character does not occur in the string. *)
Fixpoint lacks (c : ascii) (s : string) : bool :=
  match s with
  | EmptyString => true
  | String a s' => negb (Ascii.eqb a c) && lacks c s'
  end.

(** ** The sweep seen from the console *)






(** ** A server that goes away, a restart while capturing *)

(** After a start that found the server, capture is switched on; the first
    tick captures a page and its upload fails; the second tick captures a
    page while the server is marked unreachable; capture is switched off;
    the sweep timer armed by the failure fires, then the timers armed by
    the sweeps, every five seconds. *)
Definition outageSchedule : list (Z * Activation) :=
  [ (1000%Z, OnMessage StartCapture);
    (2500%Z, OnCaptureTick (goodTick "k3j9x0q2a"));
    (4000%Z, OnCaptureTick (goodTick "m4n5b6v7c"));
    (4100%Z, OnMessage StopCapture);
    (7500%Z, OnTimeout TaskSweep);
    (12500%Z, OnTimeout TaskSweep);
    (17500%Z, OnTimeout TaskSweep);
    (22500%Z, OnTimeout TaskSweep) ].

(** The console lines of a trace. *)
Definition consoleLines (tr : list Event) : list ConsoleMsg :=
  omap (fun e => match e with EvConsole m => Some m | _ => None end) tr.

(** A first session in which capture is switched on and left on. *)
Definition capturingSession : State :=
  run envOneAnswer [(1000%Z, OnMessage StartCapture)]
    (boot envOneAnswer (Some noStored)).

(** * Properties *)

(** Unfolding of the monadic combinators on a given state. *)
Ltac mstep :=
  cbv beta iota delta
    [bind ret gets modify throw out_of_fuel try_catch unawaited
     dateNow notifyPopup console setTimeout saveState storageSet
     setInterval clearInterval alloc read write pushQueue];
  cbn [fst snd negb andb orb Nat.eqb isCapturing captureInterval screenshotCount
       serverUrl serverConnected lastCaptureTime captureTimer uploadQueue
       settings screenshots heap now intervals nextTimer fetches saves trace
       set_isCapturing set_captureInterval set_screenshotCount
       set_serverConnected set_lastCaptureTime set_captureTimer
       set_uploadQueue set_settings set_screenshots set_heap set_platform
       emit timeouts set_timeouts addTimeout set_serverUrl].

(** ** The capture toggle *)

Lemma startCapture_noop env s :
  isCapturing s = true -> startCapture env s = (s, Ok tt).
Proof. intros H. unfold startCapture. mstep. now rewrite H. Qed.

Lemma stopCapture_noop env s :
  isCapturing s = false -> stopCapture env s = (s, Ok tt).
Proof. intros H. unfold stopCapture. mstep. now rewrite H. Qed.

(** What [startCapture] does from a state that is not capturing, whatever
    the storage answers. *)
Lemma startCapture_arms env s :
  isCapturing s = false ->
  snd (startCapture env s) = Ok tt /\
  isCapturing (fst (startCapture env s)) = true /\
  captureTimer (fst (startCapture env s)) = Some (nextTimer s) /\
  intervals (fst (startCapture env s)) = intervals s ++ [nextTimer s] /\
  nextTimer (fst (startCapture env s)) = S (nextTimer s).
Proof.
  intros H. unfold startCapture. mstep. rewrite H. mstep.
  destruct (storageOk env (saves s)); mstep; auto.
Qed.

Lemma stopCapture_disarms env s t :
  isCapturing s = true -> captureTimer s = Some t -> 0 < t ->
  snd (stopCapture env s) = Ok tt /\
  isCapturing (fst (stopCapture env s)) = false /\
  captureTimer (fst (stopCapture env s)) = None /\
  intervals (fst (stopCapture env s)) =
    List.filter (fun u => negb (Nat.eqb u t)) (intervals s) /\
  nextTimer (fst (stopCapture env s)) = nextTimer s.
Proof.
  intros H Ht Hpos. unfold stopCapture. mstep. rewrite H. mstep.
  destruct (storageOk env (saves s)); mstep; rewrite Ht;
    (destruct t as [|t']; [lia|]); mstep; auto.
Qed.

Lemma handle_toggle_state env tg s :
  toggle env tg s =
  fst (match tg with Start => startCapture env s | Stop => stopCapture env s end).
Proof.
  unfold toggle, handleMessage. destruct tg; cbn [toggleMessage]; mstep.
  - destruct (startCapture env s) as [s' [[]|e|]]; reflexivity.
  - destruct (stopCapture env s) as [s' [[]|e|]]; reflexivity.
Qed.

Lemma handle_toggle_success env tg s :
  exists r, snd (handleMessage env (toggleMessage tg) s) = Ok r /\ success r = true.
Proof.
  unfold handleMessage. destruct tg; cbn [toggleMessage]; mstep.
  - destruct (isCapturing s) eqn:E.
    + rewrite (startCapture_noop env s E). eexists; split; reflexivity.
    + destruct (startCapture_arms env s E) as [H _].
      destruct (startCapture env s) as [s' r]. cbn [snd] in H. subst r.
      eexists; split; reflexivity.
  - destruct (isCapturing s) eqn:E.
    + unfold stopCapture. mstep. rewrite E. mstep.
      destruct (storageOk env (saves s)); mstep;
        destruct (captureTimer s) as [[|t]|]; mstep;
        eexists; split; reflexivity.
    + rewrite (stopCapture_noop env s E). eexists; split; reflexivity.
Qed.

(** ** Persistence failures *)




(** ** Relational invariants of computations *)

Section Preserve.

Variable R : State -> State -> Prop.
Hypothesis R_refl : forall s, R s s.
Hypothesis R_trans : forall s1 s2 s3, R s1 s2 -> R s2 s3 -> R s1 s3.

Lemma preserves_ret {A} (a : A) : preserves R (ret a).
Proof. intros s. apply R_refl. Qed.

Lemma preserves_gets {A} (f : State -> A) : preserves R (gets f).
Proof. intros s. apply R_refl. Qed.

Lemma preserves_throw {A} (e : Error) : preserves R (@throw A e).
Proof. intros s. apply R_refl. Qed.

Lemma preserves_out_of_fuel {A} : preserves R (@out_of_fuel A).
Proof. intros s. apply R_refl. Qed.

Lemma preserves_modify (f : State -> State) :
  (forall s, R s (f s)) -> preserves R (modify f).
Proof. intros H s. apply H. Qed.

Lemma preserves_bind {A B} (m : M A) (f : A -> M B) :
  preserves R m -> (forall a, preserves R (f a)) -> preserves R (bind m f).
Proof.
  intros Hm Hf s. unfold bind. specialize (Hm s).
  destruct (m s) as [s' [a|e|]]; cbn [fst] in *; auto.
  eapply R_trans; [exact Hm | apply Hf].
Qed.

(** Reading the state first: the continuation is entered in the state that
    was read. *)
Lemma preserves_bind_gets {A B} (g : State -> A) (f : A -> M B) :
  (forall s, R s (fst (f (g s) s))) -> preserves R (bind (gets g) f).
Proof. intros H s. apply H. Qed.

Lemma preserves_try_catch {A} (m : M A) (h : Error -> M A) :
  preserves R m -> (forall e, preserves R (h e)) -> preserves R (try_catch m h).
Proof.
  intros Hm Hh s. unfold try_catch. specialize (Hm s).
  destruct (m s) as [s' [a|e|]]; cbn [fst] in *; auto.
  eapply R_trans; [exact Hm | apply Hh].
Qed.

Lemma preserves_unawaited (m : M unit) : preserves R m -> preserves R (unawaited m).
Proof.
  intros Hm s. unfold unawaited. specialize (Hm s).
  destruct (m s) as [s' [a|e|]]; cbn [fst] in *; auto.
Qed.

Lemma preserves_read (r : ref) : preserves R (read r).
Proof. intros s. unfold read. destruct (heap s !! r); apply R_refl. Qed.

Lemma preserves_for_of {A} (xs : list A) (body : A -> M unit) :
  (forall x, In x xs -> preserves R (body x)) -> preserves R (for_of xs body).
Proof.
  induction xs as [|x xs IH]; intros H; cbn [for_of].
  - apply preserves_ret.
  - apply preserves_bind.
    + apply H. now left.
    + intros _. apply IH. intros y Hy. apply H. now right.
Qed.

End Preserve.

(** Decomposition of a computation along its combinators; [rfl] and [trn]
    are the proofs that the relation is reflexive and transitive, [leaf]
    closes the goals about single state updates. *)
Ltac pres_step rfl trn leaf :=
  first
    [ assumption
    | match goal with H : forall _, _ |- _ => solve [apply H] end
    | apply (preserves_ret _ rfl)
    | apply (preserves_gets _ rfl)
    | apply (preserves_throw _ rfl)
    | apply (preserves_out_of_fuel _ rfl)
    | apply (preserves_read _ rfl)
    | apply (preserves_bind _ trn); [ | intros ? ]
    | apply (preserves_try_catch _ trn); [ | intros ? ]
    | apply (preserves_unawaited _ rfl)
    | apply (preserves_for_of _ rfl trn); intros ? ?
    | apply preserves_modify; intros ?; solve [leaf]
    | match goal with
      | |- preserves _ (if ?b then _ else _) => destruct b
      | |- preserves _ (match ?x with _ => _ end) => destruct x
      end ].

Ltac pres rfl trn leaf := repeat pres_step rfl trn leaf.

(** *** Fields a computation leaves alone *)

Lemma same_refl {A} (f : State -> A) s : same f s s.
Proof. reflexivity. Qed.

Lemma same_trans {A} (f : State -> A) s1 s2 s3 :
  same f s1 s2 -> same f s2 s3 -> same f s1 s3.
Proof. unfold same. congruence. Qed.

Ltac pres_same f := pres (same_refl f) (same_trans f) ltac:(reflexivity).

Lemma saveState_sameSettings env : preserves (same settings) (saveState env).
Proof.
  intros s. unfold saveState. mstep. now destruct (storageOk env (saves s)).
Qed.

Lemma startCapture_sameSettings env : preserves (same settings) (startCapture env).
Proof.
  pose proof (saveState_sameSettings env).
  unfold startCapture.
  pres_same settings.
Qed.

Lemma stopCapture_sameSettings env : preserves (same settings) (stopCapture env).
Proof.
  pose proof (saveState_sameSettings env).
  unfold stopCapture.
  pres_same settings.
Qed.

(** ** updateSettings *)

Lemma updateSettings_settings env ns s :
  settings (fst (updateSettings env (Some ns) s)) = ns ∪ settings s.
Proof.
  unfold updateSettings.
  change (modify (fun s0 => set_settings (default ∅ (Some ns) ∪ settings s0) s0))
    with (modify (fun s0 => set_settings (ns ∪ settings s0) s0)).
  unfold bind at 1. unfold modify at 1.
  set (s1 := set_settings (ns ∪ settings s) s).
  change (ns ∪ settings s) with (settings s1).
  assert (Hp : preserves (same settings)
                 (saveState env ;;
                  capturing ← gets isCapturing;
                  if truthy (ns !! "captureInterval") && capturing
                  then stopCapture env ;;
                       match ns !! "captureInterval" with
                       | Some v => modify (set_captureInterval v)
                       | None => ret tt
                       end ;;
                       startCapture env
                  else ret tt)).
  { pose proof (saveState_sameSettings env).
    pose proof (startCapture_sameSettings env).
    pose proof (stopCapture_sameSettings env).
    pres_same settings. }
  apply (Hp s1).
Qed.

(** C10.  updateSettings merges every key of its argument into the settings
    object, documented or not: after the request, each key of the argument
    reads as the argument has it, each other key reads as before, and a
    getSettings request answers the merged object; in particular a
    captureInterval key sent by the options page is part of the answer,
    next to the quality, maxRetries and enableNotifications keys. *)
Theorem updateSettings_merges_every_key (env : Env)
    (ns : gmap string JsVal) (s : State) :
  let s' := fst (handleMessage env (UpdateSettings (Some ns)) s) in
  (forall k v, ns !! k = Some v -> settings s' !! k = Some v) /\
  (forall k, ns !! k = None -> settings s' !! k = settings s !! k) /\
  handleMessage env GetSettings s' =
    (s', Ok (succeed (Some (SettingsData (ns ∪ settings s))))) /\
  (forall n, ns !! "captureInterval" = Some n ->
     forall cur, snd (handleMessage env GetSettings s') =
                   Ok (succeed (Some (SettingsData cur))) ->
     cur !! "captureInterval" = Some n /\
     (forall k, k = "quality" \/ k = "maxRetries" \/ k = "enableNotifications" ->
        is_Some (settings s !! k) -> is_Some (cur !! k))).
Proof.
  cbv zeta.
  assert (Hs : settings (fst (handleMessage env (UpdateSettings (Some ns)) s))
               = ns ∪ settings s).
  { rewrite <- (updateSettings_settings env ns s).
    unfold handleMessage. mstep.
    destruct (updateSettings env (Some ns) s) as [s' [[]|e|]]; reflexivity. }
  set (s' := fst (handleMessage env (UpdateSettings (Some ns)) s)) in *.
  assert (Hget : handleMessage env GetSettings s' =
                 (s', Ok (succeed (Some (SettingsData (ns ∪ settings s)))))).
  { unfold handleMessage. mstep. now rewrite Hs. }
  repeat split.
  - intros k v Hk. rewrite Hs. now apply lookup_union_Some_l.
  - intros k Hk. rewrite Hs. now apply lookup_union_r.
  - exact Hget.
  - rewrite Hget in H0. cbn [snd] in H0. injection H0 as <-.
    now apply lookup_union_Some_l.
  - rewrite Hget in H0. cbn [snd] in H0. injection H0 as <-.
    intros k _ [v Hv]. destruct (ns !! k) as [w|] eqn:Hk.
    + exists w. now apply lookup_union_Some_l.
    + exists v. rewrite lookup_union_r; auto.
Qed.

Lemma updateSettings_merges_witness :
  settings
    (fst (handleMessage envStorageDown
            (UpdateSettings (Some {["captureInterval" := JNum (Num.of_Z 3)]}))
            initialState)) !! "captureInterval"
  = Some (JNum (Num.of_Z 3)).
Proof.
  destruct (updateSettings_merges_every_key envStorageDown
              {["captureInterval" := JNum (Num.of_Z 3)]} initialState)
    as [H _].
  apply H. reflexivity.
Defined.

(** ** The platform only ever sees more *)

Lemma grows_refl s : grows s s.
Proof. split; [exists []; split; [now rewrite app_nil_r | constructor] | lia]. Qed.

Lemma grows_trans s1 s2 s3 : grows s1 s2 -> grows s2 s3 -> grows s1 s3.
Proof.
  intros [(l1 & E1 & F1) H1] [(l2 & E2 & F2) H2]. split; [|lia].
  exists (l1 ++ l2). split.
  - now rewrite E2, E1, app_assoc.
  - apply Forall_app; auto.
Qed.

Ltac grows_leaf :=
  unfold grows; cbn;
  split; [ first [ exists []; split; [now rewrite app_nil_r | constructor]
                 | eexists; split; [reflexivity | repeat constructor] ]
         | lia ].

Ltac pres_grows := pres grows_refl grows_trans grows_leaf.

Lemma saveState_grows env : preserves grows (saveState env).
Proof.
  intros s. unfold saveState. mstep.
  destruct (storageOk env (saves s)); grows_leaf.
Qed.

Lemma read_grows r : preserves grows (read r).
Proof. intros s. unfold read. destruct (heap s !! r); apply grows_refl. Qed.

Lemma uploadWith_grows env retry r :
  preserves grows retry -> preserves grows (uploadWith env retry r).
Proof.
  intros Hr. pose proof (read_grows r). unfold uploadWith. pres_grows.
Qed.

Lemma retryItem_grows env retry t r :
  preserves grows retry -> preserves grows (retryItem env retry t r).
Proof.
  intros Hr. pose proof (read_grows r).
  pose proof (uploadWith_grows env retry r Hr).
  unfold retryItem. pres_grows.
Qed.

Lemma sweepWith_grows env retry :
  preserves grows retry -> preserves grows (sweepWith env retry).
Proof.
  intros Hr. pose proof (fun t r => retryItem_grows env retry t r Hr).
  unfold sweepWith. pres_grows.
Qed.

Lemma scheduleRetryN_grows env fuel : preserves grows (scheduleRetryN env fuel).
Proof.
  induction fuel as [|k IH]; cbn [scheduleRetryN].
  - apply (preserves_out_of_fuel _ grows_refl).
  - now apply sweepWith_grows.
Qed.

Lemma uploadScreenshot_grows env r : preserves grows (uploadScreenshot env r).
Proof. apply uploadWith_grows, scheduleRetryN_grows. Qed.

Lemma processScreenshot_grows env d u ti rnd :
  preserves grows (processScreenshot env d u ti rnd).
Proof.
  pose proof (uploadScreenshot_grows env).
  unfold processScreenshot, generateScreenshotId. pres_grows.
Qed.

(** ** The quality passed to the screenshot primitive *)

Lemma try_catch_gets_modify {A B} (g : State -> B) (F : B -> State -> State)
    (K : B -> M A) (h : Error -> M A) (s : State) :
  try_catch (q ← gets g; modify (F q) ;; K q) h s
  = try_catch (K (g s)) h (F (g s) s).
Proof. reflexivity. Qed.

Lemma capture_tail_grows env inp u ti :
  preserves grows
    (try_catch
       (match visibleTab inp with
        | ShotRejected => throw CaptureRejected
        | ShotValue None => throw CaptureReturnedNull
        | ShotValue (Some d) =>
            if String.eqb d "" then throw CaptureReturnedNull
            else
              processScreenshot env d u ti (random inp) ;;
              t ← dateNow;
              modify (set_lastCaptureTime (Some t)) ;;
              modify (fun s => set_screenshotCount (screenshotCount s + 1) s) ;;
              saveState env ;;
              n ← gets screenshotCount;
              notifyPopup (CaptureComplete t n u ti)
        end)
       (fun e => notifyPopup (ErrorMessage e))).
Proof.
  pose proof (processScreenshot_grows env).
  pose proof (saveState_grows env).
  pres_grows.
Qed.

(** C4, as stated, fails: with settings.quality = 0.6875 the primitive is
    called with quality 68, while round(0.6875 * 100) is 69. *)
Lemma capture_quality_is_not_rounded :
  Num.geb quality_11_16 (Num.div (Num.of_Z 1) (Num.of_Z 10)) = true /\
  Num.geb (Num.of_Z 1) quality_11_16 = true /\
  Num.round (Num.mul quality_11_16 (Num.of_Z 100)) = Num.of_Z 69 /\
  In (EvCaptureVisibleTab (Num.of_Z 68))
     (trace (fst (captureScreenshot envOffline (goodTick "k3j9x0q2a")
                    (stateWithQuality quality_11_16)))) /\
  ~ In (EvCaptureVisibleTab (Num.round (Num.mul quality_11_16 (Num.of_Z 100))))
       (trace (fst (captureScreenshot envOffline (goodTick "k3j9x0q2a")
                      (stateWithQuality quality_11_16)))).
Proof.
  vm_compute. repeat split; auto.
  intros H. repeat (destruct H as [H|H]; [discriminate H|]). exact H.
Qed.

(** C4, amended.  On every capture tick that reaches the screenshot
    primitive, the primitive is called once, with
    quality = floor(settings.quality * 100), the product taken in double
    arithmetic. *)
Theorem capture_quality_is_floor (env : Env) (s : State) (inp : TickInput) :
  capturable inp ->
  exists rest,
    trace (fst (captureScreenshot env inp s)) =
      trace s ++
      EvCaptureVisibleTab
        (Num.floor (Num.mul (ToNumber env (settings s !! "quality")) (Num.of_Z 100)))
      :: rest /\
    Forall (fun e => isCaptureCall e = false) rest.
Proof.
  intros (u & ti & Htab & Hu & Hd). unfold captureScreenshot.
  rewrite Htab, Hu, Hd. cbn [orb]. rewrite try_catch_gets_modify.
  destruct (capture_tail_grows env inp u ti
              (emit (EvCaptureVisibleTab (captureQuality env s)) s))
    as [(l & El & Fl) _].
  exists l. split; [|exact Fl].
  rewrite El. cbn [emit trace set_platform addTimeout set_timeouts timeouts]. now rewrite <- app_assoc.
Qed.

Lemma capture_quality_is_floor_witness :
  exists rest,
    trace (fst (captureScreenshot envOffline (goodTick "k3j9x0q2a")
                  (stateWithQuality quality_11_16))) =
      EvCaptureVisibleTab (Num.of_Z 68) :: rest.
Proof.
  destruct (capture_quality_is_floor envOffline (stateWithQuality quality_11_16)
              (goodTick "k3j9x0q2a")) as (rest & E & _).
  - exists "https://emr.example.org/chart", (Some "Chart").
    repeat split; reflexivity.
  - exists rest. exact E.
Defined.

(** Where floor and round agree: the ten qualities 0.1, 0.2, ..., 1.0. *)
Lemma capture_quality_tenths :
  Forall (fun k => let q := Num.mul (Num.div (Num.of_Z k) (Num.of_Z 10)) (Num.of_Z 100) in
                   Num.floor q = Num.round q /\ Num.floor q = Num.of_Z (10 * k))
    [1; 2; 3; 4; 5; 6; 7; 8; 9; 10]%Z.
Proof. repeat constructor; vm_compute; reflexivity. Qed.

(** Where they differ although the quality has two decimals: 0.29 * 100 is
    28.999999999999996 in double arithmetic. *)
Lemma capture_quality_29_hundredths :
  let q := Num.mul (Num.div (Num.of_Z 29) (Num.of_Z 100)) (Num.of_Z 100) in
  Num.floor q = Num.of_Z 28 /\ Num.round q = Num.of_Z 29.
Proof. vm_compute. split; reflexivity. Qed.

(** ** The upload pipeline while the server is not connected *)

Lemma uploadWith_offline env retry r s :
  serverConnected s = false ->
  uploadWith env retry r s = (set_uploadQueue (uploadQueue s ++ [r]) s, Ok tt).
Proof. intros H. unfold uploadWith. mstep. now rewrite H. Qed.

Lemma processScreenshot_offline env d u ti rnd s :
  serverConnected s = false ->
  let it := {| id := "screenshot_" +:+ pretty (now s) +:+ "_" +:+ rnd;
               timestamp := now s; url := u; title := ti; dataUrl := d;
               size := String.length d; quality := settings s !! "quality";
               retryCount := None; lastRetry := None |} in
  snd (processScreenshot env d u ti rnd s) = Ok tt /\
  uploadQueue (fst (processScreenshot env d u ti rnd s)) =
    uploadQueue s ++ [length (heap s)] /\
  heap (fst (processScreenshot env d u ti rnd s)) = heap s ++ [it] /\
  fetches (fst (processScreenshot env d u ti rnd s)) = fetches s /\
  trace (fst (processScreenshot env d u ti rnd s)) = trace s /\
  serverConnected (fst (processScreenshot env d u ti rnd s)) = false.
Proof.
  intros H. cbv zeta. destruct s. cbn [serverConnected] in H. subst.
  unfold processScreenshot, generateScreenshotId, uploadScreenshot.
  mstep. rewrite uploadWith_offline by reflexivity. mstep.
  destruct screenshots0 as [shots|]; mstep;
    cbv [default from_option Datatypes.id];
    [destruct (10 <=? length shots) | ]; mstep; auto 10.
Qed.

(** C8, as stated, fails: the capture queued by a tick made while the
    server is not connected carries no retryCount at all. *)
Lemma offline_capture_has_no_retryCount :
  let s' := fst (captureScreenshot envOffline (goodTick "k3j9x0q2a") initialState) in
  serverConnected initialState = false /\
  uploadQueue s' = [0] /\
  ~ (exists it, heap s' !! 0 = Some it /\ retryCount it = Some 0).
Proof.
  vm_compute. repeat split; auto.
  intros (it & [= <-] & H). discriminate H.
Qed.

(** C8, amended.  Whenever the upload pipeline runs for a fresh Capture
    while serverConnected is false, there is no network attempt and no
    other effect on the platform, and the Capture object itself is appended
    to the queue as it is: no retryCount and no lastRetry field.  The sweep
    reads the missing retryCount as 0 (backoff 1000 ms) and the missing
    lastRetry as time 0. *)
Theorem offline_capture_is_queued_unchanged (env : Env) (d u : string)
    (ti : option string) (rnd : string) (s : State) :
  serverConnected s = false ->
  let s' := fst (processScreenshot env d u ti rnd s) in
  fetches s' = fetches s /\
  trace s' = trace s /\
  uploadQueue s' = uploadQueue s ++ [length (heap s)] /\
  exists it,
    heap s' = heap s ++ [it] /\
    dataUrl it = d /\
    retryCount it = None /\
    lastRetry it = None /\
    backoffDelay it = 1000%Z /\
    (forall t, eligible t it = true <-> (1000 <= t)%Z).
Proof.
  intros H. cbv zeta.
  destruct (processScreenshot_offline env d u ti rnd s H)
    as (_ & Hq & Hh & Hf & Ht & _).
  repeat split; auto.
  eexists. split; [exact Hh|]. repeat split; cbn.
  - unfold eligible, backoffDelay. cbn. intros E. apply Z.leb_le in E. lia.
  - unfold eligible, backoffDelay. cbn. intros E. apply Z.leb_le. lia.
Qed.

Lemma offline_capture_is_queued_unchanged_witness :
  uploadQueue
    (fst (processScreenshot envOffline "data:image/png;base64,iVBORw0KGgo="
            "https://emr.example.org/chart" None "k3j9x0q2a" initialState))
  = [0].
Proof.
  destruct (offline_capture_is_queued_unchanged envOffline
              "data:image/png;base64,iVBORw0KGgo="
              "https://emr.example.org/chart" None "k3j9x0q2a" initialState
              eq_refl) as (_ & _ & H & _).
  exact H.
Defined.

(** ** The retry sweep while the server is not connected *)

Lemma retryItem_offline env retry t r it s :
  serverConnected s = false ->
  heap s !! r = Some it ->
  retryItem env retry t r s =
    if reachedMax env (retryCount it) (settings s !! "maxRetries")
    then (dropById (id it) (emit (EvConsole (LogMaxRetries (id it))) s), Ok tt)
    else (set_uploadQueue (uploadQueue s ++ [r])
            (emit (EvConsole (LogRetrying (id it) (S (default 0 (retryCount it)))))
               (set_heap (<[r := retried t it]> (heap s)) s)),
          Ok tt).
Proof.
  intros Hc Hr. unfold retryItem. mstep. rewrite Hr.
  destruct (reachedMax env (retryCount it) (settings s !! "maxRetries")).
  - reflexivity.
  - mstep. rewrite uploadWith_offline by exact Hc. reflexivity.
Qed.

Lemma bind_ok {A B} (m : M A) (f : A -> M B) s s1 a :
  m s = (s1, Ok a) -> bind m f s = f a s1.
Proof. intros H. unfold bind. now rewrite H. Qed.

Lemma quiet_trans s1 s2 s3 : quiet s1 s2 -> quiet s2 s3 -> quiet s1 s3.
Proof.
  intros (_ & F1 & N1 & L1 & S1 & l1 & E1 & A1) (C2 & F2 & N2 & L2 & S2 & l2 & E2 & A2).
  repeat split; try congruence.
  exists (l1 ++ l2). split.
  - now rewrite E2, E1, app_assoc.
  - now apply Forall_app.
Qed.

Lemma retryItem_offline_quiet env retry t r it s :
  serverConnected s = false ->
  heap s !! r = Some it ->
  snd (retryItem env retry t r s) = Ok tt /\
  quiet s (fst (retryItem env retry t r s)) /\
  (forall r0, r0 <> r ->
     heap (fst (retryItem env retry t r s)) !! r0 = heap s !! r0).
Proof.
  intros Hc Hr. rewrite (retryItem_offline env retry t r it s Hc Hr).
  destruct (reachedMax env (retryCount it) (settings s !! "maxRetries"));
    cbn [fst snd].
  - split; [reflexivity|]. split; [|reflexivity].
    unfold quiet. cbn. repeat split; auto.
    eexists. split; [reflexivity | repeat constructor].
  - split; [reflexivity|]. split.
    + unfold quiet. cbn. repeat split; auto.
      * apply length_insert.
      * eexists. split; [reflexivity | repeat constructor].
    + intros r0 Hne. cbn. now apply list_lookup_insert_ne.
Qed.

Lemma for_of_retry_offline env retry t items s :
  serverConnected s = false ->
  Forall (fun r => r < length (heap s)) items ->
  snd (for_of items (retryItem env retry t) s) = Ok tt /\
  quiet s (fst (for_of items (retryItem env retry t) s)) /\
  (forall r0, ~ In r0 items ->
     heap (fst (for_of items (retryItem env retry t) s)) !! r0 = heap s !! r0).
Proof.
  revert s. induction items as [|r items IH]; intros s Hc Hv.
  - cbn. repeat split; auto. exists []. split; [now rewrite app_nil_r | constructor].
  - inversion Hv as [|? ? Hr Hv']; subst.
    apply lookup_lt_is_Some_2 in Hr as [it Hit].
    destruct (retryItem_offline_quiet env retry t r it s Hc Hit) as (Hok & Hq & Hfr).
    cbn [for_of].
    destruct (retryItem env retry t r s) as [s1 res] eqn:E.
    cbn [fst snd] in *. subst res. rewrite !(bind_ok _ _ _ _ _ E).
    destruct Hq as (C1 & Hq).
    destruct (IH s1 C1) as (Hok' & Hq' & Hfr').
    { destruct Hq as (_ & _ & L1 & _). rewrite L1. exact Hv'. }
    split; [exact Hok'|]. split.
    + eapply quiet_trans; [|exact Hq']. split; [exact C1 | exact Hq].
    + intros r0 Hn. rewrite Hfr'; [apply Hfr|]; intros ?; apply Hn; [left|right]; auto.
Qed.

Lemma retryableItems_valid t s :
  Forall (fun r => r < length (heap s)) (retryableItems t s).
Proof.
  apply List.Forall_forall. intros r Hr. unfold retryableItems in Hr.
  apply filter_In in Hr as [_ Hr]. cbv beta in Hr.
  destruct (heap s !! r) eqn:E; [|discriminate Hr].
  eapply lookup_lt_Some; eauto.
Qed.

(** A sweep made while the server is not connected runs to its end without
    a network attempt, whatever sweep its uploads would start. *)
Lemma sweepWith_offline env retry s :
  serverConnected s = false ->
  snd (sweepWith env retry s) = Ok tt /\
  quiet s (fst (sweepWith env retry s)) /\
  (forall r0, ~ In r0 (retryableItems (now s) s) ->
     heap (fst (sweepWith env retry s)) !! r0 = heap s !! r0).
Proof.
  intros Hc. unfold sweepWith. mstep.
  destruct (0 <? length (uploadQueue s)).
  - destruct (for_of_retry_offline env retry (now s) (retryableItems (now s) s) s
                Hc (retryableItems_valid _ _)) as (Hok & Hq & Hfr).
    destruct (for_of (retryableItems (now s) s) (retryItem env retry (now s)) s)
      as [s1 res].
    cbn [fst snd] in *. subst res. mstep.
    split; [reflexivity|]. split; [|exact Hfr].
    eapply quiet_trans; [exact Hq|].
    destruct Hq as (C1 & _).
    unfold quiet. cbn. repeat split; auto.
    eexists. split; [reflexivity | repeat constructor].
  - mstep. split; [reflexivity|]. split; [|reflexivity].
    unfold quiet. cbn. repeat split; auto.
    eexists. split; [reflexivity | repeat constructor].
Qed.

(** ** The upload pipeline while the server is connected *)

Lemma uploadWith_online env retry r it s :
  serverConnected s = true ->
  heap s !! r = Some it ->
  uploadWith env retry r s =
    if replySucceeds (fetchReply env (fetches s))
    then (emit (EvNotify (StatusServer true))
            (set_serverConnected true (posted env (id it) s)), Ok tt)
    else unawaited retry (requeued it (posted env (id it) s)).
Proof.
  intros Hc Hr. unfold uploadWith, replySucceeds, posted, requeued, fetch.
  mstep. rewrite Hc. mstep. rewrite Hr. mstep.
  destruct (outcome (fetchReply env (fetches s))) as [|[] status []];
    mstep; rewrite ?Hr; reflexivity.
Qed.

Lemma requeued_offline it s : serverConnected (requeued it s) = false.
Proof. reflexivity. Qed.

(** An upload of an existing object always returns, and a sweep made at
    nesting depth two never runs out of fuel: the [catch] sets
    serverConnected to false before it starts a sweep, and that sweep's
    uploads take the not-connected path. *)
Lemma uploadWith_returns env k r s :
  r < length (heap s) ->
  snd (uploadWith env (scheduleRetryN env (S k)) r s) = Ok tt.
Proof.
  intros Hv. apply lookup_lt_is_Some_2 in Hv as [it Hit].
  destruct (serverConnected s) eqn:Hc.
  - rewrite (uploadWith_online env _ r it s Hc Hit).
    destruct (replySucceeds (fetchReply env (fetches s))); [reflexivity|].
    cbn [scheduleRetryN]. unfold unawaited.
    destruct (sweepWith_offline env (scheduleRetryN env k)
                (requeued it (posted env (id it) s)) (requeued_offline _ _))
      as (Hok & _).
    destruct (sweepWith env (scheduleRetryN env k)
                (requeued it (posted env (id it) s))) as [s' res].
    cbn [snd] in *. now subst res.
  - now rewrite uploadWith_offline.
Qed.

Lemma uploadScreenshot_returns env r s :
  r < length (heap s) -> snd (uploadScreenshot env r s) = Ok tt.
Proof. apply uploadWith_returns. Qed.

(** *** What the upload machinery leaves alone *)

Lemma uploadWith_ring env retry r :
  preserves (same screenshots) retry ->
  preserves (same screenshots) (uploadWith env retry r).
Proof. intros Hr. unfold uploadWith. pres_same screenshots. Qed.

Lemma retryItem_ring env retry t r :
  preserves (same screenshots) retry ->
  preserves (same screenshots) (retryItem env retry t r).
Proof.
  intros Hr. pose proof (uploadWith_ring env retry r Hr).
  unfold retryItem. pres_same screenshots.
Qed.

Lemma sweepWith_ring env retry :
  preserves (same screenshots) retry ->
  preserves (same screenshots) (sweepWith env retry).
Proof.
  intros Hr. pose proof (fun t r => retryItem_ring env retry t r Hr).
  unfold sweepWith. pres_same screenshots.
Qed.

Lemma scheduleRetryN_ring env fuel :
  preserves (same screenshots) (scheduleRetryN env fuel).
Proof.
  induction fuel as [|k IH]; cbn [scheduleRetryN].
  - apply (preserves_out_of_fuel _ (same_refl screenshots)).
  - now apply sweepWith_ring.
Qed.

Lemma uploadScreenshot_ring env r s :
  screenshots (fst (uploadScreenshot env r s)) = screenshots s.
Proof. apply (uploadWith_ring env _ r (scheduleRetryN_ring env 1) s). Qed.

(** ** Sequences of toggles *)

Lemma toggle_tracked env tg s :
  tracked s ->
  tracked (toggle env tg s) /\
  (if takesEffect tg s
   then timerArmed (toggle env tg s) <-> tg = Start
   else toggle env tg s = s) /\
  length (intervals (toggle env tg s)) <= 1.
Proof.
  intros [Hn Hc]. rewrite handle_toggle_state.
  destruct tg; cbn [takesEffect];
    (destruct (Bool.bool_dec (isCapturing s) true) as [Hcap|Hcap];
     [|apply Bool.not_true_is_false in Hcap]); rewrite Hcap; cbn [negb].
  - rewrite (startCapture_noop env s Hcap). cbn [fst].
    split; [split; [exact Hn | exact Hc]|]. split; [reflexivity|].
    destruct Hc as [[_ ->] | (_ & t & _ & _ & ->)]; cbn; lia.
  - destruct Hc as [[Ht Hi] | (Hc & _)]; [|congruence].
    destruct (startCapture_arms env s Hcap) as (_ & H1 & H2 & H3 & H4).
    rewrite Hi in H3. cbn [app] in H3.
    repeat split.
    + lia.
    + right. split; [exact H1|]. exists (nextTimer s). auto.
    + exists (nextTimer s). rewrite H3. split; [exact H2 | now left].
    + rewrite H3. cbn. lia.
  - destruct Hc as [[Ht Hi] | (_ & t & Hpos & Ht & Hi)].
    + assert (Hs : captureTimer (fst (stopCapture env s)) = None /\
                   intervals (fst (stopCapture env s)) = [] /\
                   nextTimer (fst (stopCapture env s)) = nextTimer s).
      { unfold stopCapture. mstep. rewrite Hcap. mstep.
        destruct (storageOk env (saves s)); mstep; rewrite Ht; mstep; auto. }
      destruct Hs as (H2 & H3 & H4).
      repeat split.
      * lia.
      * left. auto.
      * intros (t' & Ht' & _). congruence.
      * discriminate.
      * rewrite H3. cbn. lia.
    + destruct (stopCapture_disarms env s t Hcap Ht Hpos) as (_ & H1 & H2 & H3 & H4).
      rewrite Hi in H3. cbn [List.filter] in H3. rewrite Nat.eqb_refl in H3.
      cbn [negb] in H3.
      repeat split.
      * lia.
      * left. auto.
      * intros (t' & Ht' & _). congruence.
      * discriminate.
      * rewrite H3. cbn. lia.
  - rewrite (stopCapture_noop env s Hcap). cbn [fst].
    split; [split; [exact Hn | exact Hc]|]. split; [reflexivity|].
    destruct Hc as [[_ ->] | (_ & t & _ & _ & ->)]; cbn; lia.
Qed.

Lemma unarmed_tracked s : unarmed s -> tracked s.
Proof. intros (Ht & Hi & Hn). split; [exact Hn | left; auto]. Qed.

Lemma unarmed_not_armed s : unarmed s -> ~ timerArmed s.
Proof. intros (Ht & _) (t & Ht' & _). congruence. Qed.

Lemma initialState_unarmed : unarmed initialState.
Proof. repeat split. cbn. lia. Qed.

Lemma runToggles_snoc env calls tg s :
  runToggles env (calls ++ [tg]) s = toggle env tg (runToggles env calls s).
Proof. unfold runToggles. now rewrite fold_left_app. Qed.

Lemma fold_toggleTracking_snoc env calls tg p :
  fold_left (toggleTracking env) (calls ++ [tg]) p =
  toggleTracking env (fold_left (toggleTracking env) calls p) tg.
Proof. now rewrite fold_left_app. Qed.

Lemma fold_toggleTracking_state env calls s acc :
  fst (fold_left (toggleTracking env) calls (s, acc)) = runToggles env calls s.
Proof.
  revert s acc. induction calls as [|tg calls IH]; intros s acc; [reflexivity|].
  cbn [fold_left runToggles]. unfold toggleTracking at 2. cbn [fst snd].
  apply IH.
Qed.

(** After a run from a state without capture timer, the timer follows the
    last toggle that took effect. *)
Lemma runToggles_tracked env calls s :
  unarmed s ->
  tracked (runToggles env calls s) /\
  (timerArmed (runToggles env calls s) <-> lastEffective env calls s = Some Start) /\
  length (intervals (runToggles env calls s)) <= 1.
Proof.
  intros Hs. unfold lastEffective.
  induction calls as [|tg calls IH] using rev_ind.
  - cbn. split; [now apply unarmed_tracked|]. split.
    + split; [intros H; now apply unarmed_not_armed in H | discriminate].
    + destruct Hs as (_ & -> & _). cbn. lia.
  - destruct IH as (Htr & Harm & Hlen).
    rewrite fold_toggleTracking_snoc. unfold toggleTracking at 1.
    rewrite fold_toggleTracking_state. cbn [snd].
    rewrite !runToggles_snoc.
    destruct (toggle_tracked env tg (runToggles env calls s) Htr)
      as (Htr' & Heff & Hlen').
    split; [exact Htr'|]. split; [|exact Hlen'].
    destruct (takesEffect tg (runToggles env calls s)).
    + rewrite Heff. split; [now intros -> | now intros [= ->]].
    + rewrite Heff. exact Harm.
Qed.

(** From a state that is not capturing, every call but a repeated one
    takes effect, so that the last toggle that took effect is the last
    call. *)
Lemma runToggles_last env calls s :
  unarmed s -> isCapturing s = false ->
  timerArmed (runToggles env calls s) <-> last calls = Some Start.
Proof.
  intros Hs Hcap.
  assert (Hinv : forall calls,
             tracked (runToggles env calls s) /\
             (timerArmed (runToggles env calls s) <->
              isCapturing (runToggles env calls s) = true)).
  { intros l. induction l as [|tg l IH] using rev_ind.
    - cbn. split; [now apply unarmed_tracked|]. split.
      + intros H. now apply unarmed_not_armed in H.
      + congruence.
    - destruct IH as (Htr & Hiff).
      rewrite !runToggles_snoc.
      destruct (toggle_tracked env tg (runToggles env l s) Htr) as (Htr' & Heff & _).
      split; [exact Htr'|].
      destruct tg; cbn [takesEffect] in Heff;
        destruct (isCapturing (runToggles env l s)) eqn:E; cbn [negb] in Heff.
      + rewrite Heff. rewrite E. exact Hiff.
      + rewrite handle_toggle_state in *.
        destruct (startCapture_arms env _ E) as (_ & H1 & _).
        split; [intros _; exact H1 | intros _; now apply Heff].
      + rewrite handle_toggle_state in *.
        split; [intros H; apply Heff in H; discriminate H|].
        intros H. exfalso.
        destruct Htr' as (_ & [[Ht Hi] | (Hc & _)]).
        * revert H. unfold stopCapture. mstep. rewrite E. mstep.
          destruct (storageOk env (saves (runToggles env l s))); mstep;
            destruct (captureTimer (runToggles env l s)) as [[|t]|]; mstep;
            discriminate.
        * revert Hc. unfold stopCapture. mstep. rewrite E. mstep.
          destruct (storageOk env (saves (runToggles env l s))); mstep;
            destruct (captureTimer (runToggles env l s)) as [[|t]|]; mstep;
            discriminate.
      + rewrite Heff. rewrite E. exact Hiff. }
  destruct calls as [|tg calls _] using rev_ind.
  - cbn. split; [intros H; now apply unarmed_not_armed in H | discriminate].
  - rewrite last_snoc.
    destruct (Hinv calls) as (Htr & Hiff).
    rewrite !runToggles_snoc.
    destruct (toggle_tracked env tg (runToggles env calls s) Htr) as (_ & Heff & _).
    destruct tg; cbn [takesEffect] in Heff;
      destruct (isCapturing (runToggles env calls s)) eqn:E; cbn [negb] in Heff.
    + rewrite Heff. split; [reflexivity | intros _; now apply Hiff].
    + split; [reflexivity | intros _; now apply Heff].
    + split; [intros H; apply Heff in H; discriminate H | discriminate].
    + rewrite Heff. split; [|discriminate].
      intros H. apply Hiff in H. congruence.
Qed.

(** *** The start of the extension *)

Lemma uploadWith_timers env retry r :
  preserves (same captureTimers) retry ->
  preserves (same captureTimers) (uploadWith env retry r).
Proof. intros Hr. unfold uploadWith. pres_same captureTimers. Qed.

Lemma retryItem_timers env retry t r :
  preserves (same captureTimers) retry ->
  preserves (same captureTimers) (retryItem env retry t r).
Proof.
  intros Hr. pose proof (uploadWith_timers env retry r Hr).
  unfold retryItem. pres_same captureTimers.
Qed.

Lemma sweepWith_timers env retry :
  preserves (same captureTimers) retry ->
  preserves (same captureTimers) (sweepWith env retry).
Proof.
  intros Hr. pose proof (fun t r => retryItem_timers env retry t r Hr).
  unfold sweepWith. pres_same captureTimers.
Qed.

Lemma scheduleRetryN_timers env fuel :
  preserves (same captureTimers) (scheduleRetryN env fuel).
Proof.
  induction fuel as [|k IH]; cbn [scheduleRetryN].
  - apply (preserves_out_of_fuel _ (same_refl captureTimers)).
  - now apply sweepWith_timers.
Qed.

Lemma checkServerConnection_timers env :
  preserves (same captureTimers) (checkServerConnection env).
Proof.
  pose proof (fun r => uploadWith_timers env _ r (scheduleRetryN_timers env 1)) as Hu.
  fold (uploadScreenshot env) in Hu.
  unfold checkServerConnection, processUploadQueue. pres_same captureTimers.
Qed.

Lemma init_timers env stored : preserves (same captureTimers) (init env stored).
Proof.
  pose proof (checkServerConnection_timers env).
  unfold init, loadState. destruct stored; pres_same captureTimers.
Qed.

(** The state restored at the start never holds a capture timer. *)
Lemma boot_unarmed env stored : unarmed (boot env stored).
Proof.
  pose proof (init_timers env stored initialState) as H.
  unfold same, captureTimers in H. injection H as H1 H2 H3.
  unfold boot, unarmed. rewrite H1, H2, H3. repeat split. cbn. lia.
Qed.

(** Toggles from a state without capture timer, which is what the start
    leaves whatever is stored: after every sequence of startCapture and
    stopCapture requests the capture timer is armed exactly when the last
    request that passed the guard of its handler was startCapture, and the
    platform never holds more than one capture timer; if the capturing
    flag is not set at the start, the timer is armed exactly when the last
    request was startCapture; every toggle answers success; and
    startCapture while the flag is set, like stopCapture while it is not,
    returns the state it was given, unchanged in every field. *)
Lemma toggle_sequences_arm_one_timer (env : Env) :
  (forall (s0 : State) (calls : list Toggle),
     unarmed s0 ->
     let s := runToggles env calls s0 in
     (timerArmed s <-> lastEffective env calls s0 = Some Start) /\
     (isCapturing s0 = false -> timerArmed s <-> last calls = Some Start) /\
     length (intervals s) <= 1) /\
  (forall stored : option Stored, unarmed (boot env stored)) /\
  (forall (tg : Toggle) (s : State),
     exists r, snd (handleMessage env (toggleMessage tg) s) = Ok r /\
               success r = true) /\
  (forall s : State,
     isCapturing s = true ->
     handleMessage env StartCapture s = (s, Ok (succeed None))) /\
  (forall s : State,
     isCapturing s = false ->
     handleMessage env StopCapture s = (s, Ok (succeed None))).
Proof.
  split; [|split; [|split; [|split]]].
  - intros s0 calls Hs. cbv zeta.
    destruct (runToggles_tracked env calls s0 Hs) as (_ & Harm & Hlen).
    split; [exact Harm|]. split; [|exact Hlen].
    intros Hcap. now apply runToggles_last.
  - apply boot_unarmed.
  - apply handle_toggle_success.
  - intros s H. unfold handleMessage. mstep.
    now rewrite (startCapture_noop env s H).
  - intros s H. unfold handleMessage. mstep.
    now rewrite (stopCapture_noop env s H).
Qed.

Lemma toggle_sequences_witness :
  timerArmed (runToggles envStorageDown [Start; Start; Stop; Start] initialState) /\
  handleMessage envStorageDown StopCapture initialState =
    (initialState, Ok (succeed None)).
Proof.
  pose proof (toggle_sequences_arm_one_timer envStorageDown) as (H1 & _ & _ & _ & H4).
  split.
  - assert (Hu : unarmed initialState) by (repeat split; cbn; lia).
    destruct (H1 initialState [Start; Start; Stop; Start] Hu) as (_ & Hl & _).
    apply Hl; reflexivity.
  - apply H4. reflexivity.
Defined.

(** ** The sweep returns, and two levels of nesting are all it uses *)

Lemma heapGrows_refl s : heapGrows s s.
Proof. unfold heapGrows. lia. Qed.

Lemma heapGrows_trans s1 s2 s3 : heapGrows s1 s2 -> heapGrows s2 s3 -> heapGrows s1 s3.
Proof. unfold heapGrows. lia. Qed.

Ltac heap_leaf := unfold heapGrows; cbn; rewrite ?length_app, ?length_insert; cbn; lia.

Ltac pres_heap := pres heapGrows_refl heapGrows_trans heap_leaf.

Lemma uploadWith_heapGrows env retry r :
  preserves heapGrows retry -> preserves heapGrows (uploadWith env retry r).
Proof. intros Hr. unfold uploadWith. pres_heap. Qed.

Lemma retryItem_heapGrows env retry t r :
  preserves heapGrows retry -> preserves heapGrows (retryItem env retry t r).
Proof.
  intros Hr. pose proof (uploadWith_heapGrows env retry r Hr).
  unfold retryItem. pres_heap.
Qed.

Lemma sweepWith_heapGrows env retry :
  preserves heapGrows retry -> preserves heapGrows (sweepWith env retry).
Proof.
  intros Hr. pose proof (fun t r => retryItem_heapGrows env retry t r Hr).
  unfold sweepWith. pres_heap.
Qed.

Lemma scheduleRetryN_heapGrows env fuel : preserves heapGrows (scheduleRetryN env fuel).
Proof.
  induction fuel as [|k IH]; cbn [scheduleRetryN].
  - apply (preserves_out_of_fuel _ heapGrows_refl).
  - now apply sweepWith_heapGrows.
Qed.

Lemma retryItem_returns env k t r s :
  r < length (heap s) ->
  snd (retryItem env (scheduleRetryN env (S k)) t r s) = Ok tt.
Proof.
  intros Hv. destruct (lookup_lt_is_Some_2 _ _ Hv) as [it Hit].
  unfold retryItem. mstep. rewrite Hit.
  destruct (reachedMax env (retryCount it) (settings s !! "maxRetries"));
    [reflexivity|].
  mstep. apply uploadWith_returns. cbn. now rewrite length_insert.
Qed.

Lemma for_of_retry_returns env k t items s :
  Forall (fun r => r < length (heap s)) items ->
  snd (for_of items (retryItem env (scheduleRetryN env (S k)) t) s) = Ok tt.
Proof.
  revert s. induction items as [|r items IH]; intros s Hv; [reflexivity|].
  inversion Hv as [|? ? Hr Hv']; subst. cbn [for_of].
  pose proof (retryItem_returns env k t r s Hr) as Hok.
  pose proof (retryItem_heapGrows env _ t r (scheduleRetryN_heapGrows env (S k)) s)
    as Hg.
  destruct (retryItem env (scheduleRetryN env (S k)) t r s) as [s1 res] eqn:E.
  cbn [fst snd] in *. subst res. rewrite (bind_ok _ _ _ _ _ E).
  apply IH. eapply Forall_impl; [exact Hv'|].
  intros x Hx. cbv beta in *. unfold heapGrows in Hg. lia.
Qed.

(** Every sweep runs to its end: it neither throws nor needs more than two
    levels of nesting. *)
Lemma scheduleRetryN_returns env k s :
  snd (scheduleRetryN env (S (S k)) s) = Ok tt.
Proof.
  change (scheduleRetryN env (S (S k)))
    with (sweepWith env (scheduleRetryN env (S k))).
  unfold sweepWith at 1. mstep.
  destruct (0 <? length (uploadQueue s)); [|reflexivity].
  pose proof (for_of_retry_returns env k (now s) (retryableItems (now s) s) s
                (retryableItems_valid _ _)) as Hok.
  destruct (for_of (retryableItems (now s) s)
              (retryItem env (scheduleRetryN env (S k)) (now s)) s)
    as [s1 res].
  cbn [snd] in Hok. now subst res.
Qed.

Lemma for_of_ext {A} (f g : A -> M unit) (xs : list A) :
  (forall x s, f x s = g x s) -> forall s, for_of xs f s = for_of xs g s.
Proof.
  intros H. induction xs as [|x xs IH]; intros s; [reflexivity|].
  cbn [for_of]. unfold bind. rewrite H.
  destruct (g x s) as [s1 [[]|e|]]; auto.
Qed.

Lemma retryItem_ext env retry1 retry2 t :
  (forall r s, uploadWith env retry1 r s = uploadWith env retry2 r s) ->
  forall r s, retryItem env retry1 t r s = retryItem env retry2 t r s.
Proof.
  intros H r s. unfold retryItem. mstep.
  destruct (heap s !! r) as [it|]; [|reflexivity].
  destruct (reachedMax env (retryCount it) (settings s !! "maxRetries"));
    [reflexivity|].
  mstep. apply H.
Qed.

Lemma sweepWith_ext env retry1 retry2 :
  (forall r s, uploadWith env retry1 r s = uploadWith env retry2 r s) ->
  forall s, sweepWith env retry1 s = sweepWith env retry2 s.
Proof.
  intros H s. unfold sweepWith. mstep.
  destruct (0 <? length (uploadQueue s)); [|reflexivity].
  now rewrite (for_of_ext _ _ _ (retryItem_ext env retry1 retry2 (now s) H)).
Qed.

Lemma uploadWith_offline_ext env retry1 retry2 r s :
  serverConnected s = false ->
  uploadWith env retry1 r s = uploadWith env retry2 r s.
Proof. intros Hc. now rewrite !uploadWith_offline. Qed.

(** While the server is not connected a sweep does not depend on the sweep
    its uploads would start. *)
Lemma sweepWith_offline_ext env retry1 retry2 s :
  serverConnected s = false ->
  sweepWith env retry1 s = sweepWith env retry2 s.
Proof.
  intros Hc. unfold sweepWith. mstep.
  destruct (0 <? length (uploadQueue s)); [|reflexivity].
  assert (Hloop : forall items s0,
            serverConnected s0 = false ->
            Forall (fun r => r < length (heap s0)) items ->
            for_of items (retryItem env retry1 (now s)) s0 =
            for_of items (retryItem env retry2 (now s)) s0).
  { induction items as [|r items IH]; intros s0 Hc0 Hv; [reflexivity|].
    inversion Hv as [|? ? Hr Hv']; subst.
    destruct (lookup_lt_is_Some_2 _ _ Hr) as [it Hit].
    destruct (retryItem_offline_quiet env retry2 (now s) r it s0 Hc0 Hit)
      as (Hok & (C1 & _ & _ & L1 & _) & _).
    cbn [for_of]. unfold bind.
    rewrite (retryItem_offline env retry1 (now s) r it s0 Hc0 Hit).
    rewrite <- (retryItem_offline env retry2 (now s) r it s0 Hc0 Hit).
    destruct (retryItem env retry2 (now s) r s0) as [s1 [[]|e|]]; auto.
    apply IH; [exact C1|]. cbn [fst] in L1. now rewrite L1. }
  now rewrite Hloop by (auto using retryableItems_valid).
Qed.

Lemma uploadWith_fuel env k r s :
  uploadWith env (scheduleRetryN env (S k)) r s =
  uploadWith env (scheduleRetryN env 1) r s.
Proof.
  destruct (serverConnected s) eqn:Hc;
    [|now apply uploadWith_offline_ext].
  destruct (heap s !! r) as [it|] eqn:Hit.
  - rewrite !(uploadWith_online env _ r it s Hc Hit).
    destruct (replySucceeds (fetchReply env (fetches s))); [reflexivity|].
    unfold unawaited. cbn [scheduleRetryN].
    now rewrite (sweepWith_offline_ext env (scheduleRetryN env k)
                   (scheduleRetryN env 0) _ (requeued_offline _ _)).
  - unfold uploadWith. mstep. rewrite Hc. mstep.
    repeat (rewrite Hit; mstep). reflexivity.
Qed.

(** More fuel changes nothing. *)
Lemma scheduleRetryN_fuel env k s :
  scheduleRetryN env (S (S k)) s = scheduleRetry env s.
Proof.
  unfold scheduleRetry. cbn [scheduleRetryN].
  apply sweepWith_ext. intros r s0.
  apply (uploadWith_fuel env k r s0).
Qed.

(** ** The ring of recent screenshots *)

Lemma processScreenshot_ring env d u ti rnd s :
  snd (processScreenshot env d u ti rnd s) = Ok tt /\
  screenshots (fst (processScreenshot env d u ti rnd s)) =
    Some (evict (ring s) ++ [length (heap s)]).
Proof.
  unfold processScreenshot, generateScreenshotId. mstep.
  match goal with
  | |- context [uploadScreenshot env (length (heap s)) ?s1] =>
      pose proof (uploadScreenshot_returns env (length (heap s)) s1) as Hok;
      pose proof (uploadScreenshot_ring env (length (heap s)) s1) as Hring;
      destruct (uploadScreenshot env (length (heap s)) s1) as [s2 res]
  end.
  cbn [fst snd heap set_heap screenshots] in Hok, Hring.
  rewrite Hok by (rewrite length_app; cbn; lia).
  unfold ring, evict. destruct s2. cbn [screenshots] in Hring. subst. mstep.
  destruct (screenshots s) as [shots|]; mstep;
    cbv [default from_option Datatypes.id];
    [destruct (10 <=? length shots) | ]; mstep; auto.
Qed.













(** ** Eligibility for a retry *)









(** The backoff delays of the first retries: 1 s, 2 s, 4 s, 8 s. *)
Lemma backoff_delays (it : Item) :
  map (fun n => backoffDelay (with_retry (Some n) (lastRetry it) it)) [0; 1; 2; 3]
  = [1000; 2000; 4000; 8000]%Z.
Proof. reflexivity. Qed.

(** ** Retries and the reachability check *)

Lemma retryItem_step env retry t r it s :
  heap s !! r = Some it ->
  reachedMax env (retryCount it) (settings s !! "maxRetries") = false ->
  retryItem env retry t r s =
    uploadWith env retry r
      (emit (EvConsole (LogRetrying (id it) (S (default 0 (retryCount it)))))
         (set_heap (<[r := retried t it]> (heap s)) s)).
Proof.
  intros Hr Hb. unfold retryItem. mstep. rewrite Hr, Hb. reflexivity.
Qed.

(** What the code does when the sweep retries an object that is within
    its retry budget: it increments retryCount, sets lastRetry and calls
    uploadScreenshot, whose first statement is the connectivity check.
    While serverConnected is false the call sends nothing and pushes the
    object; while serverConnected is true the POST is made. *)
Lemma sweep_retry_runs_whole_pipeline (env : Env) (k : nat) (t : Z)
    (r : ref) (it : Item) (s : State) :
  heap s !! r = Some it ->
  reachedMax env (retryCount it) (settings s !! "maxRetries") = false ->
  let s' := fst (retryItem env (scheduleRetryN env (S k)) t r s) in
  snd (retryItem env (scheduleRetryN env (S k)) t r s) = Ok tt /\
  (serverConnected s = false ->
     s' = set_uploadQueue (uploadQueue s ++ [r])
            (emit (EvConsole (LogRetrying (id it) (S (default 0 (retryCount it)))))
               (set_heap (<[r := retried t it]> (heap s)) s))) /\
  (serverConnected s = true ->
     fetches s < fetches s' /\
     In (EvPost (uploadTarget s) (id it)) (trace s')).
Proof.
  intros Hr Hb. cbv zeta. rewrite (retryItem_step env _ t r it s Hr Hb).
  set (s1 := emit _ _).
  assert (Hv : r < length (heap s1)).
  { unfold s1. cbn. rewrite length_insert. eapply lookup_lt_Some; eauto. }
  split; [now apply uploadWith_returns|]. split.
  - intros Hc. now rewrite uploadWith_offline.
  - intros Hc.
    assert (Hr1 : heap s1 !! r = Some (retried t it)).
    { unfold s1. cbn. apply list_lookup_insert_eq. eapply lookup_lt_Some; eauto. }
    rewrite (uploadWith_online env _ r (retried t it) s1 Hc Hr1).
    change (id (retried t it)) with (id it).
    assert (Hpost : fetches s < fetches (posted env (id it) s1) /\
                    In (EvPost (uploadTarget s) (id it))
                       (trace (posted env (id it) s1))).
    { unfold posted, fetch, s1. cbn. split; [apply Nat.lt_succ_diag_r|].
      rewrite !in_app_iff. cbn. auto. }
    destruct Hpost as [Hp1 Hp2].
    destruct (replySucceeds (fetchReply env (fetches s1))).
    + cbn. split; [exact Hp1|]. rewrite in_app_iff. now left.
    + destruct (scheduleRetryN_grows env (S k)
                  (requeued (retried t it) (posted env (id it) s1)))
        as [(l & El & _) Hf].
      change (fetches (requeued (retried t it) (posted env (id it) s1)))
        with (fetches (posted env (id it) s1)) in Hf.
      change (trace (requeued (retried t it) (posted env (id it) s1)))
        with (trace (posted env (id it) s1) ++ [EvNotify (StatusServer false)])
        in El.
      unfold unawaited.
      destruct (scheduleRetryN env (S k)
                  (requeued (retried t it) (posted env (id it) s1)))
        as [s2 [[]|e|]]; cbn [fst] in *;
        (split; [lia|]); rewrite El, !in_app_iff; auto.
Qed.

Lemma sweep_retry_runs_whole_pipeline_witness :
  uploadQueue
    (fst (retryItem envOffline (scheduleRetryN envOffline 1) 5000 0
            (queuedState false 5000 [itemA None None] [0] 3)))
  = [0; 0].
Proof.
  destruct (sweep_retry_runs_whole_pipeline envOffline 0 5000 0 (itemA None None)
              (queuedState false 5000 [itemA None None] [0] 3)
              eq_refl ltac:(vm_compute; reflexivity))
    as (_ & Hoff & _).
  rewrite (Hoff eq_refl). reflexivity.
Defined.

(** ** The drain started by the probe *)

Lemma set_uploadQueue_same s : set_uploadQueue (uploadQueue s) s = s.
Proof. now destruct s. Qed.

Lemma drainLoop_offline env q s :
  serverConnected s = false ->
  drainLoop env q s = (set_uploadQueue (uploadQueue s ++ q) s, Ok tt).
Proof.
  unfold drainLoop. revert s. induction q as [|r q IH]; intros s Hc.
  - cbn. now rewrite app_nil_r, set_uploadQueue_same.
  - cbn [for_of]. unfold bind at 1, try_catch at 1, uploadScreenshot at 1.
    rewrite uploadWith_offline by exact Hc.
    rewrite IH by exact Hc. cbn [uploadQueue set_uploadQueue].
    now rewrite <- app_assoc.
Qed.

(** A failed upload made while the queue is empty: the sweep started from
    the [catch] finds the copy just queued, not yet eligible, and only
    arms its timer. *)
Lemma uploadScreenshot_fails_alone env r it s :
  serverConnected s = true ->
  heap s !! r = Some it ->
  uploadQueue s = [] ->
  replySucceeds (fetchReply env (fetches s)) = false ->
  uploadScreenshot env r s =
    (addTimeout TaskSweep 5000 (requeued it (posted env (id it) s)),
     Ok tt).
Proof.
  intros Hc Hr Hq Hf. unfold uploadScreenshot.
  rewrite (uploadWith_online env _ r it s Hc Hr), Hf.
  cbn [scheduleRetryN]. unfold unawaited, sweepWith, requeued, posted, fetch.
  mstep. rewrite Hq. cbn [app length Nat.ltb Nat.leb]. mstep.
  match goal with
  | |- context [retryableItems ?t ?st] =>
      assert (E : retryableItems t st = [])
  end.
  { unfold retryableItems. mstep. cbn [List.filter].
    rewrite list_lookup_middle by reflexivity.
    unfold eligible, backoffDelay. cbn [retryCount lastRetry with_retry].
    rewrite Z.sub_diag. reflexivity. }
  rewrite E. reflexivity.
Qed.

Lemma uploadScreenshot_succeeds env r it s :
  serverConnected s = true ->
  heap s !! r = Some it ->
  replySucceeds (fetchReply env (fetches s)) = true ->
  uploadScreenshot env r s =
    (emit (EvNotify (StatusServer true))
       (set_serverConnected true (posted env (id it) s)), Ok tt).
Proof.
  intros Hc Hr Hf. unfold uploadScreenshot.
  now rewrite (uploadWith_online env _ r it s Hc Hr), Hf.
Qed.

Lemma posts_app l1 l2 : posts (l1 ++ l2) = posts l1 ++ posts l2.
Proof. unfold posts. apply flat_map_app. Qed.

Lemma drainLoop_cons env r q s s1 :
  uploadScreenshot env r s = (s1, Ok tt) ->
  drainLoop env (r :: q) s = drainLoop env q s1.
Proof.
  intros H. unfold drainLoop. cbn [for_of].
  unfold bind at 1, try_catch at 1. now rewrite H.
Qed.

Lemma omap_take_cons s r it k q :
  heap s !! r = Some it ->
  omap (idAt s) (take (S k) (r :: q)) = id it :: omap (idAt s) (take k q).
Proof. intros H. cbn. unfold idAt at 1. now rewrite H. Qed.

Lemma drainLoop_online env q : forall s,
  serverConnected s = true ->
  uploadQueue s = [] ->
  Forall (fun r => r < length (heap s)) q ->
  snd (drainLoop env q s) = Ok tt /\
  fetches (fst (drainLoop env q s)) =
    fetches s + min (S (leadingOk env (fetches s) (length q))) (length q) /\
  posts (trace (fst (drainLoop env q s))) =
    posts (trace s) ++
    omap (idAt s) (take (min (S (leadingOk env (fetches s) (length q))) (length q)) q) /\
  (leadingOk env (fetches s) (length q) = length q ->
     uploadQueue (fst (drainLoop env q s)) = [] /\
     serverConnected (fst (drainLoop env q s)) = true /\
     heap (fst (drainLoop env q s)) = heap s) /\
  (leadingOk env (fetches s) (length q) < length q ->
     exists r it tf,
       q !! leadingOk env (fetches s) (length q) = Some r /\
       heap s !! r = Some it /\
       uploadQueue (fst (drainLoop env q s)) =
         length (heap s) :: drop (S (leadingOk env (fetches s) (length q))) q /\
       heap (fst (drainLoop env q s)) =
         heap s ++ [with_retry (Some 0) (Some tf) it] /\
       serverConnected (fst (drainLoop env q s)) = false).
Proof.
  induction q as [|r q IH]; intros s Hc Hq Hv.
  - cbn. rewrite app_nil_r. repeat split; auto; lia.
  - inversion Hv as [|? ? Hr Hv']; subst.
    apply lookup_lt_is_Some_2 in Hr as [it Hit].
    cbn [length leadingOk].
    destruct (replySucceeds (fetchReply env (fetches s))) eqn:Hf.
    + rewrite (drainLoop_cons env r q s _
                 (uploadScreenshot_succeeds env r it s Hc Hit Hf)).
      set (s1 := emit _ _).
      destruct (IH s1) as (Hok & Hfe & Hpo & Hall & Hsome); auto.
      change (fetches s1) with (S (fetches s)) in *.
      change (heap s1) with (heap s) in *.
      split; [exact Hok|]. split; [rewrite Hfe; lia|]. split.
      * change (idAt s1) with (idAt s) in Hpo.
        rewrite Hpo. unfold s1, posted, fetch.
        cbn [trace emit set_platform set_serverConnected fst addTimeout set_timeouts timeouts].
        rewrite !posts_app. cbn [posts flat_map app].
        rewrite <- Nat.succ_min_distr, (omap_take_cons s r it _ q Hit).
        rewrite app_nil_r, <- app_assoc. reflexivity.
      * split.
        -- intros [= Hn]. apply Hall in Hn. exact Hn.
        -- intros Hlt. destruct Hsome as (r' & it' & tf & H1 & H2 & H3 & H4 & H5);
             [lia|].
           exists r', it', tf. repeat split; auto.
    + rewrite (drainLoop_cons env r q s _
                 (uploadScreenshot_fails_alone env r it s Hc Hit Hq Hf)).
      rewrite drainLoop_offline by reflexivity.
      unfold requeued, posted, fetch.
      cbn [fst snd fetches trace heap uploadQueue serverConnected emit now
           set_platform set_serverConnected set_uploadQueue set_heap addTimeout set_timeouts timeouts].
      rewrite Hq. cbn [app Nat.min drop].
      split; [reflexivity|]. split; [lia|]. split.
      * rewrite !posts_app, (omap_take_cons s r it 0 q Hit).
        cbn [posts flat_map app]. now rewrite !app_nil_r.
      * split; [discriminate|].
        intros _. exists r, it. eexists. repeat split; auto.
Qed.

Lemma processUploadQueue_drain env s :
  uploadQueue s <> [] ->
  processUploadQueue env s = drainLoop env (uploadQueue s) (set_uploadQueue [] s).
Proof.
  intros H. unfold processUploadQueue, drainLoop.
  cbv beta iota delta [bind gets modify].
  destruct (uploadQueue s); [congruence|]. reflexivity.
Qed.

Lemma checkServerConnection_drain env s status js :
  uploadQueue s <> [] ->
  Forall (fun r => r < length (heap s)) (uploadQueue s) ->
  outcome (fetchReply env (fetches s)) = HttpResponse true status js ->
  checkServerConnection env s =
    let sd := fst (drainLoop env (uploadQueue s)
                     (set_uploadQueue [] (set_serverConnected true (probed env s)))) in
    (addTimeout TaskProbe 30000
       (emit (EvNotify (StatusServer (serverConnected sd))) sd), Ok tt).
Proof.
  intros Hne Hv Hrep. cbv zeta.
  destruct (drainLoop_online env (uploadQueue s)
              (set_uploadQueue [] (set_serverConnected true (probed env s))))
    as (Hok & _); auto.
  assert (Hpos : (0 <? length (uploadQueue s)) = true).
  { destruct (uploadQueue s); [congruence|reflexivity]. }
  unfold checkServerConnection.
  cbv beta iota delta [bind gets modify try_catch fetch throw unawaited
                       setTimeout notifyPopup].
  cbn [fst snd uploadQueue set_serverConnected set_platform].
  rewrite Hrep. cbn [fst snd uploadQueue set_serverConnected set_platform].
  rewrite Hpos. cbn [andb].
  rewrite processUploadQueue_drain by exact Hne.
  cbn [uploadQueue set_serverConnected set_platform].
  unfold probed, fetch in *. cbn [fst] in *.
  match goal with
  | H : snd (drainLoop env ?q ?st) = Ok tt |- _ =>
      destruct (drainLoop env q st) as [sd res]
  end.
  cbn [fst snd] in *. subst res. reflexivity.
Qed.



(** ** States reached after the start *)

Lemma saveState_core env : preserves (same core) (saveState env).
Proof.
  intros s. unfold saveState. mstep. now destruct (storageOk env (saves s)).
Qed.

Lemma startCapture_core env : preserves (same core) (startCapture env).
Proof.
  pose proof (saveState_core env). unfold startCapture. pres_same core.
Qed.

Lemma stopCapture_core env : preserves (same core) (stopCapture env).
Proof.
  pose proof (saveState_core env). unfold stopCapture. pres_same core.
Qed.

Lemma updateSettings_core env ns : preserves (same core) (updateSettings env ns).
Proof.
  pose proof (saveState_core env). pose proof (startCapture_core env).
  pose proof (stopCapture_core env). unfold updateSettings. pres_same core.
Qed.

Lemma handleMessage_core env m : preserves (same core) (handleMessage env m).
Proof.
  pose proof (startCapture_core env). pose proof (stopCapture_core env).
  pose proof (updateSettings_core env). unfold handleMessage. pres_same core.
Qed.

Lemma queueWaitsOffline_core s s' :
  core s' = core s -> queueWaitsOffline s -> queueWaitsOffline s'.
Proof.
  unfold core, queueWaitsOffline. intros [= Hq Hh Hc]. now rewrite Hq, Hh, Hc.
Qed.

Lemma uploadScreenshot_waits env r s :
  r < length (heap s) ->
  queueWaitsOffline s ->
  queueWaitsOffline (fst (uploadScreenshot env r s)).
Proof.
  intros Hv [Hwf Hoff]. apply lookup_lt_is_Some_2 in Hv as [it Hit].
  destruct (serverConnected s) eqn:Hc.
  - assert (Hq : uploadQueue s = []).
    { destruct (uploadQueue s); [reflexivity|]. discriminate Hoff. discriminate. }
    destruct (replySucceeds (fetchReply env (fetches s))) eqn:Hf.
    + rewrite (uploadScreenshot_succeeds env r it s Hc Hit Hf).
      split; cbn; rewrite Hq; [constructor|congruence].
    + rewrite (uploadScreenshot_fails_alone env r it s Hc Hit Hq Hf).
      split; cbn; [|reflexivity].
      rewrite Hq. repeat constructor. rewrite length_app. cbn. lia.
  - unfold uploadScreenshot. rewrite uploadWith_offline by exact Hc.
    split; cbn; [|intros _; exact Hc].
    apply Forall_app. split; [exact Hwf|]. repeat constructor.
    eapply lookup_lt_Some; eauto.
Qed.

Lemma processScreenshot_waits env d u ti rnd s :
  queueWaitsOffline s ->
  queueWaitsOffline (fst (processScreenshot env d u ti rnd s)).
Proof.
  intros [Hwf Hoff]. unfold processScreenshot, generateScreenshotId. mstep.
  match goal with
  | |- context [uploadScreenshot env (length (heap s)) ?s1] =>
      pose proof (uploadScreenshot_returns env (length (heap s)) s1) as Hok;
      pose proof (uploadScreenshot_waits env (length (heap s)) s1) as Hinv;
      destruct (uploadScreenshot env (length (heap s)) s1) as [s2 res]
  end.
  cbn [fst snd heap set_heap uploadQueue serverConnected] in Hok, Hinv.
  rewrite Hok by (rewrite length_app; cbn; lia).
  assert (H2 : queueWaitsOffline s2).
  { apply Hinv; [rewrite length_app; cbn; lia|]. split; cbn.
    - eapply Forall_impl; [exact Hwf|]. intros x Hx. cbv beta in *.
      rewrite length_app. lia.
    - exact Hoff. }
  clear Hok Hinv. destruct s2. mstep.
  destruct screenshots0 as [shots|]; mstep;
    cbv [default from_option Datatypes.id];
    [destruct (10 <=? length shots) | ]; mstep; exact H2.
Qed.

Lemma captureScreenshot_waits env inp s :
  queueWaitsOffline s ->
  queueWaitsOffline (fst (captureScreenshot env inp s)).
Proof.
  intros Hs. unfold captureScreenshot.
  destruct (activeTab inp) as [| |[u|] ti]; try exact Hs.
  destruct (String.eqb u "" || disallowedUrl u); [exact Hs|].
  rewrite try_catch_gets_modify.
  set (s1 := emit _ s).
  assert (H1 : queueWaitsOffline s1) by exact Hs.
  clearbody s1. clear Hs.
  destruct (visibleTab inp) as [|[d|]]; try exact H1.
  destruct (String.eqb d ""); [exact H1|].
  pose proof (processScreenshot_waits env d u ti (random inp) s1 H1) as H2.
  destruct (processScreenshot_ring env d u ti (random inp) s1) as [Hok _].
  destruct (processScreenshot env d u ti (random inp) s1) as [s2 res] eqn:E.
  cbn [fst snd] in *. subst res.
  unfold try_catch. rewrite (bind_ok _ _ _ _ _ E). mstep.
  destruct (storageOk env (saves s2)); mstep; exact H2.
Qed.

Lemma for_of_retry_offline_waits env retry t items s :
  serverConnected s = false ->
  Forall (fun r => r < length (heap s)) items ->
  Forall (fun r => r < length (heap s)) (uploadQueue s) ->
  Forall (fun r => r < length (heap (fst (for_of items (retryItem env retry t) s))))
    (uploadQueue (fst (for_of items (retryItem env retry t) s))).
Proof.
  revert s. induction items as [|r items IH]; intros s Hc Hv Hq; [exact Hq|].
  inversion Hv as [|? ? Hr Hv']; subst.
  destruct (lookup_lt_is_Some_2 _ _ Hr) as [it Hit].
  destruct (retryItem_offline_quiet env retry t r it s Hc Hit)
    as (Hok & (C1 & _ & _ & L1 & _) & _).
  assert (Hq1 : Forall (fun x => x < length (heap s))
                  (uploadQueue (fst (retryItem env retry t r s)))).
  { rewrite (retryItem_offline env retry t r it s Hc Hit).
    destruct (reachedMax env (retryCount it) (settings s !! "maxRetries")); cbn.
    - apply List.Forall_forall. intros x Hx. apply filter_In in Hx as [Hx _].
      rewrite List.Forall_forall in Hq. now apply Hq.
    - apply Forall_app. split; [exact Hq|]. now repeat constructor. }
  cbn [for_of].
  destruct (retryItem env retry t r s) as [s1 res] eqn:E.
  cbn [fst snd] in *. subst res. rewrite (bind_ok _ _ _ _ _ E).
  apply IH; [exact C1| |]; now rewrite L1.
Qed.

Lemma scheduleRetry_waits env s :
  queueWaitsOffline s ->
  queueWaitsOffline (fst (scheduleRetry env s)) /\
  fetches (fst (scheduleRetry env s)) = fetches s /\
  posts (trace (fst (scheduleRetry env s))) = posts (trace s).
Proof.
  intros [Hwf Hoff]. unfold scheduleRetry.
  change (scheduleRetryN env 2) with (sweepWith env (scheduleRetryN env 1)).
  generalize (scheduleRetryN env 1) as retry. intros retry.
  destruct (uploadQueue s) as [|r0 q0] eqn:Eq.
  - unfold sweepWith. mstep. rewrite Eq. cbn [length Nat.ltb Nat.leb]. mstep.
    repeat split; cbn; try rewrite Eq; auto; try congruence.
    rewrite posts_app. cbn. now rewrite app_nil_r.
  - assert (Hc : serverConnected s = false) by (apply Hoff; discriminate).
    destruct (sweepWith_offline env retry s Hc)
      as (_ & (C1 & F1 & _ & L1 & _ & l & El & Hl) & _).
    split; [split; [|intros _; exact C1]|split; [exact F1|]].
    + unfold sweepWith. mstep. rewrite Eq. cbn [length Nat.ltb Nat.leb]. mstep.
      pose proof (for_of_retry_offline_waits env retry (now s)
                    (retryableItems (now s) s) s Hc (retryableItems_valid _ _))
        as Hq.
      rewrite Eq in Hq. specialize (Hq Hwf).
      destruct (for_of (retryableItems (now s) s)
                  (retryItem env retry (now s)) s)
        as [s1 [[]|e|]]; exact Hq.
    + rewrite El, posts_app.
      assert (Hp : posts l = []).
      { clear El. induction l as [|e l IHl]; [reflexivity|].
        inversion Hl as [|? ? He Hl']; subst.
        destruct e; try discriminate He; cbn; auto. }
      now rewrite Hp, app_nil_r.
Qed.

Lemma checkServerConnection_waits env s :
  queueWaitsOffline s ->
  queueWaitsOffline (fst (checkServerConnection env s)).
Proof.
  intros [Hwf Hoff].
  destruct (outcome (fetchReply env (fetches s))) as [|[] status js] eqn:Hrep.
  - unfold checkServerConnection.
    cbv beta iota zeta delta [bind gets modify try_catch fetch throw unawaited
                         setTimeout notifyPopup].
    rewrite Hrep. split; cbn; auto.
  - destruct (decide (uploadQueue s = [])) as [Eq|Hne].
    + unfold checkServerConnection.
      cbv beta iota zeta delta [bind gets modify try_catch fetch throw unawaited
                           setTimeout notifyPopup ret].
      rewrite Hrep. cbn [fst snd uploadQueue set_serverConnected set_platform].
      rewrite Eq. cbn [length Nat.ltb Nat.leb andb].
      split; cbn; rewrite Eq; [constructor|congruence].
    + rewrite (checkServerConnection_drain env s status js Hne Hwf Hrep).
      cbv zeta. cbn [fst].
      destruct (drainLoop_online env (uploadQueue s)
                  (set_uploadQueue [] (set_serverConnected true (probed env s))))
        as (_ & _ & _ & Hall & Hsome); auto.
      set (sd := fst (drainLoop env (uploadQueue s) _)) in *.
      change (heap (set_uploadQueue [] (set_serverConnected true (probed env s))))
        with (heap s) in *.
      set (n := leadingOk env _ _) in *.
      unfold queueWaitsOffline.
      change (uploadQueue (addTimeout _ _ (emit _ sd))) with (uploadQueue sd).
      change (heap (addTimeout _ _ (emit _ sd))) with (heap sd).
      change (serverConnected (addTimeout _ _ (emit _ sd))) with (serverConnected sd).
      destruct (Nat.lt_ge_cases n (length (uploadQueue s))) as [Hlt|Hge].
      * destruct (Hsome Hlt) as (r & it & tf & _ & _ & Hq & Hh & Hc).
        rewrite Hq, Hh. split; [|intros _; exact Hc].
        constructor; [rewrite length_app; cbn; lia|].
        apply List.Forall_forall. intros x Hx.
        apply list_elem_of_In, (subseteq_drop _ _ x), list_elem_of_In in Hx.
        rewrite List.Forall_forall in Hwf.
        apply Hwf in Hx. rewrite length_app. lia.
      * assert (Hn : n = length (uploadQueue s)).
        { pose proof (Nat.le_min_r (S n) (length (uploadQueue s))).
          assert (n <= length (uploadQueue s)); [|lia].
          unfold n. generalize (fetches (set_uploadQueue []
                       (set_serverConnected true (probed env s)))).
          generalize (length (uploadQueue s)) as m.
          induction m as [|m IHm]; intros k; cbn; [lia|].
          destruct (replySucceeds (fetchReply env k)); [|lia].
          specialize (IHm (S k)). lia. }
        destruct (Hall Hn) as (Hq & _). rewrite Hq.
        split; [constructor|congruence].
  - unfold checkServerConnection.
    cbv beta iota zeta delta [bind gets modify try_catch fetch throw unawaited
                         setTimeout notifyPopup ret].
    rewrite Hrep. cbn [andb]. split; cbn; auto.
Qed.

Lemma advanceTo_waits t s : queueWaitsOffline s -> queueWaitsOffline (advanceTo t s).
Proof. intros H. exact H. Qed.

Lemma activate_waits env s a :
  queueWaitsOffline s -> queueWaitsOffline (activate env s a).
Proof.
  intros H. unfold activate.
  destruct (snd a) as [m|inp|task].
  - eapply queueWaitsOffline_core; [apply handleMessage_core|].
    now apply advanceTo_waits.
  - destruct (intervals s); [exact H|].
    now apply captureScreenshot_waits, advanceTo_waits.
  - destruct (fire task (fst a) (timeouts s)) as [rest|]; [|exact H].
    assert (H' : queueWaitsOffline (advanceTo (fst a) (set_timeouts rest s)))
      by exact H.
    destruct task; cbn [runTask].
    + now apply scheduleRetry_waits.
    + now apply checkServerConnection_waits.
Qed.

Lemma run_waits env schedule s :
  queueWaitsOffline s -> queueWaitsOffline (run env schedule s).
Proof.
  revert s. induction schedule as [|a schedule IH]; intros s H; [exact H|].
  cbn. apply IH. now apply activate_waits.
Qed.

Lemma boot_waits env stored : queueWaitsOffline (boot env stored).
Proof.
  unfold boot, init, loadState.
  assert (H0 : queueWaitsOffline initialState).
  { split; [constructor|]. intros Hne. now contradiction Hne. }
  destruct stored as [r|]; mstep.
  - assert (Hw := checkServerConnection_waits env (restore r initialState) H0).
    now destruct (checkServerConnection env (restore r initialState)) as [s' [[]|e|]].
  - assert (Hw := checkServerConnection_waits env initialState H0).
    now destruct (checkServerConnection env initialState) as [s' [[]|e|]].
Qed.

(** In every state the coordinator reaches after its start, activation
    after activation, the queue holds items only while serverConnected is
    false; so no sweep ever sends a request. *)
Lemma reachable_sweeps_send_nothing (env : Env) (stored : option Stored)
    (schedule : list (Z * Activation)) (t : Z) :
  let s := run env schedule (boot env stored) in
  (uploadQueue s <> [] -> serverConnected s = false) /\
  fetches (activate env s (t, OnTimeout TaskSweep)) = fetches s /\
  posts (trace (activate env s (t, OnTimeout TaskSweep))) = posts (trace s).
Proof.
  cbv zeta.
  assert (H : queueWaitsOffline (run env schedule (boot env stored))).
  { apply run_waits, boot_waits. }
  split; [apply H|].
  unfold activate. cbn [fst snd].
  destruct (fire TaskSweep t (timeouts _)) as [rest|]; [|split; reflexivity].
  set (s := run env schedule (boot env stored)) in *.
  assert (H' : queueWaitsOffline (advanceTo t (set_timeouts rest s))) by exact H.
  now destruct (scheduleRetry_waits env _ H') as (_ & Hf & Hp).
Qed.

(** ** The retry budget *)

(** C1 fails on the code.  The extension starts and finds the server;
    maxRetries is set to 1.  A capture is made and its upload fails: a
    copy with retryCount 0 is queued.  The sweep retries it (retryCount 1,
    the budget), the server not being connected it is queued again.  The
    probe finds the server and drains the queue; the upload fails, and a
    new copy with retryCount 0 is queued.  The next sweep retries that
    copy, the second retry of this screenshot, before it removes the
    screenshot for having reached the maximum. *)
Theorem retry_budget_restarts_after_failed_upload :
  let sid := "screenshot_22000_k3j9x0q2a" in
  let s := run envFlaky budgetSchedule (boot envFlaky (Some noStored)) in
  settings s !! "maxRetries" = Some (JNum (Num.of_Z 1)) /\
  retriesOf sid (trace s) = 2 /\
  omap (fun e => match e with EvConsole m => Some m | _ => None end) (trace s)
  = [LogRetrying sid 1; LogRetrying sid 1; LogMaxRetries sid] /\
  posts (trace s) = [sid; sid] /\
  uploadQueue s = [].
Proof. vm_compute. repeat split; reflexivity. Qed.

(** When two uploads overlap, one failing and the other succeeding after
    it, the queue holds a PendingUpload while serverConnected is true.
    From such a state, if the retry's POST fails, the next sweep removes
    the screenshot (max retries reached), goes on to retry the copy that
    its snapshot still holds, and leaves that id in the queue. *)
Lemma sweep_retries_copy_after_drop :
  let s0 := set_timeouts [(1000%Z, TaskSweep)]
              (queuedState true 0 [itemA (Some 0) (Some 0%Z)] [0] 1) in
  let s := run envOffline [(1000%Z, OnTimeout TaskSweep);
                           (6000%Z, OnTimeout TaskSweep)] s0 in
  omap (fun e => match e with EvConsole m => Some m | _ => None end) (trace s)
  = [LogRetrying "a" 1; LogMaxRetries "a"; LogRetrying "a" 1] /\
  uploadQueue s = [1] /\
  idAt s 1 = Some "a".
Proof. vm_compute. repeat split; reflexivity. Qed.

(** * The rest of the coordinator, and its callers: properties *)

(** ** The control surface *)

Lemma startCapture_returns env s : snd (startCapture env s) = Ok tt.
Proof.
  destruct (isCapturing s) eqn:E.
  - now rewrite startCapture_noop.
  - now destruct (startCapture_arms env s E).
Qed.

Lemma stopCapture_returns env s : snd (stopCapture env s) = Ok tt.
Proof.
  destruct (isCapturing s) eqn:E.
  - unfold stopCapture. mstep. rewrite E. mstep.
    destruct (storageOk env (saves s)); mstep;
      destruct (captureTimer s) as [[|t]|]; reflexivity.
  - now rewrite stopCapture_noop.
Qed.

Lemma saveState_returns env s : snd (saveState env s) = Ok tt.
Proof. unfold saveState. mstep. now destruct (storageOk env (saves s)). Qed.

Lemma run_ok {A} (m : M A) (s : State) (a : A) :
  snd (m s) = Ok a -> m s = (fst (m s), Ok a).
Proof. destruct (m s) as [s' r]. cbn. now intros ->. Qed.

Lemma updateSettings_returns env ns s :
  snd (updateSettings env (Some ns) s) = Ok tt.
Proof.
  unfold updateSettings.
  rewrite (bind_ok _ _ s _ tt eq_refl).
  rewrite (bind_ok _ _ _ _ tt (run_ok _ _ _ (saveState_returns env _))).
  rewrite (bind_ok _ _ _ _ _ eq_refl).
  destruct (truthy (ns !! "captureInterval") && _); [|reflexivity].
  rewrite (bind_ok _ _ _ _ tt (run_ok _ _ _ (stopCapture_returns env _))).
  destruct (ns !! "captureInterval") as [v|].
  - rewrite (bind_ok _ _ _ _ tt eq_refl). apply startCapture_returns.
  - rewrite (bind_ok _ _ _ _ tt eq_refl). apply startCapture_returns.
Qed.

(** X1.  Every request is answered, and with [success: true] unless the
    action is unknown or updateSettings comes without a settings object; a
    storage failure never shows. The requests that only read leave the state
    as it is. *)
Theorem every_request_is_answered (env : Env) (m : Message) (s : State) :
  exists r : Response,
    snd (handleMessage env m s) = Ok r /\
    success r = negb (rejected m) /\
    (success r = false ->
     error r = Some (match m with
                     | UpdateSettings _ => MessageOf TypeErrorUndefined
                     | _ => UnknownAction
                     end)) /\
    match m with
    | GetState | GetSettings | GetScreenshotStats | OtherAction _ =>
        fst (handleMessage env m s) = s
    | _ => True
    end.
Proof.
  unfold handleMessage. destruct m as [| | |[ns|]| | |a]; cbn [rejected negb].
  - eexists. repeat split; intros; discriminate.
  - mstep. rewrite (run_ok _ _ _ (startCapture_returns env s)).
    eexists. repeat split; intros; discriminate.
  - mstep. rewrite (run_ok _ _ _ (stopCapture_returns env s)).
    eexists. repeat split; intros; discriminate.
  - mstep. rewrite (run_ok _ _ _ (updateSettings_returns env ns s)).
    eexists. repeat split; intros; discriminate.
  - unfold updateSettings. mstep.
    destruct (storageOk env (saves s)); eexists; repeat split.
  - eexists. repeat split; intros; discriminate.
  - eexists. repeat split; intros; discriminate.
  - eexists. repeat split.
Qed.

Lemma handleMessage_beyondControl env m :
  preserves (same beyondControl) (handleMessage env m).
Proof.
  assert (Hsave : preserves (same beyondControl) (saveState env)).
  { intros s. unfold saveState. mstep. now destruct (storageOk env (saves s)). }
  assert (Hstart : preserves (same beyondControl) (startCapture env)).
  { unfold startCapture. pres_same beyondControl. }
  assert (Hstop : preserves (same beyondControl) (stopCapture env)).
  { unfold stopCapture. pres_same beyondControl. }
  assert (Hupd : forall ns, preserves (same beyondControl) (updateSettings env ns)).
  { intros ns. unfold updateSettings. pres_same beyondControl. }
  unfold handleMessage. pres_same beyondControl.
Qed.

(** X2.  No request, whatever it carries, changes the upload queue, the
    screenshot objects, the ring, the capture counters, the server flag or
    the server endpoint, sends anything over the network or arms a timeout:
    a serverUrl given to updateSettings does not move the endpoints. *)
Theorem requests_leave_pipeline_alone (env : Env) (m : Message) (s : State) :
  let s' := fst (handleMessage env m s) in
  beyondControl s' = beyondControl s /\
  uploadTarget s' = uploadTarget s /\
  healthTarget s' = healthTarget s.
Proof.
  cbv zeta.
  pose proof (handleMessage_beyondControl env m s) as H.
  split; [exact H|].
  unfold same, beyondControl in H.
  injection H as _ _ _ _ _ _ Hurl _ _ _.
  unfold uploadTarget, healthTarget. rewrite Hurl.
  split; reflexivity.
Qed.
Lemma saveState_state env s :
  fst (saveState env s) =
  set_platform (now s) (intervals s) (nextTimer s) (fetches s) (S (saves s))
    (trace s ++ [EvStorageSet (isCapturing s) (storageOk env (saves s))]) s.
Proof. unfold saveState. mstep. now destruct (storageOk env (saves s)). Qed.

Lemma startCapture_effects env s :
  isCapturing s = false ->
  trace (fst (startCapture env s)) =
    trace s ++ [EvStorageSet true (storageOk env (saves s));
                EvSetInterval (nextTimer s) (captureInterval s);
                EvNotify (StatusCapturing true)] /\
  saves (fst (startCapture env s)) = S (saves s) /\
  captureInterval (fst (startCapture env s)) = captureInterval s /\
  settings (fst (startCapture env s)) = settings s.
Proof.
  intros H. unfold startCapture. mstep. rewrite H. mstep.
  destruct (storageOk env (saves s)); mstep; rewrite <- !app_assoc; auto.
Qed.

Lemma stopCapture_effects env s t :
  isCapturing s = true -> captureTimer s = Some t -> 0 < t ->
  trace (fst (stopCapture env s)) =
    trace s ++ [EvStorageSet false (storageOk env (saves s));
                EvClearInterval t;
                EvNotify (StatusCapturing false)] /\
  saves (fst (stopCapture env s)) = S (saves s) /\
  captureInterval (fst (stopCapture env s)) = captureInterval s /\
  settings (fst (stopCapture env s)) = settings s.
Proof.
  intros H Ht Hpos. unfold stopCapture. mstep. rewrite H. mstep.
  destruct (storageOk env (saves s)); mstep; rewrite Ht;
    (destruct t as [|t']; [lia|]); mstep; rewrite <- !app_assoc; auto.
Qed.

(** The state in which the merged settings have been persisted. *)
Lemma updateSettings_steps env ns s :
  fst (updateSettings env (Some ns) s) =
  let s1 := fst (saveState env (set_settings (ns ∪ settings s) s)) in
  match ns !! "captureInterval" with
  | Some v =>
      if truthy (Some v) && isCapturing s
      then fst (startCapture env (set_captureInterval v (fst (stopCapture env s1))))
      else s1
  | None => s1
  end.
Proof.
  cbv zeta. unfold updateSettings.
  rewrite (bind_ok _ _ s _ tt eq_refl).
  rewrite (bind_ok _ _ _ _ tt (run_ok _ _ _ (saveState_returns env _))).
  rewrite (bind_ok _ _ _ _ _ eq_refl).
  assert (Hc : isCapturing (fst (saveState env (set_settings (default ∅ (Some ns) ∪ settings s) s)))
               = isCapturing s).
  { unfold saveState. mstep. now destruct (storageOk env (saves s)). }
  rewrite Hc. cbn [default from_option Datatypes.id].
  destruct (ns !! "captureInterval") as [v|] eqn:Hns; [|reflexivity].
  destruct (truthy (Some v) && isCapturing s); [|reflexivity].
  rewrite (bind_ok _ _ _ _ tt (run_ok _ _ _ (stopCapture_returns env _))).
  now rewrite (bind_ok _ _ _ _ tt eq_refl).
Qed.

Lemma rearm_state (env : Env) (ns : gmap string JsVal)
    (v : JsVal) (s : State) (t : nat) :
  ns !! "captureInterval" = Some v ->
  truthy (Some v) = true ->
  isCapturing s = true ->
  captureTimer s = Some t ->
  0 < t ->
  let s' := fst (updateSettings env (Some ns) s) in
  isCapturing s' = true /\
  captureInterval s' = v /\
  captureTimer s' = Some (nextTimer s) /\
  intervals s' =
    List.filter (fun u => negb (Nat.eqb u t)) (intervals s) ++ [nextTimer s] /\
  settings s' = ns ∪ settings s /\
  exists ok1 ok2 ok3,
    trace s' = trace s ++
      [EvStorageSet true ok1; EvStorageSet false ok2; EvClearInterval t;
       EvNotify (StatusCapturing false); EvStorageSet true ok3;
       EvSetInterval (nextTimer s) v; EvNotify (StatusCapturing true)].
Proof.
  intros Hns Hv Hcap Ht Hpos. cbv zeta.
  rewrite updateSettings_steps. cbv zeta. rewrite Hns, Hv, Hcap. cbn [andb].
  set (s1 := fst (saveState env (set_settings (ns ∪ settings s) s))).
  assert (H1 : isCapturing s1 = true /\ captureTimer s1 = Some t /\
               intervals s1 = intervals s /\ nextTimer s1 = nextTimer s /\
               settings s1 = ns ∪ settings s /\
               trace s1 = trace s ++ [EvStorageSet true (storageOk env (saves s))]).
  { unfold s1. rewrite saveState_state. cbn. rewrite Hcap. auto 10. }
  destruct H1 as (C1 & T1 & I1 & N1 & S1 & Tr1).
  destruct (stopCapture_disarms env s1 t C1 T1 Hpos) as (_ & C2 & T2 & I2 & N2).
  destruct (stopCapture_effects env s1 t C1 T1 Hpos) as (Tr2 & _ & _ & S2).
  set (s2 := fst (stopCapture env s1)) in *.
  set (s3 := set_captureInterval v s2).
  assert (C3 : isCapturing s3 = false) by exact C2.
  destruct (startCapture_arms env s3 C3) as (_ & C4 & T4 & I4 & N4).
  destruct (startCapture_effects env s3 C3) as (Tr4 & _ & P4 & S4).
  repeat split.
  - exact C4.
  - exact P4.
  - rewrite T4. cbn. now rewrite N2, N1.
  - rewrite I4. cbn. now rewrite I2, I1, N2, N1.
  - rewrite S4. cbn. now rewrite S2.
  - do 3 eexists. rewrite Tr4. cbn. rewrite Tr2, Tr1, N2, N1.
    rewrite <- !app_assoc. reflexivity.
Qed.

(** X3.  updateSettings with a captureInterval that is truthy, while
    capturing: the settings are merged and persisted, the running timer is
    cleared and one new timer is armed with the new period; the capturing
    flag is set again when it returns. *)
Theorem updateSettings_rearms_timer (env : Env) (ns : gmap string JsVal)
    (v : JsVal) (s : State) (t : nat) :
  ns !! "captureInterval" = Some v ->
  truthy (Some v) = true ->
  isCapturing s = true ->
  captureTimer s = Some t ->
  0 < t ->
  let s' := fst (updateSettings env (Some ns) s) in
  isCapturing s' = true /\
  captureInterval s' = v /\
  captureTimer s' = Some (nextTimer s) /\
  intervals s' =
    List.filter (fun u => negb (Nat.eqb u t)) (intervals s) ++ [nextTimer s] /\
  settings s' = ns ∪ settings s /\
  exists ok1 ok2 ok3,
    trace s' = trace s ++
      [EvStorageSet true ok1; EvStorageSet false ok2; EvClearInterval t;
       EvNotify (StatusCapturing false); EvStorageSet true ok3;
       EvSetInterval (nextTimer s) v; EvNotify (StatusCapturing true)].
Proof. exact (rearm_state env ns v s t). Qed.

Lemma updateSettings_rearms_timer_witness :
  let s := fst (startCapture envOffline initialState) in
  let s' := fst (updateSettings envOffline
                   (Some {["captureInterval" := JNum (Num.of_Z 3000)]}) s) in
  captureInterval s' = JNum (Num.of_Z 3000) /\ intervals s' = [2].
Proof.
  cbv zeta.
  destruct (updateSettings_rearms_timer envOffline
              {["captureInterval" := JNum (Num.of_Z 3000)]}
              (JNum (Num.of_Z 3000))
              (fst (startCapture envOffline initialState)) 1)
    as (_ & H2 & _ & H4 & _).
  - reflexivity.
  - reflexivity.
  - reflexivity.
  - reflexivity.
  - lia.
  - split; [exact H2 | exact H4].
Defined.

(** X4.  updateSettings while not capturing merges and persists the settings
    and nothing more: the period of the capture timer stays what it was, and
    it is that period, not the captureInterval just sent, that the next
    startCapture arms the timer with. *)
Theorem updateSettings_idle_keeps_period (env : Env) (ns : gmap string JsVal)
    (s : State) :
  isCapturing s = false ->
  let s1 := fst (updateSettings env (Some ns) s) in
  s1 = fst (saveState env (set_settings (ns ∪ settings s) s)) /\
  captureInterval s1 = captureInterval s /\
  captureTimer s1 = captureTimer s /\
  intervals s1 = intervals s /\
  exists ok1 ok2,
    trace (fst (startCapture env s1)) =
      trace s ++ [EvStorageSet false ok1; EvStorageSet true ok2;
                  EvSetInterval (nextTimer s) (captureInterval s);
                  EvNotify (StatusCapturing true)].
Proof.
  intros Hcap. cbv zeta. rewrite updateSettings_steps. cbv zeta.
  rewrite Hcap.
  assert (E : match ns !! "captureInterval" with
              | Some v =>
                  if truthy (Some v) && false
                  then fst (startCapture env
                              (set_captureInterval v
                                 (fst (stopCapture env
                                         (fst (saveState env
                                                 (set_settings (ns ∪ settings s) s)))))))
                  else fst (saveState env (set_settings (ns ∪ settings s) s))
              | None => fst (saveState env (set_settings (ns ∪ settings s) s))
              end = fst (saveState env (set_settings (ns ∪ settings s) s))).
  { destruct (ns !! "captureInterval"); [|reflexivity].
    now rewrite Bool.andb_false_r. }
  rewrite E. clear E.
  split; [reflexivity|].
  rewrite saveState_state.
  set (s1 := set_platform _ _ _ _ _ _ _).
  split; [reflexivity|]. split; [reflexivity|]. split; [reflexivity|].
  assert (C1 : isCapturing s1 = false) by exact Hcap.
  destruct (startCapture_effects env s1 C1) as (Tr & _).
  do 2 eexists. rewrite Tr. unfold s1. cbn. rewrite Hcap.
  rewrite <- app_assoc. reflexivity.
Qed.

Lemma updateSettings_idle_keeps_period_witness :
  captureInterval
    (fst (updateSettings envOffline
            (Some {["captureInterval" := JNum (Num.of_Z 3000)]}) initialState))
  = JNum (Num.of_Z 1500).
Proof.
  destruct (updateSettings_idle_keeps_period envOffline
              {["captureInterval" := JNum (Num.of_Z 3000)]} initialState)
    as (_ & H & _).
  - reflexivity.
  - exact H.
Defined.

(** ** What the upload machinery never touches *)

Lemma uploadWith_beyond env retry r :
  preserves (same beyondUpload) retry ->
  preserves (same beyondUpload) (uploadWith env retry r).
Proof. intros Hr. unfold uploadWith. pres_same beyondUpload. Qed.

Lemma retryItem_beyond env retry t r :
  preserves (same beyondUpload) retry ->
  preserves (same beyondUpload) (retryItem env retry t r).
Proof.
  intros Hr. pose proof (uploadWith_beyond env retry r Hr).
  unfold retryItem. pres_same beyondUpload.
Qed.

Lemma sweepWith_beyond env retry :
  preserves (same beyondUpload) retry ->
  preserves (same beyondUpload) (sweepWith env retry).
Proof.
  intros Hr. pose proof (fun t r => retryItem_beyond env retry t r Hr).
  unfold sweepWith. pres_same beyondUpload.
Qed.

Lemma scheduleRetryN_beyond env fuel :
  preserves (same beyondUpload) (scheduleRetryN env fuel).
Proof.
  induction fuel as [|k IH]; cbn [scheduleRetryN].
  - apply (preserves_out_of_fuel _ (same_refl beyondUpload)).
  - now apply sweepWith_beyond.
Qed.

Lemma uploadScreenshot_beyond env r :
  preserves (same beyondUpload) (uploadScreenshot env r).
Proof. apply uploadWith_beyond, scheduleRetryN_beyond. Qed.

Lemma checkServerConnection_beyond env :
  preserves (same beyondUpload) (checkServerConnection env).
Proof.
  pose proof (uploadScreenshot_beyond env).
  unfold checkServerConnection, processUploadQueue. pres_same beyondUpload.
Qed.

Lemma processScreenshot_beyond env d u ti rnd :
  preserves (same beyondUpload) (processScreenshot env d u ti rnd).
Proof.
  pose proof (uploadScreenshot_beyond env).
  unfold processScreenshot, generateScreenshotId. pres_same beyondUpload.
Qed.

(** X5.  Uploads, sweeps and probes work on the queue, the screenshot
    objects and the server flag only: they never change the capturing flag,
    the capture timer and its period, the screenshot count, the time of the
    last capture, the settings or the server URL, and never write to the
    storage, so that what [saveState] would persist stays the same. *)
Theorem upload_machinery_leaves_capture_state (env : Env) (s : State) (r : ref) :
  let unchanged s' := beyondUpload s' = beyondUpload s /\ savedState s' = savedState s in
  unchanged (fst (uploadScreenshot env r s)) /\
  unchanged (fst (scheduleRetry env s)) /\
  unchanged (fst (processUploadQueue env s)) /\
  unchanged (fst (checkServerConnection env s)).
Proof.
  assert (H : forall s', beyondUpload s' = beyondUpload s ->
                         beyondUpload s' = beyondUpload s /\ savedState s' = savedState s).
  { intros s' Hb. split; [exact Hb|].
    unfold beyondUpload in Hb. injection Hb as H1 H2 H3 H4 _ _ H7 _ _ _.
    unfold savedState. now rewrite H1, H2, H3, H4, H7. }
  assert (Hp : preserves (same beyondUpload) (processUploadQueue env)).
  { pose proof (uploadScreenshot_beyond env).
    unfold processUploadQueue. pres_same beyondUpload. }
  cbv zeta. split; [|split; [|split]]; apply H.
  - apply (uploadScreenshot_beyond env r s).
  - apply (scheduleRetryN_beyond env 2 s).
  - apply (Hp s).
  - apply (checkServerConnection_beyond env s).
Qed.

(** ** The capture tick *)

Lemma takesShot_successfulTick inp : takesShot inp = true <-> successfulTick inp.
Proof.
  unfold takesShot, successfulTick, capturable. split.
  - destruct (activeTab inp) as [| |[u|] ti]; try discriminate.
    destruct (visibleTab inp) as [|[d|]]; try discriminate.
    intros H. apply andb_prop in H as [H1 H2].
    apply Bool.negb_true_iff in H1, H2.
    apply Bool.orb_false_iff in H1 as [H1 H1'].
    split; [exists u, ti | exists d]; auto.
  - intros [(u & ti & -> & Hu & Hd) (d & -> & Hne)].
    now rewrite Hu, Hd, Hne.
Qed.

(** The part of a tick that follows the screenshot. *)
Lemma capture_tail_counts env d u ti rnd s :
  let s' := fst (try_catch
             (processScreenshot env d u ti rnd ;;
              t ← dateNow;
              modify (set_lastCaptureTime (Some t)) ;;
              modify (fun s => set_screenshotCount (screenshotCount s + 1) s) ;;
              saveState env ;;
              n ← gets screenshotCount;
              notifyPopup (CaptureComplete t n u ti))
             (fun e => notifyPopup (ErrorMessage e)) s) in
  screenshotCount s' = (screenshotCount s + 1)%Z /\
  lastCaptureTime s' = Some (now s') /\
  saves s' = S (saves s) /\
  exists l ok,
    trace s' = trace s ++ l ++
      [EvStorageSet (isCapturing s) ok;
       EvNotify (CaptureComplete (now s') (screenshotCount s + 1) u ti)].
Proof.
  cbv zeta.
  destruct (processScreenshot_ring env d u ti rnd s) as [Hok _].
  pose proof (processScreenshot_grows env d u ti rnd s) as [(l & Hl & _) _].
  pose proof (processScreenshot_beyond env d u ti rnd s) as Hb.
  destruct (processScreenshot env d u ti rnd s) as [s2 res] eqn:E.
  cbn [fst snd] in *. subst res.
  unfold try_catch. rewrite (bind_ok _ _ _ _ _ E). mstep.
  unfold same, beyondUpload in Hb. injection Hb as Hcap _ Hcount _ _ _ _ _ _ Hsaves.
  destruct (storageOk env (saves s2)) eqn:Eok; mstep; rewrite Hcount, Hsaves;
    (split; [reflexivity|]); (split; [reflexivity|]); (split; [reflexivity|]);
    exists l; eexists; rewrite Hl, Hcap, <- !app_assoc; reflexivity.
Qed.

Lemma tick_no_shot env inp s :
  takesShot inp = false ->
  snd (captureScreenshot env inp s) = Ok tt /\
  ((skipsTab (activeTab inp) = true /\ tick env s inp = s) \/
   (activeTab inp = TabsRejected /\
    tick env s inp = emit (EvNotify (ErrorMessage TabsQueryRejected)) s) \/
   (skipsTab (activeTab inp) = false /\
    exists e, (e = CaptureRejected \/ e = CaptureReturnedNull) /\
      tick env s inp =
        emit (EvNotify (ErrorMessage e))
          (emit (EvCaptureVisibleTab (captureQuality env s)) s))).
Proof.
  unfold takesShot, tick, captureScreenshot.
  destruct (activeTab inp) as [| |[u|] ti]; cbn [skipsTab].
  - intros _. split; [reflexivity|]. right. left. split; reflexivity.
  - intros _. split; [reflexivity|]. left. split; reflexivity.
  - destruct (String.eqb u "" || disallowedUrl u) eqn:Hu.
    + intros _. split; [reflexivity|]. left. split; reflexivity.
    + rewrite try_catch_gets_modify.
      destruct (visibleTab inp) as [|[d|]].
      * intros _. split; [reflexivity|]. right. right. split; [reflexivity|].
        exists CaptureRejected. split; [now left | reflexivity].
      * cbn [negb andb]. intros Hd. apply Bool.negb_false_iff in Hd.
        rewrite Hd. split; [reflexivity|]. right. right. split; [reflexivity|].
        exists CaptureReturnedNull. split; [now right | reflexivity].
      * intros _. split; [reflexivity|]. right. right. split; [reflexivity|].
        exists CaptureReturnedNull. split; [now right | reflexivity].
  - intros _. split; [reflexivity|]. left. split; reflexivity.
Qed.

(** X6.  A tick that gets no screenshot changes nothing in the coordinator:
    it is silent when there is nothing to capture (no tab, no URL, a
    browser-internal page), and otherwise leaves one error notification,
    after the call of the screenshot primitive if it got that far. *)
Theorem tick_without_screenshot (env : Env) (inp : TickInput) (s : State) :
  takesShot inp = false ->
  snd (captureScreenshot env inp s) = Ok tt /\
  ((skipsTab (activeTab inp) = true /\ tick env s inp = s) \/
   (activeTab inp = TabsRejected /\
    tick env s inp = emit (EvNotify (ErrorMessage TabsQueryRejected)) s) \/
   (skipsTab (activeTab inp) = false /\
    exists e, (e = CaptureRejected \/ e = CaptureReturnedNull) /\
      tick env s inp =
        emit (EvNotify (ErrorMessage e))
          (emit (EvCaptureVisibleTab (captureQuality env s)) s))).
Proof. apply tick_no_shot. Qed.

Lemma tick_without_screenshot_witness :
  tick envOffline initialState
    {| activeTab := ActiveTab (Some "chrome://extensions/") (Some "Extensions");
       visibleTab := ShotValue (Some "data:image/png;base64,iVBORw0KGgo=");
       random := "a1b2c3d4e" |}
  = initialState.
Proof.
  destruct (tick_without_screenshot envOffline
              {| activeTab := ActiveTab (Some "chrome://extensions/") (Some "Extensions");
                 visibleTab := ShotValue (Some "data:image/png;base64,iVBORw0KGgo=");
                 random := "a1b2c3d4e" |} initialState)
    as (_ & [[_ H] | [[H _] | [H _]]]).
  - reflexivity.
  - exact H.
  - discriminate H.
  - discriminate H.
Defined.

Lemma tick_takesShot env s inp :
  takesShot inp = true ->
  exists d u ti,
    activeTab inp = ActiveTab (Some u) ti /\
    visibleTab inp = ShotValue (Some d) /\
    tick env s inp =
      fst (try_catch
             (processScreenshot env d u ti (random inp) ;;
              t ← dateNow;
              modify (set_lastCaptureTime (Some t)) ;;
              modify (fun s => set_screenshotCount (screenshotCount s + 1) s) ;;
              saveState env ;;
              n ← gets screenshotCount;
              notifyPopup (CaptureComplete t n u ti))
             (fun e => notifyPopup (ErrorMessage e))
             (emit (EvCaptureVisibleTab (captureQuality env s)) s)).
Proof.
  unfold takesShot, tick, captureScreenshot.
  destruct (activeTab inp) as [| |[u|] ti]; try discriminate.
  destruct (visibleTab inp) as [|[d|]]; try discriminate.
  intros H. apply andb_prop in H as [H1 H2].
  apply Bool.negb_true_iff in H1, H2.
  exists d, u, ti. rewrite H1, try_catch_gets_modify, H2. auto.
Qed.

Lemma capture_tail_returns env d u ti rnd s :
  snd (try_catch
         (processScreenshot env d u ti rnd ;;
          t ← dateNow;
          modify (set_lastCaptureTime (Some t)) ;;
          modify (fun s => set_screenshotCount (screenshotCount s + 1) s) ;;
          saveState env ;;
          n ← gets screenshotCount;
          notifyPopup (CaptureComplete t n u ti))
         (fun e => notifyPopup (ErrorMessage e)) s) = Ok tt.
Proof.
  destruct (processScreenshot_ring env d u ti rnd s) as [Hok _].
  destruct (processScreenshot env d u ti rnd s) as [s2 res] eqn:E.
  cbn [snd] in Hok. subst res.
  unfold try_catch. rewrite (bind_ok _ _ _ _ _ E). mstep.
  now destruct (storageOk env (saves s2)).
Qed.

(** X7.  A tick that gets a screenshot counts it, whatever becomes of the
    upload: screenshotCount grows by one, lastCaptureTime is the time at
    which the upload pipeline returned, the state is persisted once and the
    popup is told last, with the new count. *)
Theorem tick_with_screenshot (env : Env) (inp : TickInput) (s : State) :
  takesShot inp = true ->
  let s' := tick env s inp in
  snd (captureScreenshot env inp s) = Ok tt /\
  screenshotCount s' = (screenshotCount s + 1)%Z /\
  lastCaptureTime s' = Some (now s') /\
  saves s' = S (saves s) /\
  exists l ok u ti,
    activeTab inp = ActiveTab (Some u) ti /\
    trace s' = trace s ++ EvCaptureVisibleTab (captureQuality env s) :: l ++
      [EvStorageSet (isCapturing s) ok;
       EvNotify (CaptureComplete (now s') (screenshotCount s + 1) u ti)].
Proof.
  intros H. cbv zeta.
  destruct (tick_takesShot env s inp H) as (d & u & ti & Htab & Hshot & Htick).
  split.
  { unfold captureScreenshot. rewrite Htab.
    unfold takesShot in H. rewrite Htab, Hshot in H.
    apply andb_prop in H as [H1 H2]. apply Bool.negb_true_iff in H1, H2.
    rewrite H1, try_catch_gets_modify, Hshot, H2. apply capture_tail_returns. }
  rewrite Htick.
  destruct (capture_tail_counts env d u ti (random inp)
              (emit (EvCaptureVisibleTab (captureQuality env s)) s))
    as (Hc & Ht & Hs & l & ok & Htr).
  split; [exact Hc|]. split; [exact Ht|]. split; [exact Hs|].
  exists l, ok, u, ti. split; [exact Htab|].
  rewrite Htr. cbn [trace emit set_platform isCapturing screenshotCount].
  now rewrite <- app_assoc.
Qed.

Lemma tick_with_screenshot_witness :
  screenshotCount (tick envOffline initialState (goodTick "a1b2c3d4e")) = 1%Z.
Proof.
  destruct (tick_with_screenshot envOffline (goodTick "a1b2c3d4e") initialState)
    as (_ & H & _).
  - reflexivity.
  - exact H.
Defined.

(** X8.  screenshotCount counts the ticks that got a screenshot, and only
    those: a skipped tick or a failed screenshot does not count, a failed
    upload does not uncount. *)
Theorem ticks_count_screenshots (env : Env) (inps : list TickInput) :
  forall s : State,
  screenshotCount (runTicks env inps s) =
  (screenshotCount s + Z.of_nat (length (List.filter takesShot inps)))%Z.
Proof.
  induction inps as [|inp inps IH]; intros s; cbn [runTicks fold_left List.filter].
  - cbn. lia.
  - fold (runTicks env inps (tick env s inp)). rewrite IH.
    destruct (takesShot inp) eqn:E.
    + destruct (tick_takesShot env s inp E) as (d & u & ti & _ & _ & Htick).
      rewrite Htick.
      destruct (capture_tail_counts env d u ti (random inp)
                  (emit (EvCaptureVisibleTab (captureQuality env s)) s))
        as (Hc & _).
      rewrite Hc. cbn [length]. cbn [screenshotCount emit set_platform]. lia.
    + destruct (tick_no_shot env inp s E)
        as (_ & [[_ ->] | [[_ ->] | (_ & e & _ & ->)]]); reflexivity.
Qed.


(** ** Persistence and restart *)

Lemma checkServerConnection_empty env s :
  uploadQueue s = [] ->
  let s' := fst (checkServerConnection env s) in
  uploadQueue s' = [] /\ heap s' = heap s /\ screenshots s' = screenshots s /\
  timeouts s' = timeouts s ++ [((now s' + 30000)%Z, TaskProbe)].
Proof.
  intros Hq. cbv zeta. unfold checkServerConnection.
  cbv beta iota zeta delta [bind gets modify try_catch fetch throw unawaited
                            setTimeout notifyPopup ret].
  destruct (outcome (fetchReply env (fetches s))) as [|ok status js]; cbn.
  - rewrite Hq. auto.
  - rewrite Hq. cbn. rewrite Bool.andb_false_r. cbn. rewrite Hq. auto.
Qed.

(** X9.  A restart gives back what [saveState] wrote, the capturing flag
    included, and nothing else: the queued uploads, the ring, the time of
    the last capture and the capture timer are those of a fresh coordinator.
    If the storage cannot be read, every field is. *)
Theorem restart_restores_saved_keys (env : Env) (s : State) :
  (let s' := boot env (Some (savedState s)) in
   isCapturing s' = isCapturing s /\
   captureInterval s' = captureInterval s /\
   screenshotCount s' = screenshotCount s /\
   serverUrl s' = serverUrl s /\
   settings s' = settings s /\
   inMemory s' = inMemory initialState) /\
  (let s' := boot env None in
   isCapturing s' = false /\
   captureInterval s' = captureInterval initialState /\
   screenshotCount s' = 0%Z /\
   serverUrl s' = serverUrl initialState /\
   settings s' = defaultSettings /\
   inMemory s' = inMemory initialState).
Proof.
  assert (H : forall s0, uploadQueue s0 = [] ->
            beyondUpload (fst (checkServerConnection env s0)) = beyondUpload s0 /\
            uploadQueue (fst (checkServerConnection env s0)) = [] /\
            heap (fst (checkServerConnection env s0)) = heap s0 /\
            screenshots (fst (checkServerConnection env s0)) = screenshots s0).
  { intros s0 Hq. split; [apply checkServerConnection_beyond|].
    destruct (checkServerConnection_empty env s0 Hq) as (H1 & H2 & H3 & _). auto. }
  assert (Hboot : forall stored,
            boot env stored =
            fst (checkServerConnection env
                   (match stored with
                    | Some r => restore r initialState
                    | None => initialState
                    end))).
  { intros [r|]; unfold boot, init, loadState; mstep;
      match goal with
      | |- context [checkServerConnection env ?x] =>
          now destruct (checkServerConnection env x) as [s' [[]|e|]]
      end. }
  split; cbv zeta; rewrite Hboot.
  - destruct (H (restore (savedState s) initialState) eq_refl) as (Hb & Hq & Hh & Hr).
    unfold beyondUpload in Hb. injection Hb as B1 B2 B3 B4 B5 B6 B7 B8 B9 B10.
    unfold inMemory. rewrite B1, B2, B3, B4, B5, B6, B7, B8, Hq, Hh, Hr.
    repeat split.
  - destruct (H initialState eq_refl) as (Hb & Hq & Hh & Hr).
    unfold beyondUpload in Hb. injection Hb as B1 B2 B3 B4 B5 B6 B7 B8 B9 B10.
    unfold inMemory. rewrite B1, B2, B3, B4, B5, B6, B7, B8, Hq, Hh, Hr.
    repeat split.
Qed.

(** ** The timeouts *)

Lemma pending_addTimeout task t ms s :
  pending task (addTimeout t ms s) =
  pending task s + (if task_eqb t task then 1 else 0).
Proof.
  unfold pending, addTimeout. cbn [timeouts emit set_platform set_timeouts].
  rewrite List.filter_app, length_app. cbn [List.filter snd].
  now destruct (task_eqb t task).
Qed.

Ltac pending_leaf :=
  unfold same;
  first [ reflexivity
        | rewrite pending_addTimeout; cbn; lia ].

Ltac pres_pending task :=
  pres (same_refl (pending task)) (same_trans (pending task)) pending_leaf.

(** *** The probe's timer *)

Lemma uploadWith_probes env retry r :
  preserves (same (pending TaskProbe)) retry ->
  preserves (same (pending TaskProbe)) (uploadWith env retry r).
Proof. intros Hr. unfold uploadWith. pres_pending TaskProbe. Qed.

Lemma retryItem_probes env retry t r :
  preserves (same (pending TaskProbe)) retry ->
  preserves (same (pending TaskProbe)) (retryItem env retry t r).
Proof.
  intros Hr. pose proof (uploadWith_probes env retry r Hr).
  unfold retryItem. pres_pending TaskProbe.
Qed.

Lemma sweepWith_probes env retry :
  preserves (same (pending TaskProbe)) retry ->
  preserves (same (pending TaskProbe)) (sweepWith env retry).
Proof.
  intros Hr. pose proof (fun t r => retryItem_probes env retry t r Hr).
  unfold sweepWith, setTimeout. pres_pending TaskProbe.
Qed.

Lemma scheduleRetryN_probes env fuel :
  preserves (same (pending TaskProbe)) (scheduleRetryN env fuel).
Proof.
  induction fuel as [|k IH]; cbn [scheduleRetryN].
  - apply (preserves_out_of_fuel _ (same_refl (pending TaskProbe))).
  - now apply sweepWith_probes.
Qed.

Lemma uploadScreenshot_probes env r :
  preserves (same (pending TaskProbe)) (uploadScreenshot env r).
Proof. apply uploadWith_probes, scheduleRetryN_probes. Qed.

Lemma saveState_timeouts env s : timeouts (fst (saveState env s)) = timeouts s.
Proof. now rewrite saveState_state. Qed.

Lemma handleMessage_timeouts env m s :
  timeouts (fst (handleMessage env m s)) = timeouts s.
Proof.
  pose proof (handleMessage_beyondControl env m s) as H.
  unfold same, beyondControl in H. now injection H.
Qed.

Lemma captureScreenshot_probes env inp :
  preserves (same (pending TaskProbe)) (captureScreenshot env inp).
Proof.
  pose proof (uploadScreenshot_probes env).
  assert (Hsave : preserves (same (pending TaskProbe)) (saveState env)).
  { intros s. unfold same, pending. now rewrite saveState_timeouts. }
  unfold captureScreenshot, processScreenshot, generateScreenshotId.
  pres_pending TaskProbe.
Qed.

Lemma bind_inv_ok {A B} (m : M A) (f : A -> M B) s b :
  snd (bind m f s) = Ok b ->
  exists s1 a, m s = (s1, Ok a) /\ bind m f s = f a s1.
Proof.
  unfold bind. destruct (m s) as [s1 [a|e|]]; cbn; try discriminate.
  intros _. now exists s1, a.
Qed.

(** The probe returns. *)
Lemma checkServerConnection_returns env s :
  Forall (fun r => r < length (heap s)) (uploadQueue s) ->
  snd (checkServerConnection env s) = Ok tt.
Proof.
  intros Hwf.
  destruct (outcome (fetchReply env (fetches s))) as [|[] status js] eqn:Hrep.
  - unfold checkServerConnection.
    cbv beta iota zeta delta [bind gets modify try_catch fetch throw unawaited
                              setTimeout notifyPopup].
    now rewrite Hrep.
  - destruct (decide (uploadQueue s = [])) as [Eq|Hne].
    + unfold checkServerConnection.
      cbv beta iota zeta delta [bind gets modify try_catch fetch throw unawaited
                                setTimeout notifyPopup ret].
      rewrite Hrep. cbn [fst snd uploadQueue set_serverConnected set_platform].
      now rewrite Eq.
    + now rewrite (checkServerConnection_drain env s status js Hne Hwf Hrep).
  - unfold checkServerConnection.
    cbv beta iota zeta delta [bind gets modify try_catch fetch throw unawaited
                              setTimeout notifyPopup ret].
    now rewrite Hrep.
Qed.

Lemma checkServerConnection_probes env s :
  Forall (fun r => r < length (heap s)) (uploadQueue s) ->
  pending TaskProbe (fst (checkServerConnection env s)) = S (pending TaskProbe s).
Proof.
  intros Hwf.
  pose proof (uploadScreenshot_probes env) as Hu.
  assert (Hbody : preserves (same (pending TaskProbe))
            (try_catch
               (target ← gets healthTarget;
                resp ← fetch env (EvGet target);
                match resp with
                | NetworkError => throw NetworkFailure
                | HttpResponse ok _ _ =>
                    modify (set_serverConnected ok) ;;
                    q ← gets uploadQueue;
                    if ok && (0 <? length q)
                    then unawaited (processUploadQueue env) else ret tt
                end)
               (fun _ => modify (set_serverConnected false)))).
  { unfold processUploadQueue. pres_pending TaskProbe. }
  pose proof (checkServerConnection_returns env s Hwf) as Hok.
  unfold checkServerConnection in *.
  apply bind_inv_ok in Hok as (s1 & [] & E & ->).
  specialize (Hbody s). rewrite E in Hbody. cbn [fst] in Hbody.
  mstep. rewrite pending_addTimeout. cbn [task_eqb].
  unfold same in Hbody. unfold pending in *. cbn. cbn in Hbody. lia.
Qed.

Lemma fire_pending task t l rest k :
  fire task t l = Some rest ->
  length (List.filter (fun p => task_eqb (snd p) k) rest)
  + (if task_eqb task k then 1 else 0)
  = length (List.filter (fun p => task_eqb (snd p) k) l).
Proof.
  revert rest. induction l as [|p l IH]; intros rest; cbn [fire]; [discriminate|].
  destruct (task_eqb (snd p) task && (fst p <=? t)%Z) eqn:E.
  - intros [= <-]. apply andb_prop in E as [E _].
    cbn [List.filter]. destruct (snd p), task, k; cbn in *; try discriminate; lia.
  - destruct (fire task t l) as [rest'|]; cbn; [|discriminate].
    intros [= <-]. specialize (IH rest' eq_refl).
    cbn [List.filter]. destruct (task_eqb (snd p) k); cbn [length]; lia.
Qed.

Lemma boot_state env stored :
  boot env stored =
  fst (checkServerConnection env
         (match stored with
          | Some r => restore r initialState
          | None => initialState
          end)).
Proof.
  destruct stored as [r|]; unfold boot, init, loadState; mstep;
    match goal with
    | |- context [checkServerConnection env ?x] =>
        now destruct (checkServerConnection env x) as [s' [[]|e|]]
    end.
Qed.

Lemma activate_probes env s a :
  queueWaitsOffline s ->
  pending TaskProbe s = 1 ->
  pending TaskProbe (activate env s a) = 1.
Proof.
  intros Hw H1. unfold activate. destruct (snd a) as [m|inp|task].
  - unfold pending. now rewrite handleMessage_timeouts.
  - destruct (intervals s); [exact H1|].
    rewrite <- H1. exact (captureScreenshot_probes env inp (advanceTo (fst a) s)).
  - destruct (fire task (fst a) (timeouts s)) as [rest|] eqn:E; [|exact H1].
    pose proof (fire_pending _ _ _ _ TaskProbe E) as Hf.
    fold (pending TaskProbe s) in Hf.
    destruct task; cbn [runTask task_eqb] in *.
    + etransitivity; [exact (scheduleRetryN_probes env 2 _)|].
      unfold pending. cbn. lia.
    + rewrite checkServerConnection_probes by apply Hw.
      unfold pending. cbn. lia.
Qed.

(** X10.  After the start there is, between two activations, exactly one
    pending timeout for the connectivity probe: the probe re-arms itself
    whatever the server answers and whatever becomes of the drain, and
    nothing else arms or cancels it. *)
Theorem probe_timer_is_unique (env : Env) (stored : option Stored)
    (schedule : list (Z * Activation)) :
  pending TaskProbe (run env schedule (boot env stored)) = 1.
Proof.
  assert (H : forall sch s, queueWaitsOffline s -> pending TaskProbe s = 1 ->
                            pending TaskProbe (run env sch s) = 1).
  { induction sch as [|a sch IH]; intros s Hw H1; [exact H1|].
    cbn [run fold_left]. apply IH.
    - now apply activate_waits.
    - now apply activate_probes. }
  apply H; [apply boot_waits|].
  rewrite boot_state.
  rewrite checkServerConnection_probes; [now destruct stored|].
  destruct stored; constructor.
Qed.

(** *** The sweep's timers *)

Lemma keepsTimeouts_refl task s : keepsTimeouts task s s.
Proof. unfold keepsTimeouts. lia. Qed.

Lemma keepsTimeouts_trans task s1 s2 s3 :
  keepsTimeouts task s1 s2 -> keepsTimeouts task s2 s3 -> keepsTimeouts task s1 s3.
Proof. unfold keepsTimeouts. lia. Qed.

Ltac keepsTimeouts_leaf :=
  unfold keepsTimeouts;
  first [ apply Nat.le_refl
        | rewrite pending_addTimeout; lia ].

Ltac pres_timeouts task :=
  pres (keepsTimeouts_refl task) (keepsTimeouts_trans task) keepsTimeouts_leaf.

Lemma uploadWith_keepsTimeouts env task retry r :
  preserves (keepsTimeouts task) retry ->
  preserves (keepsTimeouts task) (uploadWith env retry r).
Proof. intros Hr. unfold uploadWith. pres_timeouts task. Qed.

Lemma retryItem_keepsTimeouts env task retry t r :
  preserves (keepsTimeouts task) retry ->
  preserves (keepsTimeouts task) (retryItem env retry t r).
Proof.
  intros Hr. pose proof (uploadWith_keepsTimeouts env task retry r Hr).
  unfold retryItem. pres_timeouts task.
Qed.

Lemma sweepWith_keepsTimeouts env task retry :
  preserves (keepsTimeouts task) retry ->
  preserves (keepsTimeouts task) (sweepWith env retry).
Proof.
  intros Hr. pose proof (fun t r => retryItem_keepsTimeouts env task retry t r Hr).
  unfold sweepWith, setTimeout. pres_timeouts task.
Qed.

Lemma scheduleRetryN_keepsTimeouts env task fuel :
  preserves (keepsTimeouts task) (scheduleRetryN env fuel).
Proof.
  induction fuel as [|k IH]; cbn [scheduleRetryN].
  - apply (preserves_out_of_fuel _ (keepsTimeouts_refl task)).
  - now apply sweepWith_keepsTimeouts.
Qed.

Lemma uploadScreenshot_keepsTimeouts env task r :
  preserves (keepsTimeouts task) (uploadScreenshot env r).
Proof. apply uploadWith_keepsTimeouts, scheduleRetryN_keepsTimeouts. Qed.

Lemma captureScreenshot_keepsTimeouts env task inp :
  preserves (keepsTimeouts task) (captureScreenshot env inp).
Proof.
  pose proof (uploadScreenshot_keepsTimeouts env task).
  assert (Hsave : preserves (keepsTimeouts task) (saveState env)).
  { intros s. unfold keepsTimeouts, pending. now rewrite saveState_timeouts. }
  unfold captureScreenshot, processScreenshot, generateScreenshotId.
  pres_timeouts task.
Qed.

Lemma checkServerConnection_keepsTimeouts env task :
  preserves (keepsTimeouts task) (checkServerConnection env).
Proof.
  pose proof (uploadScreenshot_keepsTimeouts env task).
  unfold checkServerConnection, processUploadQueue, setTimeout.
  pres_timeouts task.
Qed.

(** A sweep ends by arming the next one. *)
Lemma scheduleRetry_rearms env s :
  S (pending TaskSweep s) <= pending TaskSweep (fst (scheduleRetry env s)).
Proof.
  pose proof (scheduleRetryN_returns env 0 s) as Hok.
  unfold scheduleRetry.
  change (scheduleRetryN env 2) with (sweepWith env (scheduleRetryN env 1)) in *.
  assert (Hbody : preserves (keepsTimeouts TaskSweep)
            (q ← gets uploadQueue;
             if 0 <? length q then
               t ← dateNow;
               items ← gets (retryableItems t);
               for_of items (retryItem env (scheduleRetryN env 1) t)
             else ret tt)).
  { pose proof (fun t r => retryItem_keepsTimeouts env TaskSweep _ t r
                             (scheduleRetryN_keepsTimeouts env TaskSweep 1)).
    pres_timeouts TaskSweep. }
  unfold sweepWith in *.
  apply bind_inv_ok in Hok as (s1 & [] & E & ->).
  specialize (Hbody s). rewrite E in Hbody. cbn [fst] in Hbody.
  unfold setTimeout. mstep. rewrite pending_addTimeout. cbn [task_eqb].
  unfold keepsTimeouts in Hbody. lia.
Qed.

Lemma activate_keepsSweeps env s a :
  pending TaskSweep s <= pending TaskSweep (activate env s a).
Proof.
  unfold activate. destruct (snd a) as [m|inp|task].
  - unfold pending. now rewrite handleMessage_timeouts.
  - destruct (intervals s); [lia|].
    exact (captureScreenshot_keepsTimeouts env TaskSweep inp (advanceTo (fst a) s)).
  - destruct (fire task (fst a) (timeouts s)) as [rest|] eqn:E; [|lia].
    pose proof (fire_pending _ _ _ _ TaskSweep E) as Hf.
    fold (pending TaskSweep s) in Hf.
    destruct task; cbn [runTask task_eqb] in *.
    + etransitivity; [|apply scheduleRetry_rearms].
      unfold pending in *. cbn. lia.
    + etransitivity;
        [|apply (checkServerConnection_keepsTimeouts env TaskSweep)].
      unfold pending in *. cbn. lia.
Qed.

Lemma for_of_retry_offline_timeouts env retry t items s :
  serverConnected s = false ->
  Forall (fun r => r < length (heap s)) items ->
  timeouts (fst (for_of items (retryItem env retry t) s)) = timeouts s.
Proof.
  revert s. induction items as [|r items IH]; intros s Hc Hv; [reflexivity|].
  inversion Hv as [|? ? Hr Hv']; subst.
  apply lookup_lt_is_Some_2 in Hr as [it Hit].
  destruct (retryItem_offline_quiet env retry t r it s Hc Hit)
    as (Hok & (C1 & _ & _ & L1 & _) & _).
  assert (Ht : timeouts (fst (retryItem env retry t r s)) = timeouts s).
  { rewrite (retryItem_offline env retry t r it s Hc Hit).
    now destruct (reachedMax env (retryCount it) (settings s !! "maxRetries")). }
  cbn [for_of].
  destruct (retryItem env retry t r s) as [s1 res] eqn:E.
  cbn [fst snd] in *. subst res. rewrite (bind_ok _ _ _ _ _ E).
  rewrite IH; [exact Ht | exact C1 | now rewrite L1].
Qed.

(** A sweep made while the server is not connected arms one timeout. *)
Lemma sweepWith_offline_timeouts env retry s :
  serverConnected s = false ->
  timeouts (fst (sweepWith env retry s)) =
  timeouts s ++ [((now s + 5000)%Z, TaskSweep)].
Proof.
  intros Hc. unfold sweepWith. mstep.
  destruct (0 <? length (uploadQueue s)); [|reflexivity].
  destruct (for_of_retry_offline env retry (now s) (retryableItems (now s) s) s
              Hc (retryableItems_valid _ _)) as (Hok & (_ & _ & N1 & _) & _).
  pose proof (for_of_retry_offline_timeouts env retry (now s)
                (retryableItems (now s) s) s Hc (retryableItems_valid _ _)) as Ht.
  destruct (for_of (retryableItems (now s) s) (retryItem env retry (now s)) s)
    as [s1 res].
  cbn [fst snd] in *. subst res. mstep. now rewrite Ht, N1.
Qed.

(** X11.  The sweep's timers are never cancelled and each sweep arms the
    next: none is pending when the extension has started, and from then on
    their number does not go down, activation after activation. *)
Theorem sweep_timers_never_decrease (env : Env) :
  (forall stored : option Stored, pending TaskSweep (boot env stored) = 0) /\
  (forall (s : State) (a : Z * Activation),
     pending TaskSweep s <= pending TaskSweep (activate env s a)) /\
  (forall (schedule : list (Z * Activation)) (s : State),
     pending TaskSweep s <= pending TaskSweep (run env schedule s)).
Proof.
  split; [|split].
  - intros stored. rewrite boot_state.
    match goal with
    | |- context [checkServerConnection env ?x] =>
        destruct (checkServerConnection_empty env x) as (_ & _ & _ & Ht);
          [now destruct stored|]
    end.
    unfold pending. rewrite Ht. now destruct stored.
  - apply activate_keepsSweeps.
  - induction schedule as [|a sch IH]; intros s; [cbn; lia|].
    cbn [run fold_left]. etransitivity; [apply (activate_keepsSweeps env s a)|].
    apply IH.
Qed.

(** ** The three ways of an upload *)

(** X12.  [uploadScreenshot] of an existing object. Not connected: the
    object is queued, nothing is sent. Connected and answered 2xx with a
    JSON body: one request, the queue as it was. Connected and anything
    else, an unreadable body included: one request, a copy of the object
    with retryCount 0 and lastRetry now is created, the flag goes to not
    connected, and one more sweep timer is armed. *)
Theorem upload_outcomes (env : Env) (r : ref) (it : Item) (s : State) :
  heap s !! r = Some it ->
  let s' := fst (uploadScreenshot env r s) in
  snd (uploadScreenshot env r s) = Ok tt /\
  (serverConnected s = false ->
   s' = set_uploadQueue (uploadQueue s ++ [r]) s) /\
  (serverConnected s = true ->
   replySucceeds (fetchReply env (fetches s)) = true ->
   s' = emit (EvNotify (StatusServer true))
          (set_serverConnected true (posted env (id it) s))) /\
  (serverConnected s = true ->
   replySucceeds (fetchReply env (fetches s)) = false ->
   serverConnected s' = false /\
   fetches s' = S (fetches s) /\
   posts (trace s') = posts (trace s) ++ [id it] /\
   length (heap s') = S (length (heap s)) /\
   heap s' !! length (heap s) =
     Some (with_retry (Some 0) (Some (now (posted env (id it) s))) it) /\
   pending TaskSweep s' = S (pending TaskSweep s)).
Proof.
  intros Hit. cbv zeta.
  split; [apply uploadScreenshot_returns; eapply lookup_lt_Some; eauto|].
  split; [|split].
  - intros Hc. unfold uploadScreenshot. now rewrite uploadWith_offline.
  - intros Hc Hf. now rewrite (uploadScreenshot_succeeds env r it s Hc Hit Hf).
  - intros Hc Hf. unfold uploadScreenshot.
    rewrite (uploadWith_online env _ r it s Hc Hit), Hf.
    change (scheduleRetryN env 1) with (sweepWith env (scheduleRetryN env 0)).
    set (s1 := requeued it (posted env (id it) s)).
    assert (C1 : serverConnected s1 = false) by reflexivity.
    destruct (sweepWith_offline env (scheduleRetryN env 0) s1 C1)
      as (Hok & (C2 & F2 & _ & L2 & _ & l & El & Hl) & Hfr).
    pose proof (sweepWith_offline_timeouts env (scheduleRetryN env 0) s1 C1) as Ht.
    unfold unawaited.
    destruct (sweepWith env (scheduleRetryN env 0) s1) as [s2 res].
    cbn [fst snd] in *. subst res. cbn [fst].
    split; [exact C2|]. split; [rewrite F2; reflexivity|].
    split.
    { rewrite El, posts_app.
      assert (Hp : posts l = []).
      { clear El. induction l as [|e l IHl]; [reflexivity|].
        inversion Hl as [|? ? He Hl']; subst.
        destruct e; try discriminate He; cbn; auto. }
      rewrite Hp, app_nil_r. unfold s1, requeued, posted, fetch.
      cbn [trace emit set_platform set_serverConnected set_uploadQueue set_heap fst].
      rewrite !posts_app. cbn. now rewrite !app_nil_r. }
    split; [rewrite L2; unfold s1, requeued; cbn; rewrite length_app; cbn; lia|].
    split.
    + rewrite Hfr.
      * unfold s1, requeued, posted, fetch. cbn.
        now rewrite list_lookup_middle.
      * intros Hin. unfold retryableItems in Hin.
        apply filter_In in Hin as [_ Hin]. cbv beta in Hin.
        unfold s1, requeued, posted, fetch in Hin. cbn in Hin.
        rewrite list_lookup_middle in Hin by reflexivity.
        unfold eligible, backoffDelay in Hin. cbn in Hin.
        rewrite Z.sub_diag in Hin. discriminate Hin.
    + unfold pending. rewrite Ht. rewrite List.filter_app, length_app. cbn. lia.
Qed.

Lemma upload_outcomes_witness :
  pending TaskSweep
    (fst (uploadScreenshot envOffline 0
            (queuedState true 1000 [itemA None None] [] 3))) = 1.
Proof.
  destruct (upload_outcomes envOffline 0 (itemA None None)
              (queuedState true 1000 [itemA None None] [] 3) eq_refl)
    as (_ & _ & _ & H).
  destruct H as (_ & _ & _ & _ & _ & H); [reflexivity | reflexivity | exact H].
Defined.

(** ** The options page *)

Lemma SFcompare_defined x y :
  x <> S754_nan -> y <> S754_nan -> exists c, SFcompare x y = Some c.
Proof. destruct x, y; try congruence; cbn; eauto. Qed.

Lemma jsLt_false_geb x y :
  x <> S754_nan -> y <> S754_nan ->
  jsLt x y = false <-> Num.geb x y = true.
Proof.
  intros Hx Hy. unfold jsLt, SFltb, Num.geb.
  destruct (SFcompare_defined x y Hx Hy) as [c ->].
  destruct c; split; congruence.
Qed.

Lemma jsLt_nan_l y : jsLt S754_nan y = false.
Proof. reflexivity. Qed.

Lemma jsLt_nan_r x : jsLt x S754_nan = false.
Proof. now destruct x. Qed.

Lemma jsLt_range lo hi x :
  lo <> S754_nan -> hi <> S754_nan ->
  jsLt x lo || jsLt hi x = false <-> withinOrNaN lo hi x.
Proof.
  intros Hlo Hhi. unfold withinOrNaN. rewrite Bool.orb_false_iff.
  assert (Hx : x = S754_nan \/ x <> S754_nan) by (destruct x; auto; right; congruence).
  destruct Hx as [->|Hx].
  - rewrite jsLt_nan_l, jsLt_nan_r. split; auto.
  - rewrite (jsLt_false_geb x lo Hx Hlo), (jsLt_false_geb hi x Hhi Hx).
    split; [now right | now intros [?|?]].
Qed.

Lemma validateSettings_accepts_ranges (isValidUrl : string -> bool) (st : FormSettings) :
  validateSettings isValidUrl st = None <->
  withinOrNaN (Num.of_Z 1) (Num.of_Z 60) (f_captureInterval st) /\
  withinOrNaN (Num.div (Num.of_Z 1) (Num.of_Z 10)) (Num.of_Z 1) (f_quality st) /\
  isValidUrl (f_serverUrl st) = true /\
  withinOrNaN (Num.of_Z 1) (Num.of_Z 10) (f_maxRetries st).
Proof.
  rewrite <- !jsLt_range by (vm_compute; discriminate).
  unfold validateSettings.
  destruct (jsLt (f_captureInterval st) _ || jsLt _ (f_captureInterval st));
    [split; [discriminate | now intros [? _]]|].
  destruct (jsLt (f_quality st) _ || jsLt _ (f_quality st));
    [split; [discriminate | now intros (_ & ? & _)]|].
  destruct (isValidUrl (f_serverUrl st));
    [|split; [discriminate | now intros (_ & _ & ? & _)]].
  cbn [negb].
  destruct (jsLt (f_maxRetries st) _ || jsLt _ (f_maxRetries st));
    [split; [discriminate | now intros (_ & _ & _ & ?)]|].
  repeat split.
Qed.

(** X13.  [validateSettings] accepts a form exactly when the URL parses and
    each of the three numbers lies in its range or is NaN: the comparisons
    it makes are all false on NaN, which an empty field gives. *)
Theorem validateSettings_accepts (isValidUrl : string -> bool) (st : FormSettings) :
  validateSettings isValidUrl st = None <->
  withinOrNaN (Num.of_Z 1) (Num.of_Z 60) (f_captureInterval st) /\
  withinOrNaN (Num.div (Num.of_Z 1) (Num.of_Z 10)) (Num.of_Z 1) (f_quality st) /\
  isValidUrl (f_serverUrl st) = true /\
  withinOrNaN (Num.of_Z 1) (Num.of_Z 10) (f_maxRetries st).
Proof. exact (validateSettings_accepts_ranges isValidUrl st). Qed.

Lemma geb_one_truthy x : Num.geb x (Num.of_Z 1) = true -> truthy (Some (JNum x)) = true.
Proof. destruct x as [sx|sx| |sx mx ex]; try discriminate; reflexivity. Qed.

Lemma saveSettings_message isValidUrl st m :
  saveSettings isValidUrl st = Some m ->
  validateSettings isValidUrl st = None /\
  m = UpdateSettings (Some (settingsObject st)).
Proof.
  unfold saveSettings. destruct (validateSettings isValidUrl st); [discriminate|].
  now intros [= <-].
Qed.

(** X14.  A captureInterval accepted by the options page, a number of
    seconds between 1 and 60, becomes as it is the period of the capture
    timer when the settings are saved while capturing; the serverUrl of the
    form is stored in the settings and the endpoint of the uploads stays
    what it was. *)
Theorem options_interval_reaches_timer (env : Env) (isValidUrl : string -> bool)
    (st : FormSettings) (m : Message) (s : State) (t : nat) :
  saveSettings isValidUrl st = Some m ->
  f_captureInterval st <> S754_nan ->
  isCapturing s = true ->
  captureTimer s = Some t ->
  0 < t ->
  let s' := fst (handleMessage env m s) in
  Num.geb (f_captureInterval st) (Num.of_Z 1) = true /\
  Num.geb (Num.of_Z 60) (f_captureInterval st) = true /\
  captureInterval s' = JNum (f_captureInterval st) /\
  captureTimer s' = Some (nextTimer s) /\
  In (EvSetInterval (nextTimer s) (JNum (f_captureInterval st))) (trace s') /\
  settings s' !! "serverUrl" = Some (JStr (f_serverUrl st)) /\
  uploadTarget s' = uploadTarget s.
Proof.
  intros Hsave Hnan Hcap Ht Hpos. cbv zeta.
  apply saveSettings_message in Hsave as [Hval ->].
  apply validateSettings_accepts_ranges in Hval as ([Hn|[H1 H60]] & _);
    [congruence|].
  split; [exact H1|]. split; [exact H60|].
  assert (Hst : fst (handleMessage env (UpdateSettings (Some (settingsObject st))) s)
                = fst (updateSettings env (Some (settingsObject st)) s)).
  { unfold handleMessage. mstep.
    now rewrite (run_ok _ _ _ (updateSettings_returns env _ s)). }
  rewrite Hst.
  destruct (rearm_state env (settingsObject st) (JNum (f_captureInterval st)) s t)
    as (_ & C2 & C3 & _ & C5 & ok1 & ok2 & ok3 & Htr);
    [reflexivity | now apply geb_one_truthy | exact Hcap | exact Ht | exact Hpos |].
  split; [exact C2|]. split; [exact C3|]. split.
  { rewrite Htr. apply in_or_app. right. cbn. auto 10. }
  split.
  { rewrite C5. apply lookup_union_Some_l. reflexivity. }
  pose proof (handleMessage_beyondControl env
                (UpdateSettings (Some (settingsObject st))) s) as Hb.
  rewrite Hst in Hb. unfold same, beyondControl in Hb.
  injection Hb as _ _ _ _ _ _ Hurl _ _ _.
  unfold uploadTarget. now rewrite Hurl.
Qed.

Lemma options_interval_reaches_timer_witness :
  captureInterval
    (fst (handleMessage envOffline
            (UpdateSettings (Some (settingsObject formExample)))
            (fst (startCapture envOffline initialState))))
  = JNum (Num.of_Z 2).
Proof.
  destruct (options_interval_reaches_timer envOffline (fun _ => true)
              formExample (UpdateSettings (Some (settingsObject formExample)))
              (fst (startCapture envOffline initialState)) 1)
    as (_ & _ & H & _).
  - reflexivity.
  - discriminate.
  - reflexivity.
  - reflexivity.
  - lia.
  - exact H.
Defined.

Lemma geb_truthy lo x :
  Num.geb (S754_zero false) lo = false ->
  Num.geb (S754_zero true) lo = false ->
  Num.geb x lo = true -> truthy (Some (JNum x)) = true.
Proof.
  intros H0 H1 H.
  destruct x as [[]|sx| |sx mx ex]; try congruence; try reflexivity.
  discriminate H.
Qed.

(** X15.  What the options page saves it shows again when it is next opened:
    the coordinator keeps the eight keys in its settings, and for values the
    page accepts none of the defaults of [loadSettings] steps in. *)
Theorem options_round_trip (env : Env) (isValidUrl : string -> bool)
    (st : FormSettings) (m : Message) (s : State) :
  saveSettings isValidUrl st = Some m ->
  f_captureInterval st <> S754_nan ->
  f_quality st <> S754_nan ->
  f_maxRetries st <> S754_nan ->
  f_serverUrl st <> "" ->
  exists answer : Response,
    snd (handleMessage env GetSettings (fst (handleMessage env m s))) = Ok answer /\
    loadSettings (Some answer) = viewOf st.
Proof.
  intros Hsave Hci Hq Hmr Hurl.
  apply saveSettings_message in Hsave as [Hval ->].
  apply validateSettings_accepts_ranges in Hval
    as ([?|[Hci1 _]] & [?|[Hq1 _]] & _ & [?|[Hmr1 _]]); try congruence.
  assert (Hst : settings (fst (handleMessage env
                                 (UpdateSettings (Some (settingsObject st))) s))
                = settingsObject st ∪ settings s).
  { unfold handleMessage. mstep.
    rewrite (run_ok _ _ _ (updateSettings_returns env _ s)).
    apply updateSettings_settings. }
  eexists. split; [reflexivity|].
  cbn [loadSettings success succeed data]. rewrite Hst.
  assert (Hk : forall k v, settingsObject st !! k = Some v ->
                 (settingsObject st ∪ settings s) !! k = Some v).
  { intros k v. apply lookup_union_Some_l. }
  rewrite (Hk "captureInterval" _ eq_refl), (Hk "quality" _ eq_refl),
    (Hk "serverUrl" _ eq_refl), (Hk "maxRetries" _ eq_refl),
    (Hk "enableNotifications" _ eq_refl), (Hk "enableSound" _ eq_refl),
    (Hk "enableAnalytics" _ eq_refl), (Hk "enableDebug" _ eq_refl).
  unfold orElse.
  rewrite (geb_truthy (Num.of_Z 1) _ eq_refl eq_refl Hci1),
    (geb_truthy (Num.div (Num.of_Z 1) (Num.of_Z 10)) _ eq_refl eq_refl Hq1),
    (geb_truthy (Num.of_Z 1) _ eq_refl eq_refl Hmr1).
  unfold viewOf. cbn [truthy notFalse].
  destruct (String.eqb_spec (f_serverUrl st) ""); [congruence|]. cbn [negb].
  f_equal; now destruct st as [? ? ? ? [] [] [] []].
Qed.

Lemma options_round_trip_witness :
  exists answer : Response,
    snd (handleMessage envOffline GetSettings
           (fst (handleMessage envOffline
                   (UpdateSettings (Some (settingsObject formExample)))
                   initialState))) = Ok answer /\
    loadSettings (Some answer) = viewOf formExample.
Proof.
  apply (options_round_trip envOffline (fun _ => true) formExample).
  - reflexivity.
  - discriminate.
  - discriminate.
  - discriminate.
  - discriminate.
Defined.

(** ** The popup *)

Lemma popupFeed_app l1 l2 p :
  popupFeed (l1 ++ l2) p = popupFeed l2 (popupFeed l1 p).
Proof. unfold popupFeed. apply fold_left_app. Qed.

Lemma synced_refl s : synced s s.
Proof. exists []. split; [now rewrite app_nil_r | auto]. Qed.

Lemma synced_trans s1 s2 s3 : synced s1 s2 -> synced s2 s3 -> synced s1 s3.
Proof.
  intros (l1 & E1 & H1) (l2 & E2 & H2). exists (l1 ++ l2). split.
  - now rewrite E2, E1, app_assoc.
  - intros p Hp. rewrite popupFeed_app. auto.
Qed.

Ltac synced_leaf :=
  first [ exists []; split; [symmetry; apply app_nil_r | intros ? Hp; exact Hp]
        | eexists [_]; split; [reflexivity | intros ? Hp; exact Hp] ].

Ltac pres_synced := pres synced_refl synced_trans synced_leaf.

Lemma saveState_synced env : preserves synced (saveState env).
Proof.
  intros s. rewrite saveState_state. synced_leaf.
Qed.

Ltac synced_explicit :=
  eexists; split;
  [ cbn [fst trace emit set_platform set_captureTimer set_isCapturing
         set_serverConnected set_screenshotCount set_lastCaptureTime
         addTimeout set_timeouts];
    rewrite <- ?app_assoc; reflexivity
  | let p := fresh "p" in
    intros p (? & ? & ?); unfold mirror;
    cbn [fst popupFeed fold_left popupHandle app p_isCapturing p_screenshotCount
         p_serverStatus isCapturing screenshotCount serverConnected
         set_isCapturing set_captureTimer set_platform emit
         set_serverConnected set_screenshotCount set_lastCaptureTime
         addTimeout set_timeouts];
    auto ].

Lemma startCapture_synced env : preserves synced (startCapture env).
Proof.
  intros s. destruct (isCapturing s) eqn:E.
  - rewrite startCapture_noop by exact E. apply synced_refl.
  - unfold startCapture. mstep. rewrite E. mstep.
    destruct (storageOk env (saves s)); mstep; synced_explicit.
Qed.

Lemma stopCapture_synced env : preserves synced (stopCapture env).
Proof.
  intros s. destruct (isCapturing s) eqn:E.
  - unfold stopCapture. mstep. rewrite E. mstep.
    destruct (storageOk env (saves s)); mstep;
      destruct (captureTimer s) as [[|t]|]; mstep; synced_explicit.
  - rewrite stopCapture_noop by exact E. apply synced_refl.
Qed.

Lemma connected_notified_synced b :
  preserves synced (modify (set_serverConnected b) ;; notifyPopup (StatusServer b)).
Proof. intros s. mstep. synced_explicit. Qed.

Lemma disconnected_notified_synced retry :
  preserves synced retry ->
  preserves synced
    (modify (set_serverConnected false) ;;
     notifyPopup (StatusServer false) ;;
     unawaited retry).
Proof.
  intros Hr s.
  change ((modify (set_serverConnected false) ;;
           notifyPopup (StatusServer false) ;;
           unawaited retry) s)
    with (unawaited retry
            (emit (EvNotify (StatusServer false)) (set_serverConnected false s))).
  eapply synced_trans; [|apply (preserves_unawaited _ _ Hr)].
  synced_explicit.
Qed.

Lemma uploadWith_synced env retry r :
  preserves synced retry ->
  preserves synced (uploadWith env retry r).
Proof.
  intros Hr.
  pose proof (connected_notified_synced true).
  pose proof (disconnected_notified_synced retry Hr).
  unfold uploadWith. pres_synced.
Qed.

Lemma retryItem_synced env retry t r :
  preserves synced retry ->
  preserves synced (retryItem env retry t r).
Proof.
  intros Hr. pose proof (uploadWith_synced env retry r Hr).
  unfold retryItem. pres_synced.
Qed.

Lemma sweepWith_synced env retry :
  preserves synced retry ->
  preserves synced (sweepWith env retry).
Proof.
  intros Hr. pose proof (fun t r => retryItem_synced env retry t r Hr).
  unfold sweepWith, setTimeout. pres_synced.
Qed.

Lemma scheduleRetryN_synced env fuel : preserves synced (scheduleRetryN env fuel).
Proof.
  induction fuel as [|k IH]; cbn [scheduleRetryN].
  - apply (preserves_out_of_fuel _ synced_refl).
  - now apply sweepWith_synced.
Qed.

Lemma uploadScreenshot_synced env r : preserves synced (uploadScreenshot env r).
Proof. apply uploadWith_synced, scheduleRetryN_synced. Qed.

Lemma processUploadQueue_synced env : preserves synced (processUploadQueue env).
Proof.
  pose proof (uploadScreenshot_synced env).
  unfold processUploadQueue. pres_synced.
Qed.

Lemma processScreenshot_synced env d u ti rnd :
  preserves synced (processScreenshot env d u ti rnd).
Proof.
  pose proof (uploadScreenshot_synced env).
  unfold processScreenshot, generateScreenshotId. pres_synced.
Qed.

Lemma updateSettings_synced env ns : preserves synced (updateSettings env ns).
Proof.
  pose proof (saveState_synced env). pose proof (startCapture_synced env).
  pose proof (stopCapture_synced env). unfold updateSettings. pres_synced.
Qed.

Lemma handleMessage_synced env m : preserves synced (handleMessage env m).
Proof.
  pose proof (startCapture_synced env). pose proof (stopCapture_synced env).
  pose proof (updateSettings_synced env). unfold handleMessage. pres_synced.
Qed.

Lemma capture_tail_synced env d u ti rnd :
  preserves synced
    (try_catch
       (processScreenshot env d u ti rnd ;;
        t ← dateNow;
        modify (set_lastCaptureTime (Some t)) ;;
        modify (fun s => set_screenshotCount (screenshotCount s + 1) s) ;;
        saveState env ;;
        n ← gets screenshotCount;
        notifyPopup (CaptureComplete t n u ti))
       (fun e => notifyPopup (ErrorMessage e))).
Proof.
  intros s.
  destruct (processScreenshot_ring env d u ti rnd s) as [Hok _].
  pose proof (processScreenshot_synced env d u ti rnd s) as Hs.
  destruct (processScreenshot env d u ti rnd s) as [s2 res] eqn:E.
  cbn [fst snd] in *. subst res.
  unfold try_catch. rewrite (bind_ok _ _ _ _ _ E).
  eapply synced_trans; [exact Hs|].
  mstep. destruct (storageOk env (saves s2)); mstep.
  all: eexists; split;
    [ cbn [fst trace emit set_platform set_screenshotCount set_lastCaptureTime];
      rewrite <- ?app_assoc; reflexivity |].
  all: intros p (P1 & P2 & P3); unfold mirror;
    cbn [fst popupFeed fold_left popupHandle app p_isCapturing p_screenshotCount
         p_serverStatus isCapturing screenshotCount serverConnected
         set_platform emit set_screenshotCount set_lastCaptureTime];
    rewrite P2; repeat split; auto;
    destruct (screenshotCount s2 + 1 =? 0)%Z eqn:E0; auto;
    destruct (screenshotCount s2 =? 0)%Z eqn:E1; auto;
    apply Z.eqb_eq in E1; lia.
Qed.

Lemma captureScreenshot_synced env inp : preserves synced (captureScreenshot env inp).
Proof.
  intros s. unfold captureScreenshot.
  destruct (activeTab inp) as [| |[u|] ti]; try apply synced_refl.
  - mstep. synced_explicit.
  - destruct (String.eqb u "" || disallowedUrl u); [apply synced_refl|].
    rewrite try_catch_gets_modify.
    eapply synced_trans; [|].
    + instantiate (1 := emit (EvCaptureVisibleTab (captureQuality env s)) s).
      synced_explicit.
    + destruct (visibleTab inp) as [|[d|]]; try (mstep; synced_explicit).
      destruct (String.eqb d ""); [mstep; synced_explicit|].
      apply capture_tail_synced.
Qed.

(** The capturing flag and the count shown after some notifications depend
    on those shown before only. *)
Lemma popupFeed_serverStatus l p b :
  let p' := popupHandle (StatusServer b) p in
  p_isCapturing (popupFeed l p') = p_isCapturing (popupFeed l p) /\
  p_screenshotCount (popupFeed l p') = p_screenshotCount (popupFeed l p).
Proof.
  cbv zeta. revert p. induction l as [|e l IH]; intros p; [split; reflexivity|].
  cbn [popupFeed fold_left]. fold (popupFeed l).
  destruct e as [| |n| | | | | |]; try apply IH.
  destruct n as [c|c|t n u ti|e].
  - apply (IH (popupHandle (StatusCapturing c) p)).
  - unfold popupFeed. reflexivity || (split; reflexivity).
  - apply (IH (popupHandle (CaptureComplete t n u ti) p)).
  - apply IH.
Qed.

Lemma drainLoop_synced env q : preserves synced (drainLoop env q).
Proof.
  pose proof (uploadScreenshot_synced env). unfold drainLoop. pres_synced.
Qed.

Lemma checkServerConnection_synced env s :
  Forall (fun r => r < length (heap s)) (uploadQueue s) ->
  synced s (fst (checkServerConnection env s)).
Proof.
  intros Hwf.
  destruct (outcome (fetchReply env (fetches s))) as [|ok status js] eqn:Hrep.
  - unfold checkServerConnection.
    cbv beta iota zeta delta [bind gets modify try_catch fetch throw unawaited
                              setTimeout notifyPopup].
    rewrite Hrep. synced_explicit.
  - destruct (ok && (0 <? length (uploadQueue s))) eqn:Hd.
    + apply andb_prop in Hd as [-> Hne].
      assert (Hq : uploadQueue s <> []).
      { intros Eq. rewrite Eq in Hne. discriminate Hne. }
      rewrite (checkServerConnection_drain env s status js Hq Hwf Hrep).
      cbv zeta. cbn [fst].
      set (s1 := set_uploadQueue [] (set_serverConnected true (probed env s))).
      destruct (drainLoop_synced env (uploadQueue s) s1) as (l & El & Hl).
      set (sd := fst (drainLoop env (uploadQueue s) s1)) in *.
      exists (EvGet (healthTarget s) :: l ++
              [EvNotify (StatusServer (serverConnected sd));
               EvSetTimeout TaskProbe 30000]).
      split.
      * cbn [trace addTimeout emit set_platform set_timeouts]. rewrite El.
        unfold s1, probed, fetch.
        cbn [fst trace set_uploadQueue set_serverConnected set_platform].
        rewrite <- !app_assoc. reflexivity.
      * intros p (P1 & P2 & P3).
        assert (Hp1 : mirror (popupHandle (StatusServer true) p) s1).
        { unfold mirror. cbn. auto. }
        apply Hl in Hp1 as (Q1 & Q2 & _).
        destruct (popupFeed_serverStatus l p true) as (I1 & I2).
        cbv zeta in I1, I2. rewrite I1 in Q1. rewrite I2 in Q2.
        change (popupFeed (EvGet (healthTarget s) :: l ++
                  [EvNotify (StatusServer (serverConnected sd));
                   EvSetTimeout TaskProbe 30000]) p)
          with (popupFeed (l ++
                  [EvNotify (StatusServer (serverConnected sd));
                   EvSetTimeout TaskProbe 30000]) p).
        rewrite popupFeed_app. unfold mirror. cbn. auto.
    + unfold checkServerConnection.
      cbv beta iota zeta delta [bind gets modify try_catch fetch throw unawaited
                                setTimeout notifyPopup ret].
      rewrite Hrep. cbn [fst snd uploadQueue set_serverConnected set_platform].
      rewrite Hd. synced_explicit.
Qed.

Lemma activate_synced env s a :
  Forall (fun r => r < length (heap s)) (uploadQueue s) ->
  synced s (activate env s a).
Proof.
  intros Hwf. unfold activate. destruct (snd a) as [m|inp|task].
  - exact (handleMessage_synced env m (advanceTo (fst a) s)).
  - destruct (intervals s); [apply synced_refl|].
    exact (captureScreenshot_synced env inp (advanceTo (fst a) s)).
  - destruct (fire task (fst a) (timeouts s)) as [rest|]; [|apply synced_refl].
    destruct task; cbn [runTask].
    + exact (scheduleRetryN_synced env 2 (advanceTo (fst a) (set_timeouts rest s))).
    + exact (checkServerConnection_synced env
               (advanceTo (fst a) (set_timeouts rest s)) Hwf).
Qed.

Lemma run_synced env schedule : forall s,
  queueWaitsOffline s -> synced s (run env schedule s).
Proof.
  induction schedule as [|a sch IH]; intros s Hw; [apply synced_refl|].
  cbn [run fold_left]. eapply synced_trans.
  - apply activate_synced, Hw.
  - apply IH. now apply activate_waits.
Qed.

Lemma popupFeed_stats l : forall p, statsShown (popupFeed l p) = statsShown p.
Proof.
  induction l as [|e l IH]; intros p; [reflexivity|].
  cbn [popupFeed fold_left]. fold (popupFeed l). rewrite IH.
  destruct e as [| |[]| | | | | |]; reflexivity.
Qed.

(** X16.  A popup that shows the coordinator's capturing flag, screenshot
    count and server status, and receives every notification sent from then
    on, shows them right after any number of activations; the queue size,
    the number of screenshots in memory and the time of the last capture
    that it got when it was opened are never refreshed. *)
Theorem popup_follows_coordinator (env : Env) (schedule : list (Z * Activation))
    (s : State) (p : PopupState) :
  queueWaitsOffline s ->
  mirror p s ->
  let s' := run env schedule s in
  let p' := popupFeed (drop (length (trace s)) (trace s')) p in
  mirror p' s' /\ statsShown p' = statsShown p.
Proof.
  intros Hw Hp. cbv zeta.
  destruct (run_synced env schedule s Hw) as (l & El & Hl).
  rewrite El, drop_app_length.
  split; [now apply Hl | apply popupFeed_stats].
Qed.

Lemma popup_follows_coordinator_witness :
  let s := boot envFlaky (Some noStored) in
  mirror
    (popupFeed (drop (length (trace s)) (trace (run envFlaky budgetSchedule s)))
       (popupLoad envFlaky s popupInitial))
    (run envFlaky budgetSchedule s).
Proof.
  cbv zeta.
  destruct (popup_follows_coordinator envFlaky budgetSchedule
              (boot envFlaky (Some noStored))
              (popupLoad envFlaky (boot envFlaky (Some noStored)) popupInitial))
    as [H _].
  - split; [apply List.Forall_nil | intros Hq; now contradiction Hq].
  - vm_compute. auto.
  - exact H.
Defined.

Lemma popupLoad_mirror env s p : mirror (popupLoad env s p) s.
Proof. unfold popupLoad, mirror. cbn. auto. Qed.

(** X17.  The popup that has loaded the state shows the coordinator's flag,
    count and status, and its button then sends the toggle that takes
    effect: the capturing flag is flipped by the click, also when it was
    restored set at the start. *)
Theorem popup_click_toggles (env : Env) (s : State) (p0 : PopupState) :
  let p := popupLoad env s p0 in
  mirror p s /\
  statsShown p =
    (Some (screenshotCount s), Some (length (ring s)), Some (length (uploadQueue s)),
     lastCaptureTime s, Some (serverConnected s)) /\
  isCapturing (fst (handleMessage env (toggleAction p) s)) = negb (isCapturing s).
Proof.
  cbv zeta. split; [apply popupLoad_mirror|]. split; [reflexivity|].
  unfold toggleAction, popupLoad. cbn [handleMessage].
  change (p_isCapturing _) with (isCapturing s).
  destruct (isCapturing s) eqn:E.
  - assert (Hst : fst (handleMessage env StopCapture s) = fst (stopCapture env s)).
    { unfold handleMessage. mstep.
      now rewrite (run_ok _ _ _ (stopCapture_returns env s)). }
    rewrite Hst. unfold stopCapture. mstep. rewrite E. mstep.
    destruct (storageOk env (saves s)); mstep;
      destruct (captureTimer s) as [[|t]|]; reflexivity.
  - assert (Hst : fst (handleMessage env StartCapture s) = fst (startCapture env s)).
    { unfold handleMessage. mstep.
      now rewrite (run_ok _ _ _ (startCapture_returns env s)). }
    rewrite Hst. now destruct (startCapture_arms env s E) as (_ & H & _).
Qed.


(** ** The probe without drain *)

(** X18.  A probe that is not answered 2xx, or finds the queue empty, sets
    the server flag to what it found, tells the popup and arms the next
    probe; it sends nothing else and leaves the queue and the screenshots
    alone. The body of the answer is not read. *)
Theorem probe_without_drain (env : Env) (s : State) :
  healthy (outcome (fetchReply env (fetches s))) = false \/ uploadQueue s = [] ->
  checkServerConnection env s =
    (addTimeout TaskProbe 30000
       (emit (EvNotify (StatusServer (healthy (outcome (fetchReply env (fetches s))))))
          (set_serverConnected (healthy (outcome (fetchReply env (fetches s))))
             (probed env s))),
     Ok tt).
Proof.
  intros H. unfold checkServerConnection, probed.
  cbv beta iota zeta delta [bind gets modify try_catch fetch throw unawaited
                            setTimeout notifyPopup ret].
  destruct (outcome (fetchReply env (fetches s))) as [|ok status js];
    cbn [healthy fst snd uploadQueue set_serverConnected set_platform] in *.
  - reflexivity.
  - destruct H as [-> | ->]; [reflexivity|].
    cbn [length Nat.ltb Nat.leb]. now rewrite Bool.andb_false_r.
Qed.

Lemma probe_without_drain_witness :
  serverConnected (fst (checkServerConnection envOffline initialState)) = false /\
  uploadQueue (fst (checkServerConnection envOffline initialState)) = [].
Proof.
  rewrite (probe_without_drain envOffline initialState).
  - split; reflexivity.
  - left. reflexivity.
Defined.

(** ** The ids of the screenshots *)

Lemma pretty_N_char_lacks x : Ascii.eqb (pretty_N_char x) "_"%char = false.
Proof. unfold pretty_N_char. now repeat case_match. Qed.

Lemma pretty_N_go_lacks x : forall s,
  lacks "_"%char s = true -> lacks "_"%char (pretty_N_go x s) = true.
Proof.
  induction (N.lt_wf_0 x) as [x _ IH]. intros s Hs.
  assert (x = 0 \/ 0 < x)%N as [->|Hx] by lia.
  - now rewrite pretty_N_go_0.
  - rewrite pretty_N_go_step by exact Hx. apply IH.
    + now apply N.div_lt.
    + cbn [lacks]. now rewrite pretty_N_char_lacks.
Qed.

Lemma pretty_Z_lacks (t : Z) : lacks "_"%char (pretty t) = true.
Proof.
  assert (HN : forall n : N, lacks "_"%char (pretty n) = true).
  { intros n. unfold pretty, pretty_N. case_decide; [reflexivity|].
    now apply pretty_N_go_lacks. }
  destruct t as [|p|p]; [reflexivity| apply (HN (Npos p)) |].
  change (pretty (Zneg p)) with ("-" +:+ pretty (Npos p)).
  cbn. apply (HN (Npos p)).
Qed.

Lemma split_at_underscore a1 : forall a2 r1 r2,
  lacks "_"%char a1 = true -> lacks "_"%char a2 = true ->
  a1 +:+ String "_"%char r1 = a2 +:+ String "_"%char r2 -> a1 = a2 /\ r1 = r2.
Proof.
  induction a1 as [|c1 a1 IH]; intros [|c2 a2] r1 r2 H1 H2 E;
    cbn [String.append lacks] in *.
  - injection E as ->. auto.
  - injection E as <- _. now rewrite Ascii.eqb_refl in H2.
  - injection E as -> _. now rewrite Ascii.eqb_refl in H1.
  - injection E as -> E.
    apply andb_prop in H1 as [_ H1]. apply andb_prop in H2 as [_ H2].
    destruct (IH a2 r1 r2 H1 H2 E) as [-> ->]. auto.
Qed.

(** X19.  Two screenshot ids are the same only if they were made in the same
    millisecond with the same random part: nothing is lost when the two are
    put together. *)
Theorem screenshot_ids_determine_time_and_random (rnd1 rnd2 : string)
    (s1 s2 : State) (id1 id2 : string) :
  snd (generateScreenshotId rnd1 s1) = Ok id1 ->
  snd (generateScreenshotId rnd2 s2) = Ok id2 ->
  id1 = id2 ->
  now s1 = now s2 /\ rnd1 = rnd2.
Proof.
  unfold generateScreenshotId. mstep. intros [= <-] [= <-] E.
  cbn [String.append] in E. injection E as E.
  apply (split_at_underscore _ _ _ _ (pretty_Z_lacks _) (pretty_Z_lacks _)) in E
    as [Ht Hr].
  split; [now apply (inj pretty) | exact Hr].
Qed.

Lemma screenshot_ids_witness :
  now initialState = now initialState /\ "k3j9x0q2a" = "k3j9x0q2a".
Proof.
  apply (screenshot_ids_determine_time_and_random "k3j9x0q2a" "k3j9x0q2a"
           initialState initialState "screenshot_0_k3j9x0q2a"
           "screenshot_0_k3j9x0q2a"); reflexivity.
Defined.

(** ** The endpoints *)

Lemma prefix_cons a s1 b s2 :
  String.prefix (String a s1) (String b s2) =
  if ascii_dec a b then String.prefix s1 s2 else false.
Proof. reflexivity. Qed.

Lemma prefix_api_append a b :
  String.prefix "/api" (String a b) = false ->
  String.prefix "/api" (String a (b +:+ "/api")) = false.
Proof.
  rewrite !prefix_cons. destruct (ascii_dec "/" a) as [_|]; [|reflexivity].
  destruct b as [|c1 b]; [reflexivity|].
  change (String c1 b +:+ "/api") with (String c1 (b +:+ "/api")).
  rewrite !prefix_cons. destruct (ascii_dec "a" c1) as [_|]; [|reflexivity].
  destruct b as [|c2 b]; [reflexivity|].
  change (String c2 b +:+ "/api") with (String c2 (b +:+ "/api")).
  rewrite !prefix_cons. destruct (ascii_dec "p" c2) as [_|]; [|reflexivity].
  destruct b as [|c3 b]; [reflexivity|].
  change (String c3 b +:+ "/api") with (String c3 (b +:+ "/api")).
  rewrite !prefix_cons. destruct (ascii_dec "i" c3) as [_|]; [|reflexivity].
  destruct b; discriminate.
Qed.

Lemma index_append_api base :
  String.index 0 "/api" base = None ->
  String.index 0 "/api" (base +:+ "/api") = Some (String.length base).
Proof.
  induction base as [|a b IH]; [reflexivity|].
  change (String a b +:+ "/api") with (String a (b +:+ "/api")).
  cbn [String.index String.length].
  destruct (String.prefix "/api" (String a b)) eqn:Hp; [discriminate|].
  rewrite (prefix_api_append a b Hp).
  destruct (String.index 0 "/api" b); [discriminate|].
  intros _. now rewrite IH.
Qed.

Lemma substring_prefix base x :
  String.substring 0 (String.length base) (base +:+ x) = base.
Proof.
  induction base as [|a b IH]; [now destruct x|].
  change (String a b +:+ x) with (String a (b +:+ x)).
  cbn [String.length String.substring]. now rewrite IH.
Qed.

Lemma substring_none n : forall s, String.substring n 0 s = "".
Proof. induction n as [|n IH]; intros [|a s]; cbn; auto. Qed.

Lemma length_append_string a b :
  String.length (a +:+ b) = String.length a + String.length b.
Proof.
  induction a as [|c a IH]; [reflexivity|].
  change (String c a +:+ b) with (String c (a +:+ b)).
  cbn [String.length]. now rewrite IH.
Qed.

Lemma append_empty_r s : s +:+ "" = s.
Proof.
  induction s as [|c s IH]; [reflexivity|].
  change (String c s +:+ "") with (String c (s +:+ "")). now rewrite IH.
Qed.

Lemma js_replace_api_suffix base rep :
  String.index 0 "/api" base = None ->
  js_replace (base +:+ "/api") "/api" rep = base +:+ rep.
Proof.
  intros H. unfold js_replace. rewrite (index_append_api base H).
  rewrite substring_prefix, length_append_string.
  cbn [String.length]. rewrite Nat.sub_diag, substring_none.
  now rewrite append_empty_r.
Qed.

(** X20.  The server URL may be given with or without its final /api: both
    address the same upload and health endpoints, provided /api occurs
    nowhere else in it. *)
Theorem endpoints_with_or_without_api (s : State) (base : string) :
  String.index 0 "/api" base = None ->
  serverUrl s = base +:+ "/api" \/ serverUrl s = base ->
  uploadTarget s = base +:+ "/api/upload-screenshot" /\
  healthTarget s = base +:+ "/api/health".
Proof.
  intros H [E|E]; unfold uploadTarget, healthTarget; rewrite E.
  - rewrite (js_replace_api_suffix base "" H).
    now rewrite append_empty_r.
  - unfold js_replace. now rewrite H.
Qed.

Lemma endpoints_with_or_without_api_witness :
  uploadTarget initialState =
  "https://emr-assistant-functions.azurewebsites.net/api/upload-screenshot".
Proof.
  destruct (endpoints_with_or_without_api initialState
              "https://emr-assistant-functions.azurewebsites.net") as [H _].
  - reflexivity.
  - left. reflexivity.
  - exact H.
Defined.

(** ** A whole sweep while the server is not connected *)

Lemma for_of_retry_offline_requeue env retry t items : forall s,
  serverConnected s = false ->
  NoDup items ->
  (forall r, In r items ->
     exists it, heap s !! r = Some it /\
                reachedMax env (retryCount it) (settings s !! "maxRetries") = false) ->
  let s' := fst (for_of items (retryItem env retry t) s) in
  uploadQueue s' = uploadQueue s ++ items /\
  (forall r it, In r items -> heap s !! r = Some it ->
                heap s' !! r = Some (retried t it)) /\
  (forall r, ~ In r items -> heap s' !! r = heap s !! r) /\
  settings s' = settings s /\
  serverConnected s' = false.
Proof.
  induction items as [|r items IH]; intros s Hc Hnd Hit; cbv zeta.
  - cbn. rewrite app_nil_r. repeat split; auto. intros r it [].
  - apply NoDup_cons in Hnd as [Hnin Hnd].
    destruct (Hit r (or_introl eq_refl)) as (it & Hr & Hmax).
    cbn [for_of].
    rewrite (bind_ok _ _ _ _ tt
               (eq_trans (retryItem_offline env retry t r it s Hc Hr)
                         ltac:(rewrite Hmax; reflexivity))).
    set (s1 := set_uploadQueue _ _).
    assert (Hne : forall r', In r' items -> r' <> r).
    { intros r' Hin ->. apply Hnin. now apply list_elem_of_In. }
    destruct (IH s1) as (Hq & Hh & Hfr & Hs & Hc').
    + exact Hc.
    + exact Hnd.
    + intros r' Hin. destruct (Hit r' (or_intror Hin)) as (it' & Hr' & Hmax').
      exists it'. split; [|exact Hmax'].
      unfold s1. cbn. rewrite list_lookup_insert_ne by (intros E; now apply (Hne r')).
      exact Hr'.
    + split; [|split; [|split; [|split]]].
      * rewrite Hq. unfold s1. cbn. now rewrite <- app_assoc.
      * intros r' it' [<-|Hin] Hr'.
        -- rewrite Hfr by (intros Hin; apply Hnin; now apply list_elem_of_In).
           unfold s1. cbn. rewrite Hr in Hr'. injection Hr' as <-.
           apply list_lookup_insert_eq. eapply lookup_lt_Some; eauto.
        -- apply Hh; [exact Hin|]. unfold s1. cbn.
           rewrite list_lookup_insert_ne by (intros E; now apply (Hne r')).
           exact Hr'.
      * intros r' Hn. rewrite Hfr by (intros Hin; apply Hn; now right).
        unfold s1. cbn. apply list_lookup_insert_ne. intros ->. apply Hn. now left.
      * rewrite Hs. reflexivity.
      * exact Hc'.
Qed.

(** X21.  A sweep made while the server is not connected, over a queue whose
    eligible entries are distinct objects below their budget: nothing is
    sent and nothing leaves the queue; every eligible entry is queued a
    second time, and its object counts one more retry, made now. *)
Theorem offline_sweep_requeues (env : Env) (s : State) :
  serverConnected s = false ->
  NoDup (retryableItems (now s) s) ->
  (forall r it, In r (retryableItems (now s) s) -> heap s !! r = Some it ->
     reachedMax env (retryCount it) (settings s !! "maxRetries") = false) ->
  let s' := fst (scheduleRetry env s) in
  uploadQueue s' = uploadQueue s ++ retryableItems (now s) s /\
  (forall r it, In r (retryableItems (now s) s) -> heap s !! r = Some it ->
     heap s' !! r = Some (retried (now s) it)) /\
  (forall r, ~ In r (retryableItems (now s) s) -> heap s' !! r = heap s !! r) /\
  fetches s' = fetches s.
Proof.
  intros Hc Hnd Hmax. cbv zeta.
  destruct (for_of_retry_offline_requeue env (scheduleRetryN env 1) (now s)
              (retryableItems (now s) s) s Hc Hnd) as (H1 & H2 & H3 & _).
  { intros r Hin.
    pose proof (retryableItems_valid (now s) s) as Hv.
    rewrite List.Forall_forall in Hv.
    destruct (lookup_lt_is_Some_2 (heap s) r (Hv r Hin)) as [it Hit].
    exists it. split; [exact Hit | now apply (Hmax r it)]. }
  destruct (for_of_retry_offline env (scheduleRetryN env 1) (now s)
              (retryableItems (now s) s) s Hc (retryableItems_valid _ _))
    as (Hok & (_ & Hf & _) & _).
  unfold scheduleRetry.
  change (scheduleRetryN env 2) with (sweepWith env (scheduleRetryN env 1)).
  unfold sweepWith. mstep.
  destruct (0 <? length (uploadQueue s)) eqn:Hq.
  - destruct (for_of (retryableItems (now s) s)
                (retryItem env (scheduleRetryN env 1) (now s)) s) as [s1 res].
    cbn [fst snd] in *. subst res. mstep. auto.
  - apply Nat.ltb_ge in Hq.
    assert (Eq : uploadQueue s = [])
      by (destruct (uploadQueue s); [reflexivity | cbn in Hq; lia]).
    unfold retryableItems. rewrite Eq. mstep.
    repeat split; auto. intros r it [].
Qed.

Lemma offline_sweep_requeues_witness :
  uploadQueue
    (fst (scheduleRetry envOffline
            (queuedState false 5000
               [itemNamed "a" None None; itemNamed "b" None None] [0; 1] 3)))
  = [0; 1; 0; 1].
Proof.
  destruct (offline_sweep_requeues envOffline
              (queuedState false 5000
                 [itemNamed "a" None None; itemNamed "b" None None] [0; 1] 3))
    as (H & _).
  - reflexivity.
  - change (NoDup [0; 1]). apply NoDup_cons. split; [|apply NoDup_singleton].
    apply not_elem_of_cons. split; [lia | apply not_elem_of_nil].
  - intros r it Hin Hit. vm_compute in Hin.
    destruct Hin as [<-|[<-|[]]]; vm_compute in Hit; injection Hit as <-;
      reflexivity.
  - exact H.
Defined.
(** * Eligibility, outage and restart *)

(** ** What a sweep charges *)













(** ** Every eligible entry is announced *)








(** ** While the server is not connected *)





(** ** The sweep around its loop *)


(** ** Eligibility *)



(** ** Retries while the server is not connected *)

(** C2 fails on the code: a retry made by the sweep goes through the
    connectivity check of uploadScreenshot like any other upload.
    First, one sweep over a queue that holds one capture, server not
    connected: the capture is eligible and within its budget, the console
    announces attempt 1, and no request leaves the extension.
    Second, a run from the start.  The health probe of the start is
    answered and no request after it.  Capture is switched on; the first
    tick captures a page, its POST fails, and the server is marked not
    connected; the second tick captures a page, which is queued without a
    request.  The sweeps that the timers start announce the attempts 1, 2
    and 3 for the second capture and then remove it for having reached the
    maximum of 3 retries.  Its id is in no POST: the two requests of the
    run are the probe of the start and the POST of the first capture. *)
Theorem offline_retries_use_budget_without_request :
  (let s := queuedState false 5000 [itemA None None] [0] 3 in
   let s' := fst (scheduleRetry envOffline s) in
   serverConnected s = false /\
   In 0 (retryableItems (now s) s) /\
   reachedMax envOffline None (settings s !! "maxRetries") = false /\
   In (EvConsole (LogRetrying "a" 1)) (trace s') /\
   fetches s' = fetches s /\
   ~ (exists target sid, In (EvPost target sid) (trace s'))) /\
  (let first := "screenshot_2500_k3j9x0q2a" in
   let second := "screenshot_4000_m4n5b6v7c" in
   let s := run envOneAnswer outageSchedule (boot envOneAnswer (Some noStored)) in
   settings s !! "maxRetries" = Some (JNum (Num.of_Z 3)) /\
   firstn 8 (consoleLines (trace s))
   = [LogRetrying first 1; LogRetrying second 1;
      LogRetrying first 2; LogRetrying second 2;
      LogRetrying first 3; LogRetrying second 3;
      LogMaxRetries first; LogMaxRetries second] /\
   retriesOf second (trace s) = 3 /\
   posts (trace s) = [first] /\
   fetches s = 2 /\
   uploadQueue s = []).
Proof.
  split.
  - vm_compute. repeat split; auto.
    intros (target & sid & H).
    repeat (destruct H as [H|H]; [discriminate H|]). exact H.
  - vm_compute. repeat split; reflexivity.
Qed.

(** ** A restart while capturing *)

Lemma boot_restores_flag env stored :
  st_isCapturing stored = Some true ->
  isCapturing (boot env (Some stored)) = true.
Proof.
  intros H. rewrite boot_state.
  pose proof (checkServerConnection_beyond env (restore stored initialState)) as Hb.
  unfold same, beyondUpload in Hb.
  assert (E : isCapturing (fst (checkServerConnection env (restore stored initialState)))
              = isCapturing (restore stored initialState)) by congruence.
  rewrite E. cbn. now rewrite H.
Qed.

Lemma starts_change_nothing env calls s :
  isCapturing s = true ->
  Forall (fun tg => tg = Start) calls ->
  runToggles env calls s = s.
Proof.
  intros Hc. induction 1 as [|tg calls -> _ IH]; [reflexivity|].
  unfold runToggles. cbn [fold_left]. fold (runToggles env calls (toggle env Start s)).
  rewrite handle_toggle_state, (startCapture_noop env s Hc). exact IH.
Qed.

Lemma stop_clears_restored_flag env s :
  isCapturing s = true -> captureTimer s = None ->
  isCapturing (toggle env Stop s) = false.
Proof.
  intros Hc Ht. rewrite handle_toggle_state.
  unfold stopCapture. mstep. rewrite Hc. mstep.
  destruct (storageOk env (saves s)); mstep; rewrite Ht; mstep; reflexivity.
Qed.

(** C9 fails on the code.  While capture is on, the stored state says
    isCapturing = true.  When the extension starts again with that stored
    state, the flag is restored and no timer is armed.  From then on
    startCapture, however often it is asked, answers success and changes
    nothing: the last toggle is a successful startCapture and no capture
    timer is armed, so no tick will come.  Only stopCapture followed by
    startCapture arms the timer. *)
Theorem restart_while_capturing_blocks_startCapture (env : Env) (stored : Stored) :
  st_isCapturing stored = Some true ->
  let s := boot env (Some stored) in
  isCapturing s = true /\
  ~ timerArmed s /\
  (exists r, snd (handleMessage env StartCapture s) = Ok r /\ success r = true) /\
  (forall calls, Forall (fun tg => tg = Start) calls ->
     runToggles env calls s = s) /\
  last [Start] = Some Start /\
  ~ timerArmed (runToggles env [Start] s) /\
  intervals (runToggles env [Start] s) = [] /\
  (forall t inp,
     activate env (runToggles env [Start] s) (t, OnCaptureTick inp)
     = runToggles env [Start] s) /\
  timerArmed (runToggles env [Stop; Start] s).
Proof.
  intros Hst. cbv zeta.
  pose proof (boot_restores_flag env stored Hst) as Hc.
  pose proof (boot_unarmed env (Some stored)) as Hu.
  set (s := boot env (Some stored)) in *.
  assert (Hna : ~ timerArmed s).
  { destruct Hu as (Ht & _). intros (t & Ht' & _). congruence. }
  assert (Hsame : forall calls, Forall (fun tg => tg = Start) calls ->
                    runToggles env calls s = s)
    by (intros calls; now apply starts_change_nothing).
  assert (H1 : runToggles env [Start] s = s)
    by (apply Hsame; repeat constructor).
  split; [exact Hc|]. split; [exact Hna|].
  split; [exact (handle_toggle_success env Start s)|].
  split; [exact Hsame|]. split; [reflexivity|]. rewrite H1.
  split; [exact Hna|]. destruct Hu as (Ht & Hi & Hn).
  split; [exact Hi|]. split.
  - intros t inp. unfold activate. cbn [snd]. now rewrite Hi.
  - change (runToggles env [Stop; Start] s)
      with (toggle env Start (toggle env Stop s)).
    assert (Htr : tracked s) by (split; [exact Hn | left; auto]).
    destruct (toggle_tracked env Stop s Htr) as (Htr1 & _).
    pose proof (stop_clears_restored_flag env s Hc Ht) as Hc1.
    destruct (toggle_tracked env Start (toggle env Stop s) Htr1) as (_ & Harm & _).
    cbn [takesEffect] in Harm. rewrite Hc1 in Harm. cbn [negb] in Harm.
    now apply Harm.
Qed.

Lemma restart_while_capturing_witness :
  timerArmed capturingSession /\
  last [Start] = Some Start /\
  ~ timerArmed
      (runToggles envOneAnswer [Start]
         (boot envOneAnswer (Some (savedState capturingSession)))).
Proof.
  split; [|split; [reflexivity|]].
  - exists 1. vm_compute. split; [reflexivity | now left].
  - apply (restart_while_capturing_blocks_startCapture envOneAnswer
             (savedState capturingSession)).
    vm_compute. reflexivity.
Defined.
